(** * Focal-plane assembly of azcam images

    A shallow embedding of [Image.assemble] and [Image.set_scaling] of
    [src/azcam/image.py], together with the Python and numpy primitives
    these two methods rely on, and the properties of the assembly engine
    proved about them. *)

From Stdlib Require Import ZArith String.
From stdpp Require Import base tactics list list_numbers strings gmap.

Local Open Scope Z_scope.

(** ** Python exceptions and results *)

Inductive exn : Type :=
  | AzcamError (msg : string)   (* azcam.exceptions.AzcamError *)
  | IndexError
  | ValueError
  | TypeError.

Inductive result (A : Type) : Type :=
  | Ok (a : A)
  | Raise (e : exn).
Arguments Ok {A} a.
Arguments Raise {A} e.

Definition rbind {A B} (r : result A) (k : A -> result B) : result B :=
  match r with
  | Ok a => k a
  | Raise e => Raise e
  end.

Notation "'let?' x := r 'in' k" := (rbind r (fun x => k))
  (at level 10, x name, r at level 100, k at level 200).

(** ** State and exception monad

    A method mutates [self] in place, and what it wrote before raising
    stays written: a computation maps the state to a result and the
    state reached when it returned or raised. *)

Definition M (S A : Type) : Type := S -> result A * S.

Definition ret {S A} (a : A) : M S A := fun s => (Ok a, s).
Definition raise {S A} (e : exn) : M S A := fun s => (Raise e, s).
Definition bind {S A B} (m : M S A) (k : A -> M S B) : M S B :=
  fun s => match m s with
           | (Ok a, s') => k a s'
           | (Raise e, s') => (Raise e, s')
           end.
Definition get {S} : M S S := fun s => (Ok s, s).
Definition modify {S} (f : S -> S) : M S unit := fun s => (Ok tt, f s).
Definition lift {S A} (r : result A) : M S A := fun s => (r, s).

Notation "x <- m ;; k" := (bind m (fun x => k))
  (at level 100, m at next level, right associativity).
Notation "m ;;; k" := (bind m (fun _ => k))
  (at level 100, right associativity).

(** [for x in xs: acc = body x acc] *)
Fixpoint for_each {S A} (xs : list Z) (body : Z -> A -> M S A) (acc : A)
  : M S A :=
  match xs with
  | [] => ret acc
  | x :: xs' => acc' <- body x acc ;; for_each xs' body acc'
  end.

(** ** Python sequences *)

(** [range(a, b)] *)
Definition range (a b : Z) : list Z := seqZ a (b - a).

(** Python truth value of an int used as a flag. *)
Definition truthy (z : Z) : bool := negb (z =? 0).

(** [l[i]]: a negative index counts from the end. *)
Definition py_getitem {A} (l : list A) (i : Z) : result A :=
  let n := Z.of_nat (length l) in
  let k := if i <? 0 then i + n else i in
  if k <? 0 then Raise IndexError
  else match l !! Z.to_nat k with
       | Some x => Ok x
       | None => Raise IndexError
       end.

(** Bound of a slice, as [slice.indices] clips it. *)
Definition slice_bound (n i : Z) : Z :=
  if i <? 0 then Z.max 0 (i + n) else Z.min i n.

(** [l[start:stop]] *)
Definition py_slice {A} (l : list A) (start stop : Z) : list A :=
  let n := Z.of_nat (length l) in
  let lo := slice_bound n start in
  let hi := slice_bound n stop in
  take (Z.to_nat (hi - lo)) (drop (Z.to_nat lo) l).

(** ** numpy arrays *)

Inductive dtype : Type := uint16 | float32 | float64.

(** The arrays the two methods handle have one or two axes. A
    two-axis array is the list of its rows. *)
Inductive ndarray (px : Type) : Type :=
  | Arr1 (dt : dtype) (cells : list px)
  | Arr2 (dt : dtype) (rows : list (list px)).
Arguments Arr1 {px} dt cells.
Arguments Arr2 {px} dt rows.

(** Floating-point pixels: the arithmetic of the calibration, the
    constants [0.0] and [1.0], the rounding of a value stored into a
    float32 array, and what storage from [numpy.empty] happens to
    hold. *)
Class Pixel (px : Type) : Type := {
  psub : px -> px -> px;
  pmul : px -> px -> px;
  pzero : px;
  pone : px;
  to_f32 : px -> px;
  uninit : Z -> px
}.

Section Numpy.
Context {px : Type} `{!Pixel px}.

Definition nd_dtype (a : ndarray px) : dtype :=
  match a with Arr1 dt _ => dt | Arr2 dt _ => dt end.

(** [a.ravel()] *)
Definition nd_cells (a : ndarray px) : list px :=
  match a with Arr1 _ cells => cells | Arr2 _ rows => concat rows end.

(** [a.size] *)
Definition nd_size (a : ndarray px) : Z := Z.of_nat (length (nd_cells a)).

(** [len(a)] *)
Definition nd_len (a : ndarray px) : Z :=
  match a with
  | Arr1 _ cells => Z.of_nat (length cells)
  | Arr2 _ rows => Z.of_nat (length rows)
  end.

(** [numpy.empty(shape=[r, c], dtype=dt)] *)
Definition np_empty (dt : dtype) (r c : Z) : result (ndarray px) :=
  if (r <? 0) || (c <? 0) then Raise ValueError
  else Ok (Arr2 dt ((fun i => (fun j => uninit (i * c + j)) <$> seqZ 0 c)
                      <$> seqZ 0 r)).

(** [numpy.resize(a, n)]: [n] cells, [a] repeated as often as needed,
    zeros when [a] is empty. *)
Definition np_resize (a : ndarray px) (n : Z) : result (ndarray px) :=
  if n <? 0 then Raise ValueError
  else
    let cells := nd_cells a in
    let size := Z.of_nat (length cells) in
    if (size =? 0) || (n =? 0)
    then Ok (Arr1 (nd_dtype a) (replicate (Z.to_nat n) pzero))
    else
      let repeats := - (- n / size) in
      Ok (Arr1 (nd_dtype a)
            (take (Z.to_nat n) (concat (replicate (Z.to_nat repeats) cells)))).

(** The rows of [r] by [c] cells read in row-major order. *)
Definition chunk (cells : list px) (r c : Z) : list (list px) :=
  (fun i : nat => take (Z.to_nat c) (drop (i * Z.to_nat c)%nat cells))
    <$> seq 0 (Z.to_nat r).

(** [a.reshape((r, c))]: a negative entry is the one unknown
    dimension, inferred from the size. *)
Definition np_reshape (a : ndarray px) (r c : Z) : result (ndarray px) :=
  let cells := nd_cells a in
  let n := Z.of_nat (length cells) in
  let dt := nd_dtype a in
  if (r <? 0) && (c <? 0) then Raise ValueError
  else if r <? 0 then
    if (c =? 0) || negb (n mod c =? 0) then Raise ValueError
    else Ok (Arr2 dt (chunk cells (n / c) c))
  else if c <? 0 then
    if (r =? 0) || negb (n mod r =? 0) then Raise ValueError
    else Ok (Arr2 dt (chunk cells r (n / r)))
  else if r * c =? n then Ok (Arr2 dt (chunk cells r c))
  else Raise ValueError.

(** [row[start:stop] = rhs] on a one-axis view: [rhs] has the length
    of the slice, or one cell that is broadcast over it. *)
Definition np_setslice (row : list px) (start stop : Z) (rhs : list px)
  : result (list px) :=
  let n := Z.of_nat (length row) in
  let lo := slice_bound n start in
  let hi := slice_bound n stop in
  let m := Z.to_nat (hi - lo) in
  if decide (length rhs = m)
  then Ok (take (Z.to_nat lo) row ++ rhs ++ drop (Z.to_nat lo + m) row)
  else match rhs with
       | [x] => Ok (take (Z.to_nat lo) row ++ replicate m x
                      ++ drop (Z.to_nat lo + m) row)
       | _ => Raise ValueError
       end.

(** [a[line][start:stop] = rhs]. On a one-axis array [a[line]] is a
    scalar, which supports no item assignment. *)
Definition np_setrow_slice (a : ndarray px) (line start stop : Z)
    (rhs : list px) : result (ndarray px) :=
  match a with
  | Arr1 _ cells =>
      let? _ := py_getitem cells line in Raise TypeError
  | Arr2 dt rows =>
      let? row := py_getitem rows line in
      let? row' := np_setslice row start stop rhs in
      let k := if line <? 0 then line + Z.of_nat (length rows) else line in
      Ok (Arr2 dt (<[Z.to_nat k := row']> rows))
  end.

(** [a[indx][start:stop]]. On a one-axis array [a[indx]] is a scalar,
    which cannot be indexed. *)
Definition np_row_slice (a : ndarray px) (indx start stop : Z)
  : result (list px) :=
  match a with
  | Arr1 _ cells => let? _ := py_getitem cells indx in Raise IndexError
  | Arr2 _ rows =>
      let? row := py_getitem rows indx in Ok (py_slice row start stop)
  end.
End Numpy.

(** ** The image object *)

(** The attributes of [self.focalplane] that the two methods read. *)
Record FocalPlane : Type := {
  numcols_image : Z;
  numrows_image : Z;
  numcols_underscan : Z;
  numcols_overscan : Z;
  numrows_underscan : Z;
  numrows_overscan : Z;
  numamps_x : Z;
  numamps_y : Z;
  numamps_image : Z;
  numcols_amp : Z;
  numrows_amp : Z;
  num_ser_amps_det : Z;
  num_par_amps_det : Z;
  jpg_ext : list Z;
  amp_cfg : list Z
}.

(** The attributes of [Image] that the two methods read or write. *)
Record Image (px : Type) : Type := {
  is_valid : Z;
  size_x : Z;
  size_y : Z;
  buffer : ndarray px;
  from_file : Z;
  scales : list px;
  offsets : list px;
  data : ndarray px;
  trim : Z;
  assembled : Z;
  trimmed : Z;
  asmsize : Z * Z;
  lineLen : Z;
  startLine : Z;
  stopLine : Z;
  num_extensions : Z;
  focalplane : FocalPlane
}.
Arguments is_valid {px} _.
Arguments size_x {px} _.
Arguments size_y {px} _.
Arguments buffer {px} _.
Arguments from_file {px} _.
Arguments scales {px} _.
Arguments offsets {px} _.
Arguments data {px} _.
Arguments trim {px} _.
Arguments assembled {px} _.
Arguments trimmed {px} _.
Arguments asmsize {px} _.
Arguments lineLen {px} _.
Arguments startLine {px} _.
Arguments stopLine {px} _.
Arguments num_extensions {px} _.
Arguments focalplane {px} _.

Section Setters.
Context {px : Type}.

(** [self.is_valid = v] *)
Definition set_is_valid (v : Z) (self : Image px) : Image px :=
  {| is_valid := v;
     size_x := size_x self;
     size_y := size_y self;
     buffer := buffer self;
     from_file := from_file self;
     scales := scales self;
     offsets := offsets self;
     data := data self;
     trim := trim self;
     assembled := assembled self;
     trimmed := trimmed self;
     asmsize := asmsize self;
     lineLen := lineLen self;
     startLine := startLine self;
     stopLine := stopLine self;
     num_extensions := num_extensions self;
     focalplane := focalplane self |}.

(** [self.buffer = v] *)
Definition set_buffer (v : ndarray px) (self : Image px) : Image px :=
  {| is_valid := is_valid self;
     size_x := size_x self;
     size_y := size_y self;
     buffer := v;
     from_file := from_file self;
     scales := scales self;
     offsets := offsets self;
     data := data self;
     trim := trim self;
     assembled := assembled self;
     trimmed := trimmed self;
     asmsize := asmsize self;
     lineLen := lineLen self;
     startLine := startLine self;
     stopLine := stopLine self;
     num_extensions := num_extensions self;
     focalplane := focalplane self |}.

(** [self.from_file = v] *)
Definition set_from_file (v : Z) (self : Image px) : Image px :=
  {| is_valid := is_valid self;
     size_x := size_x self;
     size_y := size_y self;
     buffer := buffer self;
     from_file := v;
     scales := scales self;
     offsets := offsets self;
     data := data self;
     trim := trim self;
     assembled := assembled self;
     trimmed := trimmed self;
     asmsize := asmsize self;
     lineLen := lineLen self;
     startLine := startLine self;
     stopLine := stopLine self;
     num_extensions := num_extensions self;
     focalplane := focalplane self |}.

(** [self.scales = v] *)
Definition set_scales (v : list px) (self : Image px) : Image px :=
  {| is_valid := is_valid self;
     size_x := size_x self;
     size_y := size_y self;
     buffer := buffer self;
     from_file := from_file self;
     scales := v;
     offsets := offsets self;
     data := data self;
     trim := trim self;
     assembled := assembled self;
     trimmed := trimmed self;
     asmsize := asmsize self;
     lineLen := lineLen self;
     startLine := startLine self;
     stopLine := stopLine self;
     num_extensions := num_extensions self;
     focalplane := focalplane self |}.

(** [self.offsets = v] *)
Definition set_offsets (v : list px) (self : Image px) : Image px :=
  {| is_valid := is_valid self;
     size_x := size_x self;
     size_y := size_y self;
     buffer := buffer self;
     from_file := from_file self;
     scales := scales self;
     offsets := v;
     data := data self;
     trim := trim self;
     assembled := assembled self;
     trimmed := trimmed self;
     asmsize := asmsize self;
     lineLen := lineLen self;
     startLine := startLine self;
     stopLine := stopLine self;
     num_extensions := num_extensions self;
     focalplane := focalplane self |}.

(** [self.data = v] *)
Definition set_data (v : ndarray px) (self : Image px) : Image px :=
  {| is_valid := is_valid self;
     size_x := size_x self;
     size_y := size_y self;
     buffer := buffer self;
     from_file := from_file self;
     scales := scales self;
     offsets := offsets self;
     data := v;
     trim := trim self;
     assembled := assembled self;
     trimmed := trimmed self;
     asmsize := asmsize self;
     lineLen := lineLen self;
     startLine := startLine self;
     stopLine := stopLine self;
     num_extensions := num_extensions self;
     focalplane := focalplane self |}.

(** [self.trim = v] *)
Definition set_trim (v : Z) (self : Image px) : Image px :=
  {| is_valid := is_valid self;
     size_x := size_x self;
     size_y := size_y self;
     buffer := buffer self;
     from_file := from_file self;
     scales := scales self;
     offsets := offsets self;
     data := data self;
     trim := v;
     assembled := assembled self;
     trimmed := trimmed self;
     asmsize := asmsize self;
     lineLen := lineLen self;
     startLine := startLine self;
     stopLine := stopLine self;
     num_extensions := num_extensions self;
     focalplane := focalplane self |}.

(** [self.assembled = v] *)
Definition set_assembled (v : Z) (self : Image px) : Image px :=
  {| is_valid := is_valid self;
     size_x := size_x self;
     size_y := size_y self;
     buffer := buffer self;
     from_file := from_file self;
     scales := scales self;
     offsets := offsets self;
     data := data self;
     trim := trim self;
     assembled := v;
     trimmed := trimmed self;
     asmsize := asmsize self;
     lineLen := lineLen self;
     startLine := startLine self;
     stopLine := stopLine self;
     num_extensions := num_extensions self;
     focalplane := focalplane self |}.

(** [self.trimmed = v] *)
Definition set_trimmed (v : Z) (self : Image px) : Image px :=
  {| is_valid := is_valid self;
     size_x := size_x self;
     size_y := size_y self;
     buffer := buffer self;
     from_file := from_file self;
     scales := scales self;
     offsets := offsets self;
     data := data self;
     trim := trim self;
     assembled := assembled self;
     trimmed := v;
     asmsize := asmsize self;
     lineLen := lineLen self;
     startLine := startLine self;
     stopLine := stopLine self;
     num_extensions := num_extensions self;
     focalplane := focalplane self |}.

(** [self.asmsize = v] *)
Definition set_asmsize (v : Z * Z) (self : Image px) : Image px :=
  {| is_valid := is_valid self;
     size_x := size_x self;
     size_y := size_y self;
     buffer := buffer self;
     from_file := from_file self;
     scales := scales self;
     offsets := offsets self;
     data := data self;
     trim := trim self;
     assembled := assembled self;
     trimmed := trimmed self;
     asmsize := v;
     lineLen := lineLen self;
     startLine := startLine self;
     stopLine := stopLine self;
     num_extensions := num_extensions self;
     focalplane := focalplane self |}.

(** [self.lineLen = v] *)
Definition set_lineLen (v : Z) (self : Image px) : Image px :=
  {| is_valid := is_valid self;
     size_x := size_x self;
     size_y := size_y self;
     buffer := buffer self;
     from_file := from_file self;
     scales := scales self;
     offsets := offsets self;
     data := data self;
     trim := trim self;
     assembled := assembled self;
     trimmed := trimmed self;
     asmsize := asmsize self;
     lineLen := v;
     startLine := startLine self;
     stopLine := stopLine self;
     num_extensions := num_extensions self;
     focalplane := focalplane self |}.

(** [self.startLine = v] *)
Definition set_startLine (v : Z) (self : Image px) : Image px :=
  {| is_valid := is_valid self;
     size_x := size_x self;
     size_y := size_y self;
     buffer := buffer self;
     from_file := from_file self;
     scales := scales self;
     offsets := offsets self;
     data := data self;
     trim := trim self;
     assembled := assembled self;
     trimmed := trimmed self;
     asmsize := asmsize self;
     lineLen := lineLen self;
     startLine := v;
     stopLine := stopLine self;
     num_extensions := num_extensions self;
     focalplane := focalplane self |}.

(** [self.stopLine = v] *)
Definition set_stopLine (v : Z) (self : Image px) : Image px :=
  {| is_valid := is_valid self;
     size_x := size_x self;
     size_y := size_y self;
     buffer := buffer self;
     from_file := from_file self;
     scales := scales self;
     offsets := offsets self;
     data := data self;
     trim := trim self;
     assembled := assembled self;
     trimmed := trimmed self;
     asmsize := asmsize self;
     lineLen := lineLen self;
     startLine := startLine self;
     stopLine := v;
     num_extensions := num_extensions self;
     focalplane := focalplane self |}.

(** [self.num_extensions = v] *)
Definition set_num_extensions (v : Z) (self : Image px) : Image px :=
  {| is_valid := is_valid self;
     size_x := size_x self;
     size_y := size_y self;
     buffer := buffer self;
     from_file := from_file self;
     scales := scales self;
     offsets := offsets self;
     data := data self;
     trim := trim self;
     assembled := assembled self;
     trimmed := trimmed self;
     asmsize := asmsize self;
     lineLen := lineLen self;
     startLine := startLine self;
     stopLine := stopLine self;
     num_extensions := v;
     focalplane := focalplane self |}.

(** [self.trim], the stored trim preference. *)
Definition stored_trim (self : Image px) : Z := trim self.

End Setters.

(** ** [Image.assemble] *)

Section Assemble.
Context {px : Type} `{!Pixel px}.

(** Runs on [self.buffer] a computation that mutates the buffer. *)
Definition on_buffer {A} (m : M (ndarray px) A) : M (Image px) A :=
  fun self => let (r, b) := m (buffer self) in (r, set_buffer b self).

(** *** The copy loops (lines 265-323)

    The variables are the locals and attributes the loops read and
    never write. The counter [pixNum] is written and never read; it
    is left out. *)
Section Loops.
Variables (Ext AmpFlip : list Z) (Data : ndarray px).
Variables (Offsets Scales : list px).
Variables (prescan1 prescan2 overscan2 : Z).
Variables (dstAmpX dstAmpY srcAmpX srcAmpY : Z).
Variables (self_lineLen num_ser_amps num_par_amps : Z).

(** [(self.data[indx][posX : posX + dstAmpX] - Offsets[indx]) *
    Scales[indx]], with [[::-1]] on the slice when [reversed]. *)
Definition calibrated (indx posX : Z) (reversed : bool)
  : result (list px) :=
  let? seg := np_row_slice Data indx posX (posX + dstAmpX) in
  let seg := if reversed then reverse seg else seg in
  let? off := py_getitem Offsets indx in
  let? sc := py_getitem Scales indx in
  Ok ((fun v => pmul (psub v off) sc) <$> seg).

(** [self.buffer[line][lineStart : lineStart + dstAmpX] = rhs] *)
Definition store_line (line lineStart : Z) (rhs : list px)
  : M (ndarray px) unit :=
  fun buf =>
    match np_setrow_slice buf line lineStart (lineStart + dstAmpX) rhs with
    | Ok buf' => (Ok tt, buf')
    | Raise e => (Raise e, buf)
    end.

(** One of the four [if flip == k:] blocks. *)
Definition copy_if (cond : bool) (indx posX : Z) (reversed : bool)
    (line lineStart : Z) : M (ndarray px) Z :=
  if cond then
    rhs <- lift (calibrated indx posX reversed) ;;
    store_line line lineStart rhs ;;;
    ret (lineStart + self_lineLen)
  else ret lineStart.

(** The body of the loop over [currExt] (lines 280-321): copies one
    line from the current extension; gives the new [lineStart]. *)
Definition copy_ext (line srcLine currExt lineStart : Z)
  : M (ndarray px) Z :=
  e <- lift (py_getitem Ext currExt) ;;
  let indx := e - 1 in
  flip <- lift (py_getitem AmpFlip indx) ;;
  lineStart <-
    copy_if (flip =? 0) indx
      (srcLine * srcAmpX + prescan1) false line lineStart ;;
  lineStart <-
    copy_if (flip =? 1) indx
      (srcLine * srcAmpX + prescan1) true line lineStart ;;
  lineStart <-
    copy_if (flip =? 2) indx
      ((srcAmpY - srcLine - overscan2 - 1) * srcAmpX + prescan1)
      false line lineStart ;;
  lineStart <-
    copy_if (flip =? 3) indx
      ((srcAmpY - srcLine - prescan2 - 1) * srcAmpX + prescan1)
      true line lineStart ;;
  ret lineStart.

(** The body of the loop over [line] (lines 273-323); gives the new
    [srcLine]. *)
Definition copy_line (extBase line srcLine : Z) : M (ndarray px) Z :=
  for_each (range extBase (extBase + num_ser_amps))
    (copy_ext line srcLine) 0 ;;;
  ret (srcLine + 1).

(** The body of the loop over [parAmps] (lines 269-323). *)
Definition copy_group (parAmps : Z) (_ : unit) : M (ndarray px) unit :=
  let extBase := parAmps * num_ser_amps in
  for_each (range (parAmps * dstAmpY) (parAmps * dstAmpY + dstAmpY))
    (copy_line extBase) prescan2 ;;;
  ret tt.

Definition copy_amplifiers : M (ndarray px) unit :=
  for_each (range 0 num_par_amps) copy_group tt.
End Loops.

(** [self.buffer = numpy.resize(self.buffer, imgSize)] followed by
    [self.buffer = self.buffer.reshape((asmsize[1], asmsize[0]))] *)
Definition resize_buffer (imgSize : Z) : M (Image px) unit :=
  self <- get ;;
  b <- lift (np_resize (buffer self) imgSize) ;;
  modify (set_buffer b) ;;;
  b <- lift (np_reshape b (asmsize self).2 (asmsize self).1) ;;
  modify (set_buffer b).

(** [self.buffer = self.buffer.reshape((asmsize[1], asmsize[0]))] *)
Definition reshape_buffer : M (Image px) unit :=
  self <- get ;;
  b <- lift (np_reshape (buffer self) (asmsize self).2 (asmsize self).1) ;;
  modify (set_buffer b).

(** Lines 187-200: the first value of [asmsize], and a fresh buffer
    when the image was not read from a file. *)
Definition fresh_buffer : M (Image px) unit :=
  self <- get ;;
  let fp := focalplane self in
  modify (set_asmsize (numcols_image fp, numrows_image fp)) ;;;
  if negb (from_file self =? 1) then
    let dt := match nd_dtype (data self) with
              | float64 => float64
              | _ => float32
              end in
    b <- lift (np_empty dt (size_y self) (size_x self)) ;;
    modify (set_buffer b)
  else ret tt.

(** Lines 205-244: the margins [(prescan1, overscan1, prescan2,
    overscan2)], the assembled size and the shape of the buffer. *)
Definition trim_margins (trim : Z) : M (Image px) (Z * Z * Z * Z) :=
  self <- get ;;
  let fp := focalplane self in
  if trim =? 1 then
    let prescan1 := numcols_underscan fp in
    let overscan1 := numcols_overscan fp in
    let prescan2 := numrows_underscan fp in
    let overscan2 := numrows_overscan fp in
    let num_under := numamps_x fp * numcols_overscan fp in
    let num_over := numamps_x fp * numcols_underscan fp in
    let size_x' := size_x self - num_under - num_over in
    let num_under := numamps_y fp * numrows_overscan fp in
    let num_over := numamps_y fp * numrows_underscan fp in
    let size_y' := size_y self - num_under - num_over in
    modify (set_asmsize (size_x', size_y')) ;;;
    let imgSize := size_x' * size_y' in
    resize_buffer imgSize ;;;
    ret (prescan1, overscan1, prescan2, overscan2)
  else
    modify (set_asmsize (size_x self, size_y self)) ;;;
    let imgSize := size_x self * size_y self in
    (if negb (nd_size (data self) =? nd_size (buffer self))
     then resize_buffer imgSize
     else ret tt) ;;;
    ret (0, 0, 0, 0).

(** [Image.assemble(self, trim)] *)
Definition assemble (trim : Z) : M (Image px) unit :=
  self <- get ;;
  if negb (truthy (is_valid self)) then
    raise (AzcamError "image is not valid")
  else if truthy (assembled self) then ret tt
  else
    fresh_buffer ;;;
    let Offsets := offsets self in
    let Scales := scales self in
    margins <- trim_margins trim ;;
    let '(prescan1, overscan1, prescan2, overscan2) := margins in
    let fp := focalplane self in
    let dstAmpX := numcols_amp fp - prescan1 - overscan1 in
    let dstAmpY := numrows_amp fp - prescan2 - overscan2 in
    let srcAmpX := numcols_amp fp in
    let srcAmpY := numrows_amp fp in
    let ampX := numcols_amp fp in
    let ampY := numrows_amp fp in
    modify (set_lineLen (ampX - prescan1 - overscan1)) ;;;
    modify (set_startLine prescan2) ;;;
    modify (set_stopLine (ampY - prescan2 - overscan2)) ;;;
    let Ext := jpg_ext fp in
    let AmpFlip := amp_cfg fp in
    on_buffer
      (copy_amplifiers Ext AmpFlip (data self) Offsets Scales
         prescan1 prescan2 overscan2 dstAmpX dstAmpY srcAmpX srcAmpY
         (ampX - prescan1 - overscan1)
         (num_ser_amps_det fp) (num_par_amps_det fp)) ;;;
    reshape_buffer ;;;
    modify (set_assembled 1) ;;;
    if trim =? 1 then modify (set_trimmed 1) else ret tt.
End Assemble.

(** ** [Image.set_scaling] *)

Section SetScaling.
Context {px : Type} `{!Pixel px}.

(** [a = numpy.empty(shape=[n], dtype="f")] followed by
    [for ext in range(n): a[ext] = c], for a constant [c] that
    float32 holds exactly. *)
Definition np_filled (n : Z) (c : px) : result (list px) :=
  if n <? 0 then Raise ValueError else Ok (replicate (Z.to_nat n) c).

(** [a[i] = v] on a one-axis float32 array. *)
Definition np_setitem (a : list px) (i : Z) (v : px) : result (list px) :=
  let n := Z.of_nat (length a) in
  let k := if i <? 0 then i + n else i in
  if (k <? 0) || (n <=? k) then Raise IndexError
  else Ok (<[Z.to_nat k := to_f32 v]> a).

(** The body of the loop over [chan] (lines 366-367). *)
Definition set_chan (gains offsets' : list px) (chan : Z) (_ : unit)
  : M (Image px) unit :=
  g <- lift (py_getitem gains chan) ;;
  self <- get ;;
  s <- lift (np_setitem (scales self) chan g) ;;
  modify (set_scales s) ;;;
  o <- lift (py_getitem offsets' chan) ;;
  self <- get ;;
  s <- lift (np_setitem (offsets self) chan o) ;;
  modify (set_offsets s).

(** [Image.set_scaling(self, gains, offsets)]; [None] is an argument
    left out. *)
Definition set_scaling (gains offsets' : option (list px))
  : M (Image px) unit :=
  self <- get ;;
  modify (set_num_extensions (numamps_image (focalplane self))) ;;;
  self <- get ;;
  s <- lift (np_filled (num_extensions self) pone) ;;
  modify (set_scales s) ;;;
  o <- lift (np_filled (num_extensions self) pzero) ;;
  modify (set_offsets o) ;;;
  let gains :=
    match gains with
    | None => replicate (Z.to_nat (nd_len (data self))) pone
    | Some g => g
    end in
  let offsets' :=
    match offsets' with
    | None => replicate (Z.to_nat (nd_len (data self))) pzero
    | Some o => o
    end in
  for_each (range 0 (nd_len (data self))) (set_chan gains offsets') tt.
End SetScaling.

(** ** Exact pixels

    Integers with exact arithmetic stand for pixel values when the
    methods are run on concrete images. *)

#[export] Instance Z_Pixel : Pixel Z := {|
  psub := Z.sub;
  pmul := Z.mul;
  pzero := 0;
  pone := 1;
  to_f32 := fun v => v;
  uninit := fun _ => -1
|}.

Module Scenario.

(** A one-by-[ny] or [nx]-by-one detector of amplifiers of [cols] by
    [rows] raw pixels. *)
Definition plane (nx ny cols rows uc oc ur or_ : Z) (ext cfg : list Z)
  : FocalPlane :=
  {| numcols_image := nx * cols; numrows_image := ny * rows;
     numcols_underscan := uc; numcols_overscan := oc;
     numrows_underscan := ur; numrows_overscan := or_;
     numamps_x := nx; numamps_y := ny; numamps_image := nx * ny;
     numcols_amp := cols; numrows_amp := rows;
     num_ser_amps_det := nx; num_par_amps_det := ny;
     jpg_ext := ext; amp_cfg := cfg |}.

(** A valid image that was not read from a file and is not yet
    assembled. *)
Definition image (fp : FocalPlane) (d : list (list Z)) (sc off : list Z)
  : Image Z :=
  {| is_valid := 1;
     size_x := num_ser_amps_det fp * numcols_amp fp;
     size_y := num_par_amps_det fp * numrows_amp fp;
     buffer := Arr2 float32 []; from_file := 0;
     scales := sc; offsets := off; data := Arr2 float32 d;
     trim := 1; assembled := 0; trimmed := 0; asmsize := (0, 0);
     lineLen := 0; startLine := 0; stopLine := 0; num_extensions := 0;
     focalplane := fp |}.

(** Raw pixel [100 * amp + 10 * row + col] *)
Definition raw (amp cols rows : Z) : list Z :=
  r ← seqZ 0 rows; (fun c => 100 * amp + 10 * r + c) <$> seqZ 0 cols.

Definition two_amps (cfg : list Z) : Image Z :=
  image (plane 2 1 5 3 1 1 1 0 [1; 2] cfg)
    [raw 1 5 3; raw 2 5 3] [1; 1] [0; 0].

(** Two by two amplifiers, one of each flip code, read out in another
    order than they are numbered, each with a scale and an offset of
    its own. *)
Definition four_amps : Image Z :=
  image (plane 2 2 5 3 1 1 1 0 [3; 1; 4; 2] [0; 1; 2; 3])
    [raw 1 5 3; raw 2 5 3; raw 3 5 3; raw 4 5 3]
    [2; 3; 4; 5] [10; 20; 30; 40].


(** The same image with raw data that is not marked valid. *)
Definition invalid : Image Z := set_is_valid 0 (two_amps [0; 1]).

(** An image assembled with trimming whose [assembled] flag was then
    cleared, as [read_file] clears it (line 127). *)
Definition reread : Image Z :=
  set_assembled 0 (assemble 1 (two_amps [0; 1])).2.

(** Flip code 7 for the first amplifier. *)
Definition bad_flip : Image Z := two_amps [7; 0].

(** One amplifier of flip code 3, with one underscan row and column
    and no overscan. *)
Definition flip3 : Image Z :=
  image (plane 1 1 5 3 1 0 1 0 [1] [3]) [raw 1 5 3] [1] [0].

End Scenario.

(** ** Geometry of an assembly

    What the statements about [assemble] are phrased with: the margins
    a call works with, the extent of an amplifier in the assembled
    image, valid images, and the cells of a two-axis array. *)

Section Geometry.
Context {px : Type} `{!Pixel px}.

(** The margin the copy works with: the declared one when trimming is
    requested, zero otherwise. *)
Definition margin (trim m : Z) : Z := if trim =? 1 then m else 0.

Definition dst_amp_cols (trim : Z) (fp : FocalPlane) : Z :=
  numcols_amp fp - margin trim (numcols_underscan fp)
    - margin trim (numcols_overscan fp).

Definition dst_amp_rows (trim : Z) (fp : FocalPlane) : Z :=
  numrows_amp fp - margin trim (numrows_underscan fp)
    - margin trim (numrows_overscan fp).

(** The copy loops as [assemble trim] runs them on [self]. *)
Definition copy_of (trim : Z) (self : Image px) : M (ndarray px) unit :=
  let fp := focalplane self in
  copy_amplifiers (jpg_ext fp) (amp_cfg fp) (data self)
    (offsets self) (scales self)
    (margin trim (numcols_underscan fp))
    (margin trim (numrows_underscan fp))
    (margin trim (numrows_overscan fp))
    (dst_amp_cols trim fp) (dst_amp_rows trim fp)
    (numcols_amp fp) (numrows_amp fp)
    (dst_amp_cols trim fp)
    (num_ser_amps_det fp) (num_par_amps_det fp).

(** The assembled size a call records. *)
Definition asmsize_of (trim : Z) (self : Image px) : Z * Z :=
  let fp := focalplane self in
  if trim =? 1 then
    (size_x self - numamps_x fp * numcols_overscan fp
       - numamps_x fp * numcols_underscan fp,
     size_y self - numamps_y fp * numrows_overscan fp
       - numamps_y fp * numrows_underscan fp)
  else (size_x self, size_y self).

(** The image a successful [assemble trim] leaves, up to its
    buffer [b]. *)
Definition assembled_state (trim : Z) (self : Image px) (b : ndarray px)
  : Image px :=
  let fp := focalplane self in
  {| is_valid := is_valid self;
     size_x := size_x self;
     size_y := size_y self;
     buffer := b;
     from_file := from_file self;
     scales := scales self;
     offsets := offsets self;
     data := data self;
     trim := stored_trim self;
     assembled := 1;
     trimmed := if trim =? 1 then 1 else trimmed self;
     asmsize := asmsize_of trim self;
     lineLen := dst_amp_cols trim fp;
     startLine := margin trim (numrows_underscan fp);
     stopLine := dst_amp_rows trim fp;
     num_extensions := num_extensions self;
     focalplane := fp |}.

(** The buffer the copy loops start from (lines 192-244). *)
Definition prepare_buffer (trim : Z) (self : Image px)
  : result (ndarray px) :=
  let? bf :=
    if negb (from_file self =? 1) then
      np_empty (match nd_dtype (data self) with
                | float64 => float64
                | _ => float32
                end) (size_y self) (size_x self)
    else Ok (buffer self) in
  let asz := asmsize_of trim self in
  if (trim =? 1) || negb (nd_size (data self) =? nd_size bf) then
    let? b := np_resize bf (asz.1 * asz.2) in
    np_reshape b asz.2 asz.1
  else Ok bf.

(** [a] is a two-axis array of [r] rows of [c] cells. *)
Definition shape_is (a : ndarray px) (r c : Z) : bool :=
  match a with
  | Arr1 _ _ => false
  | Arr2 _ rows =>
      (Z.of_nat (length rows) =? r)
      && forallb (fun row => Z.of_nat (length row) =? c) rows
  end.

(** [a[line][start : start + len]] of a two-axis array, for indices
    that are not negative. *)
Definition nd_segment (a : ndarray px) (line start len : Z) : list px :=
  match a with
  | Arr1 _ _ => []
  | Arr2 _ rows =>
      match rows !! Z.to_nat line with
      | Some row => take (Z.to_nat len) (drop (Z.to_nat start) row)
      | None => []
      end
  end.

(** [a[line][col]] of a two-axis array, for indices in range. *)
Definition nd_pixel (a : ndarray px) (line col : Z) : option px :=
  match a with
  | Arr1 _ _ => None
  | Arr2 _ rows =>
      match rows !! Z.to_nat line with
      | Some row => row !! Z.to_nat col
      | None => None
      end
  end.

(** A valid image: raw data marked valid; a grid of [nx] by [ny]
    amplifiers with margins that fit in the amplifier; one readout
    entry per grid position, naming an amplifier of the raw data; a
    flip code in 0..3, an offset and a scale per amplifier; every
    amplifier with [numcols_amp * numrows_amp] raw pixels; and, for an
    image read from a file, the buffer that reading left. *)
Definition valid_image (self : Image px) : bool :=
  let fp := focalplane self in
  let nx := num_ser_amps_det fp in
  let ny := num_par_amps_det fp in
  let n := nd_len (data self) in
  truthy (is_valid self)
  && (0 <=? nx) && (0 <=? ny)
  && (numamps_x fp =? nx) && (numamps_y fp =? ny)
  && (0 <=? numcols_underscan fp) && (0 <=? numcols_overscan fp)
  && (0 <=? numrows_underscan fp) && (0 <=? numrows_overscan fp)
  && (numcols_underscan fp + numcols_overscan fp <=? numcols_amp fp)
  && (numrows_underscan fp + numrows_overscan fp <=? numrows_amp fp)
  && (size_x self =? nx * numcols_amp fp)
  && (size_y self =? ny * numrows_amp fp)
  && (Z.of_nat (length (jpg_ext fp)) =? nx * ny)
  && forallb (fun e => (1 <=? e) && (e <=? n)) (jpg_ext fp)
  && (Z.of_nat (length (amp_cfg fp)) =? n)
  && forallb (fun f => (0 <=? f) && (f <=? 3)) (amp_cfg fp)
  && shape_is (data self) n (numcols_amp fp * numrows_amp fp)
  && (Z.of_nat (length (offsets self)) =? n)
  && (Z.of_nat (length (scales self)) =? n)
  && (negb (from_file self =? 1)
      || shape_is (buffer self) (size_y self) (size_x self)).

(** The physical amplifier whose raw data lands at amplifier position
    [j] of parallel group [p]: [Ext[p * nx + j] - 1]. *)
Definition amp_at (self : Image px) (p j : Z) : Z :=
  let fp := focalplane self in
  default 0 (jpg_ext fp !! Z.to_nat (p * num_ser_amps_det fp + j)) - 1.

(** The flip code, the raw pixels, the offset and the scale of a
    physical amplifier. *)
Definition flip_of (self : Image px) (amp : Z) : Z :=
  default 0 (amp_cfg (focalplane self) !! Z.to_nat amp).

Definition raw_of (self : Image px) (amp : Z) : list px :=
  match data self with
  | Arr1 _ _ => []
  | Arr2 _ rows => default [] (rows !! Z.to_nat amp)
  end.

Definition offset_of (self : Image px) (amp : Z) : px :=
  default pzero (offsets self !! Z.to_nat amp).

Definition scale_of (self : Image px) (amp : Z) : px :=
  default pone (scales self !! Z.to_nat amp).

(** The calibration of one raw value of amplifier [amp]. *)
Definition calibrate (self : Image px) (amp : Z) (v : px) : px :=
  pmul (psub v (offset_of self amp)) (scale_of self amp).
End Geometry.

(** ** Orientation of an amplifier

    The source row and the column order that a flip code selects,
    written as the four blocks of the copy loop have them. *)

(** The source row read for the destination row that the counter
    [srcLine] stands at. *)
Definition source_row (srcAmpY prescan2 overscan2 flip srcLine : Z) : Z :=
  if flip =? 2 then srcAmpY - srcLine - overscan2 - 1
  else if flip =? 3 then srcAmpY - srcLine - prescan2 - 1
  else srcLine.

(** Flip codes 1 and 3 reverse the extracted segment. *)
Definition mirrors_columns (flip : Z) : bool := (flip =? 1) || (flip =? 3).

(** ** What the copy is to produce

    Position [(p, i, j)] is row [i] of parallel group [p], at amplifier
    [j] of that group: destination row [p * dstAmpY + i], columns
    [j * dstAmpX] up to [(j + 1) * dstAmpX]. *)

Section Expected.
Context {px : Type} `{!Pixel px}.

(** The raw pixels extracted for position [(p, i, j)]: the segment of
    [dstAmpX] pixels at column [prescan1] of the source row, reversed
    for flip codes 1 and 3. *)
Definition source_segment (trim : Z) (self : Image px) (p i j : Z)
  : list px :=
  let fp := focalplane self in
  let amp := amp_at self p j in
  let flip := flip_of self amp in
  let srcLine := margin trim (numrows_underscan fp) + i in
  let r := source_row (numrows_amp fp)
             (margin trim (numrows_underscan fp))
             (margin trim (numrows_overscan fp)) flip srcLine in
  let posX := r * numcols_amp fp + margin trim (numcols_underscan fp) in
  let seg := py_slice (raw_of self amp) posX (posX + dst_amp_cols trim fp) in
  if mirrors_columns flip then reverse seg else seg.

(** The same pixels, calibrated. *)
Definition expected_segment (trim : Z) (self : Image px) (p i j : Z)
  : list px :=
  calibrate self (amp_at self p j) <$> source_segment trim self p i j.

(** Buffer [b] holds at position [(p, i, j)] what the copy is to
    produce there. *)
Definition segment_done (trim : Z) (self : Image px) (b : ndarray px)
    (p i j : Z) : Prop :=
  let fp := focalplane self in
  nd_segment b (p * dst_amp_rows trim fp + i)
    (j * dst_amp_cols trim fp) (dst_amp_cols trim fp)
  = expected_segment trim self p i j
  /\ Z.of_nat (length (source_segment trim self p i j))
     = dst_amp_cols trim fp.
End Expected.

(** ** Attributes a method never looks at *)

Section Blind.
Context {px : Type} `{!Pixel px}.

(** [m] runs the same whatever [self.trim] holds, and leaves that
    attribute as it found it. *)
Definition trim_blind {A} (m : M (Image px) A) : Prop :=
  forall v s, m (set_trim v s) = ((m s).1, set_trim v (m s).2).
End Blind.

(** ** What a method leaves alone *)

Section Kept.
Context {px : Type}.

(** [s'] has the raw data, the calibration, the geometry and the
    settings of [s]: every attribute that is an input of the assembly. *)
Definition inputs_kept (s s' : Image px) : Prop :=
  is_valid s' = is_valid s
  /\ size_x s' = size_x s
  /\ size_y s' = size_y s
  /\ from_file s' = from_file s
  /\ scales s' = scales s
  /\ offsets s' = offsets s
  /\ data s' = data s
  /\ trim s' = trim s
  /\ num_extensions s' = num_extensions s
  /\ focalplane s' = focalplane s.

(** [s'] has, besides, the two assembly flags of [s]. *)
Definition flags_kept (s s' : Image px) : Prop :=
  inputs_kept s s' /\ assembled s' = assembled s /\ trimmed s' = trimmed s.

(** [s'] has the result of an assembly that [s] has: the buffer, the
    assembled size, the flags, the raw data, the geometry and the
    settings. Only the calibration may differ. *)
Definition assembly_kept (s s' : Image px) : Prop :=
  is_valid s' = is_valid s
  /\ size_x s' = size_x s
  /\ size_y s' = size_y s
  /\ buffer s' = buffer s
  /\ from_file s' = from_file s
  /\ data s' = data s
  /\ trim s' = trim s
  /\ assembled s' = assembled s
  /\ trimmed s' = trimmed s
  /\ asmsize s' = asmsize s
  /\ lineLen s' = lineLen s
  /\ startLine s' = startLine s
  /\ stopLine s' = stopLine s
  /\ focalplane s' = focalplane s.

(** Whatever its outcome, [m] leaves a state related by [R] to the one
    it was run on. *)
Definition keeps (R : Image px -> Image px -> Prop) {A} (m : M (Image px) A)
  : Prop :=
  forall s, R s (m s).2.
End Kept.

(** When [m] raises, the assembly flags are those it found; whatever
    its outcome, the inputs of the assembly are those it found. *)
Definition raises_cleanly {px : Type} {A} (m : M (Image px) A) : Prop :=
  forall s,
    inputs_kept s (m s).2
    /\ forall e, (m s).1 = Raise e -> flags_kept s (m s).2.

(** ** Writing an image to disk

    [write_file] and the methods it calls go through the file system.
    A path, compared as a string, names a folder or a file; a file
    holds the pixels written to it. One program runs at a time. A
    call of [os.remove] may be refused by the system: the list
    [remove_faults] tells so call after call. Creating a file fails
    on a folder and in a folder that does not exist. *)

Inductive io_exn : Type :=
  | Py (e : exn)                        (* raised by [Image] itself *)
  | FileNotFoundError (msg : string)
  | OSError
  | UnboundLocalError.

Inductive outcome (A : Type) : Type :=
  | Returned (a : A)
  | Raised (e : io_exn).
Arguments Returned {A} a.
Arguments Raised {A} e.

(** What [_write_fits_file] returns: [None], or the list
    [["ERROR", s]]. *)
Inductive retval : Type :=
  | RNone
  | RError (s : string).

Inductive entry (px : Type) : Type :=
  | Folder
  | File (content : list px).
Arguments Folder {px}.
Arguments File {px} content.

(** The image object with the attributes the writing methods use, and
    the file system it writes to. *)
Record World (px : Type) : Type := {
  img : Image px;
  filename : string;
  overwrite : Z;
  test_image : Z;
  make_lockfile : Z;
  filetype : Z;
  assemble_image : Z;
  entries : gmap string (entry px);
  remove_faults : list bool
}.
Arguments img {px} _.
Arguments filename {px} _.
Arguments overwrite {px} _.
Arguments test_image {px} _.
Arguments make_lockfile {px} _.
Arguments filetype {px} _.
Arguments assemble_image {px} _.
Arguments entries {px} _.
Arguments remove_faults {px} _.

Definition IO (px A : Type) : Type := World px -> outcome A * World px.

Section IOMonad.
Context {px : Type}.

Definition io_ret {A} (a : A) : IO px A := fun w => (Returned a, w).
Definition io_raise {A} (e : io_exn) : IO px A := fun w => (Raised e, w).
Definition io_bind {A B} (m : IO px A) (k : A -> IO px B) : IO px B :=
  fun w => match m w with
           | (Returned a, w') => k a w'
           | (Raised e, w') => (Raised e, w')
           end.
Definition io_get : IO px (World px) := fun w => (Returned w, w).
Definition io_modify (f : World px -> World px) : IO px unit :=
  fun w => (Returned tt, f w).

(** [try: m] / [except Exception as e: h e] *)
Definition io_try {A} (m : IO px A) (h : io_exn -> IO px A) : IO px A :=
  fun w => match m w with
           | (Returned a, w') => (Returned a, w')
           | (Raised e, w') => h e w'
           end.

Definition set_img (v : Image px) (w : World px) : World px :=
  {| img := v; filename := filename w; overwrite := overwrite w;
     test_image := test_image w; make_lockfile := make_lockfile w;
     filetype := filetype w; assemble_image := assemble_image w;
     entries := entries w; remove_faults := remove_faults w |}.

Definition set_filename (v : string) (w : World px) : World px :=
  {| img := img w; filename := v; overwrite := overwrite w;
     test_image := test_image w; make_lockfile := make_lockfile w;
     filetype := filetype w; assemble_image := assemble_image w;
     entries := entries w; remove_faults := remove_faults w |}.

Definition set_entries (v : gmap string (entry px)) (w : World px)
  : World px :=
  {| img := img w; filename := filename w; overwrite := overwrite w;
     test_image := test_image w; make_lockfile := make_lockfile w;
     filetype := filetype w; assemble_image := assemble_image w;
     entries := v; remove_faults := remove_faults w |}.

Definition set_remove_faults (v : list bool) (w : World px) : World px :=
  {| img := img w; filename := filename w; overwrite := overwrite w;
     test_image := test_image w; make_lockfile := make_lockfile w;
     filetype := filetype w; assemble_image := assemble_image w;
     entries := entries w; remove_faults := v |}.

(** A method of the image, or an assignment to one of its attributes,
    run on [self]. *)
Definition on_image {A} (m : M (Image px) A) : IO px A :=
  fun w => match m (img w) with
           | (Ok a, i) => (Returned a, set_img i w)
           | (Raise e, i) => (Raised (Py e), set_img i w)
           end.

(** [os.path.exists(path)] *)
Definition path_exists (path : string) (w : World px) : bool :=
  bool_decide (is_Some (entries w !! path)).

(** [os.path.isdir(path)] *)
Definition is_folder (path : string) (w : World px) : bool :=
  match entries w !! path with Some Folder => true | _ => false end.

(** [os.remove(path)] *)
Definition os_remove (path : string) : IO px unit :=
  fun w =>
    match entries w !! path with
    | Some (File _) =>
        match remove_faults w with
        | true :: rest => (Raised OSError, set_remove_faults rest w)
        | false :: rest =>
            (Returned tt,
             set_entries (delete path (entries w)) (set_remove_faults rest w))
        | [] => (Returned tt, set_entries (delete path (entries w)) w)
        end
    | _ => (Raised OSError, w)
    end.
End IOMonad.

Notation "x <~ m ;; k" := (io_bind m (fun x => k))
  (at level 100, m at next level, right associativity).
Notation "m ~;; k" := (io_bind m (fun _ => k))
  (at level 100, right associativity).

(** [a or b] *)
Definition py_or (a b : Z) : Z := if truthy a then a else b.

(** [s.replace(old, new)] for a non-empty [old]: the occurrences of
    [old] are replaced from left to right, and the search resumes
    after each one. [skip] counts the characters of an occurrence
    that are still to be passed over. *)
Fixpoint replace_from (old new : string) (skip : nat) (s : string)
  : string :=
  match s with
  | EmptyString => EmptyString
  | String c rest =>
      match skip with
      | S k => replace_from old new k rest
      | O =>
          if String.prefix old s
          then String.append new
                 (replace_from old new (String.length old - 1) rest)
          else String c (replace_from old new 0 rest)
      end
  end.

Definition py_replace (old new s : string) : string :=
  replace_from old new 0 s.

(** [old in s] *)
Fixpoint occurs (old s : string) : bool :=
  String.prefix old s
  || match s with
     | EmptyString => false
     | String _ rest => occurs old rest
     end.

Section SizeSetters.
Context {px : Type}.

(** [self.size_x = v] *)
Definition set_size_x (v : Z) (self : Image px) : Image px :=
  {| is_valid := is_valid self; size_x := v; size_y := size_y self;
     buffer := buffer self; from_file := from_file self;
     scales := scales self; offsets := offsets self; data := data self;
     trim := stored_trim self; assembled := assembled self;
     trimmed := trimmed self; asmsize := asmsize self;
     lineLen := lineLen self; startLine := startLine self;
     stopLine := stopLine self; num_extensions := num_extensions self;
     focalplane := focalplane self |}.

(** [self.size_y = v] *)
Definition set_size_y (v : Z) (self : Image px) : Image px :=
  {| is_valid := is_valid self; size_x := size_x self; size_y := v;
     buffer := buffer self; from_file := from_file self;
     scales := scales self; offsets := offsets self; data := data self;
     trim := stored_trim self; assembled := assembled self;
     trimmed := trimmed self; asmsize := asmsize self;
     lineLen := lineLen self; startLine := startLine self;
     stopLine := stopLine self; num_extensions := num_extensions self;
     focalplane := focalplane self |}.
End SizeSetters.

(** From outside this module: [azcam.utils.make_image_filename],
    [os.path.dirname], [os.path.normpath], [repr] of an exception and
    the cast of a pixel to [uint16]. The three methods that build a
    FITS file with [astropy] are taken as they come. *)
Class Outside (px : Type) : Type := {
  make_image_filename : string -> string;
  dirname : string -> string;
  normpath : string -> string;
  repr : io_exn -> string;
  astype_uint16 : px -> px;
  _write_standardfits_file : string -> IO px unit;
  _write_mef_file : string -> IO px unit;
  _write_asm_fits_file : string -> IO px unit
}.

Section Files.
Context {px : Type} `{!Pixel px} `{!Outside px}.

(** [with open(path, "w") as fd: fd.write(content)] *)
Definition open_w (path : string) (content : list px) : IO px unit :=
  fun w =>
    match entries w !! path with
    | Some Folder => (Raised OSError, w)
    | Some (File _) =>
        (Returned tt, set_entries (<[path := File content]> (entries w)) w)
    | None =>
        if bool_decide (dirname path = EmptyString)
           || is_folder (dirname path) w
        then (Returned tt,
              set_entries (<[path := File content]> (entries w)) w)
        else (Raised (FileNotFoundError path), w)
    end.

(** Lines 840-848: [loop] and [s] when the [while] loop is left.
    [left] bounds the turns of the loop; ten are enough from
    [loop = 0]. *)
Fixpoint remove_previous (left : nat) (filename : string) (loop : Z)
    (s : option string) : IO px (Z * option string) :=
  match left with
  | O => io_ret (loop, s)
  | S left' =>
      if loop <? 10 then
        io_try (os_remove filename ~;; io_ret (loop, s))
          (fun details =>
             let s := String.append "ERROR deleting previous image file: "
                        (repr details) in
             remove_previous left' filename (loop + 1) (Some s))
      else io_ret (loop, s)
  end.

(** Lines 855-866 *)
Definition write_as (filename : string) (ft : Z) : IO px retval :=
  w <~ io_get ;;
  (if truthy (assemble_image w) then on_image (assemble (-1))
   else io_ret tt) ~;;
  (if ft =? 0 then _write_standardfits_file filename
   else if ft =? 1 then _write_mef_file filename
   else if ft =? 6 then _write_asm_fits_file filename
   else io_ret tt) ~;;
  io_ret RNone.

(** [Image._write_fits_file(self, filename, filetype)] *)
Definition _write_fits_file (filename : string) (ft : Z) : IO px retval :=
  w <~ io_get ;;
  let Overwrite := py_or (overwrite w) (test_image w) in
  let fldr := dirname filename in
  let fldr := normpath fldr in
  if negb (String.eqb fldr EmptyString) && negb (path_exists fldr w) then
    let s := String.append "folder "
               (String.append fldr " does not exist") in
    io_raise (FileNotFoundError s)
  else if path_exists filename w then
    if truthy Overwrite then
      r <~ remove_previous 10 filename 0 None ;;
      let '(loop, s) := r in
      if 10 <? loop then
        match s with
        | Some s => io_ret (RError s)
        | None => io_raise UnboundLocalError
        end
      else write_as filename ft
    else
      let s := String.append "ERROR "
                 (String.append filename
                    " exists but Overwrite flag is not set") in
      io_ret (RError s)
  else write_as filename ft.

(** [Image._write_bin_file(self, filename)] *)
Definition _write_bin_file (filename : string) : IO px unit :=
  on_image (self <- get ;;
            modify (set_size_x (numcols_image (focalplane self)))) ~;;
  on_image (self <- get ;;
            modify (set_size_y (numrows_image (focalplane self)))) ~;;
  w <~ io_get ;;
  (if negb (truthy (assembled (img w))) then on_image (assemble 1)
   else io_ret tt) ~;;
  w <~ io_get ;;
  open_w filename (astype_uint16 <$> nd_cells (buffer (img w))).

(** [Image.write_file(self, filename, filetype)] *)
Definition write_file (filename : string) (ft : Z) : IO px unit :=
  let filename := make_image_filename filename in
  io_modify (set_filename filename) ~;;
  w <~ io_get ;;
  (if truthy (overwrite w) && path_exists filename w
   then os_remove filename else io_ret tt) ~;;
  w <~ io_get ;;
  (if truthy (test_image w) && path_exists filename w
   then os_remove filename else io_ret tt) ~;;
  w <~ io_get ;;
  let ft := if ft =? -1 then filetype w else ft in
  (if ft =? 0 then _ <~ _write_fits_file filename 0 ;; io_ret tt
   else if ft =? 1 then _write_mef_file filename
   else if ft =? 2 then _write_bin_file filename
   else if ft =? 6 then _write_asm_fits_file filename
   else io_raise (Py (AzcamError "Invalid filetype for Image"))) ~;;
  w <~ io_get ;;
  if truthy (make_lockfile w) then
    let lockfile := py_replace ".bin" ".OK" filename in
    open_w lockfile []
  else io_ret tt.
End Files.

(** ** A disk for concrete runs *)

(** What precedes the last slash of a relative POSIX path. *)
Fixpoint before_last_slash (s : string) : option string :=
  match s with
  | EmptyString => None
  | String c rest =>
      match before_last_slash rest with
      | Some d => Some (String c d)
      | None => if String.eqb (String c EmptyString) "/" then Some EmptyString else None
      end
  end.

(** Stand-ins for concrete runs: file names taken as they are, POSIX
    folders, pixels cast modulo [2^16], and FITS writers that leave a
    file of one pixel. *)
#[export] Instance Z_Outside : Outside Z := {|
  make_image_filename := fun s => s;
  dirname := fun s => default EmptyString (before_last_slash s);
  normpath := fun s => if String.eqb s EmptyString then "."%string else s;
  repr := fun _ => "OSError()"%string;
  astype_uint16 := fun v => v mod 65536;
  _write_standardfits_file := fun fn =>
    io_modify (fun w => set_entries (<[fn := File [0]]> (entries w)) w);
  _write_mef_file := fun fn =>
    io_modify (fun w => set_entries (<[fn := File [1]]> (entries w)) w);
  _write_asm_fits_file := fun fn =>
    io_modify (fun w => set_entries (<[fn := File [6]]> (entries w)) w)
|}.

Module Disk.

(** The image [self] with its writing flags, on a disk that holds the
    folder [data] and the given files. *)
Definition world (self : Image Z) (ow test lock ft : Z)
    (files : list (string * list Z)) (faults : list bool) : World Z :=
  {| img := self; filename := EmptyString;
     overwrite := ow; test_image := test; make_lockfile := lock;
     filetype := ft; assemble_image := 0;
     entries := <["data"%string := Folder]>
                  (list_to_map (prod_map id File <$> files));
     remove_faults := faults |}.

(** [data/img.fits] exists and may not be overwritten. *)
Definition kept : World Z :=
  world (Scenario.two_amps [0; 1]) 0 0 0 0
    [("data/img.fits"%string, [7; 8])] [].

(** [data/img.fits] exists, may be overwritten, and the system
    refuses the next [n] deletions. *)
Definition refusing (n : nat) : World Z :=
  world (Scenario.two_amps [0; 1]) 1 0 0 0
    [("data/img.fits"%string, [7; 8])] (replicate n true).

(** The same with a file type that does not exist. *)
Definition mistyped : World Z :=
  world (Scenario.two_amps [0; 1]) 1 0 0 5
    [("data/img.fits"%string, [7; 8])] [].

(** An empty folder [data], a lock file asked for, binary output. *)
Definition binary (self : Image Z) : World Z := world self 0 0 1 2 [] [].

(** [data/img.fits] exists and may be overwritten; the image is to be
    assembled before it is written, and is not valid. *)
Definition unready : World Z :=
  {| img := Scenario.invalid; filename := EmptyString;
     overwrite := 1; test_image := 0; make_lockfile := 0;
     filetype := 0; assemble_image := 1;
     entries := <["data"%string := Folder]>
                  (<["data/img.fits"%string := File [7; 8]]> ∅);
     remove_faults := [] |}.
End Disk.

(** * Properties *)

(** ** Running a computation to its normal return *)

Section MonadFacts.
Context {S : Type}.

Lemma bind_ok {A B} (m : M S A) (k : A -> M S B) s b s' :
  bind m k s = (Ok b, s') ->
  exists a s1, m s = (Ok a, s1) /\ k a s1 = (Ok b, s').
Proof.
  unfold bind. destruct (m s) as [[a|e] s1]; [eauto | discriminate].
Qed.

Lemma bind_run {A B} (m : M S A) (k : A -> M S B) s a s1 :
  m s = (Ok a, s1) -> bind m k s = k a s1.
Proof. unfold bind. intros ->. reflexivity. Qed.

Lemma bind_raise {A B} (m : M S A) (k : A -> M S B) s e s1 :
  m s = (Raise e, s1) -> bind m k s = (Raise e, s1).
Proof. unfold bind. intros ->. reflexivity. Qed.

Lemma lift_ok {A} (r : result A) (s : S) a s' :
  lift r s = (Ok a, s') -> r = Ok a /\ s' = s.
Proof. unfold lift. intros [= -> ->]. auto. Qed.

Lemma modify_ok (f : S -> S) s u s' :
  modify f s = (Ok u, s') -> s' = f s.
Proof. unfold modify. intros [= ?]. congruence. Qed.

Lemma get_ok (s : S) a s' : get s = (Ok a, s') -> a = s /\ s' = s.
Proof. unfold get. intros [= <- <-]. auto. Qed.

Lemma ret_ok {A} (x : A) (s : S) a s' :
  ret x s = (Ok a, s') -> a = x /\ s' = s.
Proof. unfold ret. intros [= <- <-]. auto. Qed.

(** A loop over [range(a, a + n)] that returns normally establishes
    an invariant its body maintains. *)
Lemma for_each_range_ok {A} (I : Z -> A -> S -> Prop)
    (body : Z -> A -> M S A) (n : nat) :
  forall (a : Z) acc s r s',
    I a acc s ->
    (forall k acc s acc' s',
        a <= k < a + Z.of_nat n -> I k acc s ->
        body k acc s = (Ok acc', s') -> I (k + 1) acc' s') ->
    for_each (seqZ a (Z.of_nat n)) body acc s = (Ok r, s') ->
    I (a + Z.of_nat n) r s'.
Proof.
  induction n as [|n IH]; intros a acc s r s' Hi Hstep Hrun.
  - cbn in Hrun. apply ret_ok in Hrun as [-> ->].
    replace (a + Z.of_nat 0) with a by lia. exact Hi.
  - rewrite seqZ_cons in Hrun by lia. cbn [for_each] in Hrun.
    apply bind_ok in Hrun as (acc1 & s1 & Hb & Hrun).
    replace (Z.pred (Z.of_nat (Datatypes.S n))) with (Z.of_nat n) in Hrun by lia.
    replace (a + Z.of_nat (Datatypes.S n)) with (Z.succ a + Z.of_nat n) by lia.
    eapply IH; [| |exact Hrun].
    + replace (Z.succ a) with (a + 1) by lia.
      eapply Hstep; [|exact Hi|exact Hb]. lia.
    + intros k acc2 s2 acc3 s3 Hk. apply Hstep. lia.
Qed.

Lemma for_each_range {A} (I : Z -> A -> S -> Prop)
    (body : Z -> A -> M S A) (a b : Z) acc s r s' :
  I a acc s ->
  (forall k acc s acc' s',
      a <= k < b -> I k acc s ->
      body k acc s = (Ok acc', s') -> I (k + 1) acc' s') ->
  for_each (range a b) body acc s = (Ok r, s') ->
  I (Z.max a b) r s'.
Proof.
  intros Hi Hstep Hrun. unfold range in Hrun.
  destruct (Z.le_gt_cases a b) as [Hab|Hab].
  - replace (b - a) with (Z.of_nat (Z.to_nat (b - a))) in Hrun by lia.
    replace (Z.max a b) with (a + Z.of_nat (Z.to_nat (b - a))) by lia.
    eapply for_each_range_ok; [exact Hi| |exact Hrun].
    intros k ? ? ? ? Hk. apply Hstep. lia.
  - replace (seqZ a (b - a)) with (@nil Z) in Hrun
      by (unfold seqZ; replace (Z.to_nat (b - a)) with 0%nat by lia; reflexivity).
    apply ret_ok in Hrun as [-> ->].
    replace (Z.max a b) with a by lia. exact Hi.
Qed.
End MonadFacts.

Ltac inv_run :=
  repeat match goal with
    | H : bind _ _ _ = (Ok _, _) |- _ =>
        apply bind_ok in H; destruct H as (? & ? & ? & H)
    | H : get _ = (Ok _, _) |- _ => apply get_ok in H; destruct H as [-> ->]
    | H : modify _ _ = (Ok _, _) |- _ => apply modify_ok in H; subst
    | H : lift _ _ = (Ok _, _) |- _ => apply lift_ok in H; destruct H as [H ->]
    | H : ret _ _ = (Ok _, _) |- _ => apply ret_ok in H; destruct H as [-> ->]
    end.

(** ** The phases of [assemble] *)

Section Phases.
Context {px : Type} `{!Pixel px}.
Implicit Types self s : Image px.

Lemma fresh_buffer_ok self s1 u :
  fresh_buffer self = (Ok u, s1) ->
  exists b,
    s1 = set_buffer b
           (set_asmsize (numcols_image (focalplane self),
                         numrows_image (focalplane self)) self)
    /\ (if negb (from_file self =? 1)
        then np_empty (match nd_dtype (data self) with
                       | float64 => float64
                       | _ => float32
                       end) (size_y self) (size_x self)
        else Ok (buffer self)) = Ok b.
Proof.
  unfold fresh_buffer. intros H0. inv_run.
  destruct (negb _); inv_run; eexists; split; try reflexivity; auto.
Qed.

Lemma resize_buffer_ok n s s' u :
  resize_buffer n s = (Ok u, s') ->
  exists b1 b2, np_resize (buffer s) n = Ok b1
    /\ np_reshape b1 (asmsize s).2 (asmsize s).1 = Ok b2
    /\ s' = set_buffer b2 s.
Proof. unfold resize_buffer. intros H0. inv_run. eauto. Qed.

Lemma reshape_buffer_ok s s' u :
  reshape_buffer s = (Ok u, s') ->
  exists b, np_reshape (buffer s) (asmsize s).2 (asmsize s).1 = Ok b
    /\ s' = set_buffer b s.
Proof. unfold reshape_buffer. intros H0. inv_run. eauto. Qed.

Lemma trim_margins_ok trim s s' m :
  trim_margins trim s = (Ok m, s') ->
  let fp := focalplane s in
  m = (margin trim (numcols_underscan fp), margin trim (numcols_overscan fp),
       margin trim (numrows_underscan fp), margin trim (numrows_overscan fp))
  /\ exists b,
      s' = set_buffer b (set_asmsize (asmsize_of trim s) s)
      /\ (let asz := asmsize_of trim s in
          if (trim =? 1) || negb (nd_size (data s) =? nd_size (buffer s))
          then let? b1 := np_resize (buffer s) (asz.1 * asz.2) in
               np_reshape b1 asz.2 asz.1
          else Ok (buffer s)) = Ok b.
Proof.
  unfold trim_margins, asmsize_of, margin. intros H0. inv_run.
  destruct (trim =? 1); cbn [orb]; inv_run.
  - apply resize_buffer_ok in H1 as (b1 & b2 & Hr & Hs & ->).
    split; [reflexivity|]. exists b2. split; [reflexivity|].
    cbn in *. rewrite Hr. exact Hs.
  - split; [reflexivity|].
    destruct (negb (nd_size (data s) =? nd_size (buffer s))); inv_run.
    + apply resize_buffer_ok in H1 as (b1 & b2 & Hr & Hs & ->).
      exists b2. split; [reflexivity|]. cbn in *. rewrite Hr. exact Hs.
    + exists (buffer s). split; reflexivity.
Qed.

(** What a call that gets past the two guards and returns has done. *)
Lemma assemble_ok trim self self' :
  truthy (is_valid self) = true ->
  truthy (assembled self) = false ->
  assemble trim self = (Ok tt, self') ->
  exists b0 b1 b2,
    prepare_buffer trim self = Ok b0
    /\ copy_of trim self b0 = (Ok tt, b1)
    /\ np_reshape b1 (asmsize_of trim self).2 (asmsize_of trim self).1
       = Ok b2
    /\ self' = assembled_state trim self b2.
Proof.
  intros Hv Ha. unfold assemble. intros H0.
  apply bind_ok in H0 as (s0 & ? & Hg & H0). apply get_ok in Hg as [-> ->].
  rewrite Hv, Ha in H0. cbn [negb] in H0.
  apply bind_ok in H0 as (? & s1 & Hf & H0).
  apply fresh_buffer_ok in Hf as (bf & -> & Hbf).
  apply bind_ok in H0 as (m & s2 & Ht & H0).
  apply trim_margins_ok in Ht as (-> & b0 & -> & Hb0). cbn in Hb0.
  apply bind_ok in H0 as (? & ? & Hm & H0). apply modify_ok in Hm as ->.
  apply bind_ok in H0 as (? & ? & Hm & H0). apply modify_ok in Hm as ->.
  apply bind_ok in H0 as (? & ? & Hm & H0). apply modify_ok in Hm as ->.
  apply bind_ok in H0 as (u & s3 & Hc & H0).
  unfold on_buffer in Hc. cbn [buffer set_buffer set_lineLen set_startLine
    set_stopLine set_asmsize] in Hc.
  match type of Hc with
  | (let (_, _) := ?m b0 in _) = _ => destruct (m b0) as [r b1] eqn:Hcopy
  end.
  injection Hc as -> <-.
  apply bind_ok in H0 as (? & s4 & Hr & H0).
  apply reshape_buffer_ok in Hr as (b2 & Hre & ->). cbn in Hre.
  apply bind_ok in H0 as (? & ? & Hm & H0). apply modify_ok in Hm as ->.
  exists b0, b1, b2. repeat split.
  - unfold prepare_buffer. rewrite Hbf. cbn. exact Hb0.
  - destruct u. exact Hcopy.
  - exact Hre.
  - destruct (trim =? 1) eqn:Ht.
    + apply modify_ok in H0 as ->.
      unfold assembled_state, asmsize_of, dst_amp_cols, dst_amp_rows, margin.
      rewrite Ht. reflexivity.
    + apply ret_ok in H0 as [_ ->].
      unfold assembled_state, asmsize_of, dst_amp_cols, dst_amp_rows, margin.
      rewrite Ht. reflexivity.
Qed.
End Phases.

(** ** The two guards of [assemble] *)

Section Guards.
Context {px : Type} `{!Pixel px}.
Implicit Types self s : Image px.

Lemma assemble_invalid trim self :
  truthy (is_valid self) = false ->
  assemble trim self = (Raise (AzcamError "image is not valid"), self).
Proof.
  intros Hv. unfold assemble, bind, get, raise. rewrite Hv. reflexivity.
Qed.

Lemma assemble_noop trim self :
  truthy (is_valid self) = true ->
  truthy (assembled self) = true ->
  assemble trim self = (Ok tt, self).
Proof.
  intros Hv Ha. unfold assemble, bind, get, ret. rewrite Hv, Ha. reflexivity.
Qed.

(** A call that returns leaves a valid, assembled image. *)
Lemma assemble_ok_flags trim self self' :
  assemble trim self = (Ok tt, self') ->
  truthy (is_valid self') = true /\ truthy (assembled self') = true.
Proof.
  intros Hrun.
  destruct (truthy (is_valid self)) eqn:Hv.
  - destruct (truthy (assembled self)) eqn:Ha.
    + rewrite assemble_noop in Hrun by assumption.
      injection Hrun as <-. auto.
    + apply assemble_ok in Hrun as (b0 & b1 & b2 & _ & _ & _ & ->);
        [|assumption..].
      split; [exact Hv|reflexivity].
  - rewrite assemble_invalid in Hrun by assumption. discriminate.
Qed.
End Guards.

(** ** [assemble] and the stored trim preference *)

Section TrimBlind.
Context {px : Type} `{!Pixel px}.

Lemma tb_bind {A B} (m : M (Image px) A) (k : A -> M (Image px) B) :
  trim_blind m -> (forall a, trim_blind (k a)) -> trim_blind (bind m k).
Proof.
  intros Hm Hk v s. unfold bind. rewrite Hm.
  destruct (m s) as [[a|e] s1]; cbn; [apply Hk | reflexivity].
Qed.

Lemma tb_get {B} (k : Image px -> M (Image px) B) :
  (forall s0, trim_blind (k s0)) ->
  (forall v s0, k (set_trim v s0) = k s0) ->
  trim_blind (bind get k).
Proof. intros Hk Hi v s. unfold bind, get. rewrite Hi. apply Hk. Qed.

Lemma tb_ret {A} (a : A) : trim_blind (ret a : M (Image px) A).
Proof. intros v s. reflexivity. Qed.

Lemma tb_raise {A} e : trim_blind (raise e : M (Image px) A).
Proof. intros v s. reflexivity. Qed.

Lemma tb_lift {A} (r : result A) : trim_blind (lift r : M (Image px) A).
Proof. intros v s. reflexivity. Qed.

Lemma tb_modify (f : Image px -> Image px) :
  (forall v s, f (set_trim v s) = set_trim v (f s)) -> trim_blind (modify f).
Proof. intros Hf v s. unfold modify. cbn. rewrite Hf. reflexivity. Qed.

Lemma tb_on_buffer {A} (m : M (ndarray px) A) : trim_blind (on_buffer m).
Proof.
  intros v s. unfold on_buffer. cbn. destruct (m (buffer s)); reflexivity.
Qed.

Ltac tb_mod := apply tb_modify; intros; reflexivity.

Lemma tb_resize n : trim_blind (resize_buffer n).
Proof.
  unfold resize_buffer. apply tb_get; [intros s0|intros; reflexivity].
  apply tb_bind; [apply tb_lift|intros b].
  apply tb_bind; [tb_mod|intros _].
  apply tb_bind; [apply tb_lift|intros b2]. tb_mod.
Qed.

Lemma tb_reshape : trim_blind (@reshape_buffer px).
Proof.
  unfold reshape_buffer. apply tb_get; [intros s0|intros; reflexivity].
  apply tb_bind; [apply tb_lift|intros b]. tb_mod.
Qed.

Lemma tb_fresh : trim_blind fresh_buffer.
Proof.
  unfold fresh_buffer. apply tb_get; [intros s0|intros; reflexivity].
  apply tb_bind; [tb_mod|intros _].
  destruct (negb _); [|apply tb_ret].
  apply tb_bind; [apply tb_lift|intros b]. tb_mod.
Qed.

Lemma tb_margins t : trim_blind (trim_margins t).
Proof.
  unfold trim_margins. apply tb_get; [intros s0|intros; reflexivity].
  destruct (t =? 1).
  - apply tb_bind; [tb_mod|intros _].
    apply tb_bind; [apply tb_resize|intros _]. apply tb_ret.
  - apply tb_bind; [tb_mod|intros _].
    apply tb_bind; [|intros _; apply tb_ret].
    destruct (negb _); [apply tb_resize|apply tb_ret].
Qed.

Lemma assemble_trim_blind t : trim_blind (assemble t).
Proof.
  unfold assemble. apply tb_get; [intros s0|intros; reflexivity].
  destruct (negb _); [apply tb_raise|].
  destruct (truthy (assembled s0)); [apply tb_ret|].
  apply tb_bind; [apply tb_fresh|intros _].
  apply tb_bind; [apply tb_margins|intros [[[p1 o1] p2] o2]].
  apply tb_bind; [tb_mod|intros _].
  apply tb_bind; [tb_mod|intros _].
  apply tb_bind; [tb_mod|intros _].
  apply tb_bind; [apply tb_on_buffer|intros _].
  apply tb_bind; [apply tb_reshape|intros _].
  apply tb_bind; [tb_mod|intros _].
  destruct (t =? 1); [tb_mod|apply tb_ret].
Qed.
End TrimBlind.

(** ** The guards, the flags and the stored preference *)

Section StateClaims.
Context {px : Type} `{!Pixel px}.
Implicit Types self : Image px.

(** C6. On an image whose raw data is not marked valid, [assemble]
    raises [AzcamError("image is not valid")] before it does anything
    else: the image it leaves is the image it found, with its buffer,
    its assembled size and its flags; in particular [assembled] is not
    set by the call. *)
Theorem assemble_invalid_raises (trim : Z) self :
  truthy (is_valid self) = false ->
  assemble trim self = (Raise (AzcamError "image is not valid"), self)
  /\ (assembled self = 0 -> assembled (assemble trim self).2 = 0).
Proof.
  intros Hv. rewrite assemble_invalid by exact Hv. auto.
Qed.

(** C5. Once a call to [assemble] has returned, a further call, with
    any trim argument and after any change of the scales and offsets,
    returns at once and leaves the image, buffer, assembled size and
    flags included, as it is. *)
Theorem assemble_twice_is_noop (trim trim' : Z) self self'
    (sc off : list px) :
  assemble trim self = (Ok tt, self') ->
  assemble trim' self' = (Ok tt, self')
  /\ assemble trim' (set_scales sc (set_offsets off self'))
     = (Ok tt, set_scales sc (set_offsets off self')).
Proof.
  intros Hrun. apply assemble_ok_flags in Hrun as [Hv Ha].
  split; apply assemble_noop; assumption.
Qed.

(** C9. A call with the sentinel [trim = -1] never reads the stored
    preference [self.trim]: whatever is stored, the call runs as the
    untrimmed call [assemble(0)] does. When it returns from an image
    not yet assembled, the margins were zero, the assembled size is
    the full raw size and [trimmed] is as it was. *)
Theorem assemble_sentinel_is_untrimmed (stored : Z) self :
  assemble (-1) (set_trim stored self)
  = ((assemble 0 self).1, set_trim stored (assemble 0 self).2)
  /\ forall self',
      truthy (is_valid self) = true ->
      truthy (assembled self) = false ->
      assemble (-1) (set_trim stored self) = (Ok tt, self') ->
      asmsize self' = (size_x self, size_y self)
      /\ lineLen self' = numcols_amp (focalplane self)
      /\ startLine self' = 0
      /\ stopLine self' = numrows_amp (focalplane self)
      /\ trimmed self' = trimmed self.
Proof.
  split.
  - rewrite (assemble_trim_blind (-1) stored self). reflexivity.
  - intros self' Hv Ha Hrun.
    apply assemble_ok in Hrun as (b0 & b1 & b2 & _ & _ & _ & ->);
      [|assumption..].
    cbn. unfold dst_amp_cols, dst_amp_rows, margin. cbn.
    repeat split; lia.
Qed.
End StateClaims.

Lemma assemble_invalid_raises_witness :
  truthy (is_valid Scenario.invalid) = false
  /\ assemble 1 Scenario.invalid
     = (Raise (AzcamError "image is not valid"), Scenario.invalid)
  /\ (assembled Scenario.invalid = 0 ->
      assembled (assemble 1 Scenario.invalid).2 = 0).
Proof.
  split; [reflexivity|].
  apply (assemble_invalid_raises 1 Scenario.invalid). reflexivity.
Defined.

Lemma assemble_twice_is_noop_witness :
  let first := assemble 1 (Scenario.two_amps [0; 1]) in
  first.1 = Ok tt
  /\ assemble 0 first.2 = (Ok tt, first.2)
  /\ assemble 0 (set_scales [5; 5] (set_offsets [7; 7] first.2))
     = (Ok tt, set_scales [5; 5] (set_offsets [7; 7] first.2)).
Proof.
  split; [vm_compute; reflexivity|].
  apply (assemble_twice_is_noop 1 0 (Scenario.two_amps [0; 1])).
  vm_compute. reflexivity.
Defined.

Lemma assemble_sentinel_is_untrimmed_witness :
  let self := Scenario.two_amps [0; 1] in
  exists self',
    truthy (is_valid self) = true
    /\ truthy (assembled self) = false
    /\ assemble (-1) (set_trim 1 self) = (Ok tt, self')
    /\ asmsize self' = (10, 3)
    /\ trimmed self' = 0.
Proof.
  intros self. eexists.
  split; [reflexivity|]. split; [reflexivity|].
  assert (Hrun : assemble (-1) (set_trim 1 self) = (Ok tt, ?[s']))
    by (vm_compute; reflexivity).
  split; [exact Hrun|].
  destruct (assemble_sentinel_is_untrimmed 1 self) as [_ Hs].
  destruct (Hs _ eq_refl eq_refl Hrun) as (Ha & _ & _ & _ & Ht).
  split; [exact Ha|exact Ht].
Defined.

(** C10, at an image that was assembled with trimming and then had its
    [assembled] flag cleared by a new read: the untrimmed call returns,
    records the untrimmed size, and leaves [trimmed] set. *)
Theorem untrimmed_assemble_keeps_trimmed_flag :
  trimmed Scenario.reread = 1
  /\ (assemble 0 Scenario.reread).1 = Ok tt
  /\ asmsize (assemble 0 Scenario.reread).2 = (10, 3)
  /\ assembled (assemble 0 Scenario.reread).2 = 1
  /\ trimmed (assemble 0 Scenario.reread).2 = 1.
Proof. vm_compute. repeat split; reflexivity. Qed.

(** C7 fails at an image whose first amplifier has flip code 7:
    [assemble] returns and marks the image assembled. *)
Lemma invalid_flip_code_is_accepted :
  (assemble 1 Scenario.bad_flip).1 = Ok tt
  /\ assembled (assemble 1 Scenario.bad_flip).2 = 1.
Proof. vm_compute. split; reflexivity. Qed.

(** ** Python and numpy primitives within bounds *)

Section Primitives.
Context {px : Type} `{!Pixel px}.

Lemma py_getitem_nonneg {A} (l : list A) (i : Z) :
  0 <= i -> py_getitem l i =
            match l !! Z.to_nat i with Some x => Ok x | None => Raise IndexError end.
Proof.
  intros Hi. unfold py_getitem.
  destruct (i <? 0) eqn:E; [lia|]. rewrite E. reflexivity.
Qed.

Lemma py_getitem_lookup {A} (l : list A) (i : Z) x :
  0 <= i -> l !! Z.to_nat i = Some x -> py_getitem l i = Ok x.
Proof. intros Hi Hl. rewrite py_getitem_nonneg, Hl by lia. reflexivity. Qed.

Lemma py_getitem_ok_nonneg {A} (l : list A) (i : Z) x :
  0 <= i -> py_getitem l i = Ok x -> l !! Z.to_nat i = Some x.
Proof.
  intros Hi. rewrite py_getitem_nonneg by lia.
  destruct (l !! Z.to_nat i); [congruence|discriminate].
Qed.

Lemma slice_bound_in (n i : Z) : 0 <= i <= n -> slice_bound n i = i.
Proof.
  intros Hi. unfold slice_bound. destruct (i <? 0) eqn:E; lia.
Qed.

Lemma py_slice_in {A} (l : list A) (s w : Z) :
  0 <= s -> 0 <= w -> s + w <= Z.of_nat (length l) ->
  py_slice l s (s + w) = take (Z.to_nat w) (drop (Z.to_nat s) l).
Proof.
  intros Hs Hw Hl. unfold py_slice.
  rewrite !slice_bound_in by lia. f_equal. lia.
Qed.

Lemma py_slice_in_length {A} (l : list A) (s w : Z) :
  0 <= s -> 0 <= w -> s + w <= Z.of_nat (length l) ->
  length (py_slice l s (s + w)) = Z.to_nat w.
Proof.
  intros Hs Hw Hl. rewrite py_slice_in by lia.
  rewrite length_take, length_drop. lia.
Qed.

Lemma py_slice_elem {A} (l : list A) (s e : Z) x :
  x ∈ py_slice l s e -> x ∈ l.
Proof.
  unfold py_slice. intros Hx.
  apply elem_of_take in Hx as (i & Hx & _).
  rewrite lookup_drop in Hx. eapply list_elem_of_lookup_2, Hx.
Qed.

(** A slice assignment within the row replaces exactly the slice. *)
Lemma np_setslice_in (row : list px) (s w : Z) rhs row' :
  0 <= s -> 0 <= w -> s + w <= Z.of_nat (length row) ->
  np_setslice row s (s + w) rhs = Ok row' ->
  exists seg,
    row' = take (Z.to_nat s) row ++ seg ++ drop (Z.to_nat (s + w)) row
    /\ length seg = Z.to_nat w
    /\ (seg = rhs \/ exists x, rhs = [x] /\ seg = replicate (Z.to_nat w) x).
Proof.
  intros Hs Hw Hl. unfold np_setslice.
  rewrite !slice_bound_in by lia.
  replace (Z.to_nat (s + w - s)) with (Z.to_nat w) by lia.
  replace (Z.to_nat s + Z.to_nat w)%nat with (Z.to_nat (s + w)) by lia.
  destruct (decide (length rhs = Z.to_nat w)) as [Hlen|Hlen].
  - intros [= <-]. exists rhs. auto.
  - destruct rhs as [|x [|? ?]]; try discriminate.
    intros [= <-]. exists (replicate (Z.to_nat w) x).
    rewrite length_replicate. split; [reflexivity|]. split; [reflexivity|].
    right. exists x. auto.
Qed.
End Primitives.

(** ** One pass of the copy loop body *)

Section CopyStep.
Context {px : Type} `{!Pixel px}.
Variables (Ext AmpFlip : list Z) (Data : ndarray px).
Variables (Offsets Scales : list px).
Variables (prescan1 prescan2 overscan2 : Z).
Variables (dstAmpX srcAmpX srcAmpY lineLen : Z).

Local Abbreviation posX f srcLine :=
  (source_row srcAmpY prescan2 overscan2 f srcLine * srcAmpX + prescan1).
Local Abbreviation rhs_of indx f srcLine :=
  (calibrated Data Offsets Scales dstAmpX indx (posX f srcLine)
     (mirrors_columns f)).
Local Abbreviation copy_ext' :=
  (copy_ext Ext AmpFlip Data Offsets Scales prescan1 prescan2 overscan2
     dstAmpX srcAmpX srcAmpY lineLen).

Lemma copy_if_true indx pos rv line ls b ls' b' :
  copy_if Data Offsets Scales dstAmpX lineLen true indx pos rv line ls b
  = (Ok ls', b') ->
  exists rhs,
    calibrated Data Offsets Scales dstAmpX indx pos rv = Ok rhs
    /\ np_setrow_slice b line ls (ls + dstAmpX) rhs = Ok b'
    /\ ls' = ls + lineLen.
Proof.
  unfold copy_if. intros H0.
  apply bind_ok in H0 as (rhs & ? & Hr & H0). apply lift_ok in Hr as [Hr ->].
  apply bind_ok in H0 as (? & b1 & Hs & H0). apply ret_ok in H0 as [-> ->].
  unfold store_line in Hs.
  destruct (np_setrow_slice b line ls (ls + dstAmpX) rhs) eqn:E;
    [|discriminate].
  simplify_eq. exists rhs. auto.
Qed.

Lemma copy_if_false indx pos rv line ls b :
  copy_if Data Offsets Scales dstAmpX lineLen false indx pos rv line ls b
  = (Ok ls, b).
Proof. reflexivity. Qed.

(** A flip code outside 0..3 selects none of the four blocks. *)
Lemma copy_ext_skip line srcLine currExt ls b e f :
  py_getitem Ext currExt = Ok e ->
  py_getitem AmpFlip (e - 1) = Ok f ->
  ~ 0 <= f <= 3 ->
  copy_ext' line srcLine currExt ls b = (Ok ls, b).
Proof.
  intros He Hf Hout. unfold copy_ext, bind, lift. rewrite He, Hf.
  replace (f =? 0) with false by lia. replace (f =? 1) with false by lia.
  replace (f =? 2) with false by lia. replace (f =? 3) with false by lia.
  reflexivity.
Qed.

(** What one pass of the body that returns has done. *)
Lemma copy_ext_ok line srcLine currExt ls b ls' b' :
  copy_ext' line srcLine currExt ls b = (Ok ls', b') ->
  exists e f,
    py_getitem Ext currExt = Ok e
    /\ py_getitem AmpFlip (e - 1) = Ok f
    /\ ((0 <= f <= 3
         /\ exists rhs,
             rhs_of (e - 1) f srcLine = Ok rhs
             /\ np_setrow_slice b line ls (ls + dstAmpX) rhs = Ok b'
             /\ ls' = ls + lineLen)
        \/ (~ 0 <= f <= 3 /\ ls' = ls /\ b' = b)).
Proof.
  intros H0.
  destruct (py_getitem Ext currExt) as [e|] eqn:He;
    [|unfold copy_ext, bind, lift in H0; rewrite He in H0; discriminate].
  destruct (py_getitem AmpFlip (e - 1)) as [f|] eqn:Hf;
    [|unfold copy_ext, bind, lift in H0; rewrite He, Hf in H0; discriminate].
  exists e, f. split; [reflexivity|]. split; [exact Hf|].
  destruct (decide (0 <= f <= 3)) as [Hin|Hout].
  - left. split; [exact Hin|].
    unfold copy_ext, bind, lift in H0. rewrite He, Hf in H0.
    unfold source_row, mirrors_columns.
    assert (f = 0 \/ f = 1 \/ f = 2 \/ f = 3)
      as [ -> | [ -> | [ -> | -> ] ] ] by lia;
      cbn [Z.eqb Pos.eqb orb] in *;
      repeat (rewrite copy_if_false in H0);
      match type of H0 with
      | context [copy_if ?a ?b ?c ?d ?e true ?i ?p ?r ?l ?s ?bb] =>
          destruct (copy_if a b c d e true i p r l s bb)
            as [[l0|] b0] eqn:E; [|discriminate]
      end;
      repeat (rewrite copy_if_false in H0);
      unfold ret in H0; simplify_eq;
      apply copy_if_true in E; exact E.
  - right. split; [exact Hout|].
    rewrite (copy_ext_skip _ _ _ _ _ e f) in H0 by assumption.
    simplify_eq. auto.
Qed.
End CopyStep.

(** ** Valid images *)

Section Valid.
Context {px : Type} `{!Pixel px}.
Implicit Types self : Image px.

Lemma shape_is_spec (a : ndarray px) r c :
  shape_is a r c = true <->
  exists dt rows, a = Arr2 dt rows /\ Z.of_nat (length rows) = r
    /\ Forall (fun row => Z.of_nat (length row) = c) rows.
Proof.
  destruct a as [dt cells|dt rows]; cbn.
  - split; [discriminate|]. intros (? & ? & ? & _). discriminate.
  - rewrite andb_true_iff, Z.eqb_eq, forallb_forall.
    split.
    + intros [Hr Hc]. exists dt, rows. split; [reflexivity|]. split; [exact Hr|].
      apply Forall_forall. intros x Hx. apply Z.eqb_eq, Hc, list_elem_of_In, Hx.
    + intros (? & ? & [= <- <-] & Hr & Hc). split; [exact Hr|].
      intros x Hx. rewrite Forall_forall in Hc.
      apply Z.eqb_eq, Hc, list_elem_of_In, Hx.
Qed.

Lemma margin_bounds trim m : 0 <= m -> 0 <= margin trim m <= m.
Proof. intros Hm. unfold margin. destruct (trim =? 1); lia. Qed.

(** The geometry of a valid image. *)
Lemma valid_geometry trim self :
  valid_image self = true ->
  let fp := focalplane self in
  truthy (is_valid self) = true
  /\ 0 <= num_ser_amps_det fp /\ 0 <= num_par_amps_det fp
  /\ numamps_x fp = num_ser_amps_det fp
  /\ numamps_y fp = num_par_amps_det fp
  /\ 0 <= numcols_underscan fp /\ 0 <= numcols_overscan fp
  /\ 0 <= numrows_underscan fp /\ 0 <= numrows_overscan fp
  /\ numcols_underscan fp + numcols_overscan fp <= numcols_amp fp
  /\ numrows_underscan fp + numrows_overscan fp <= numrows_amp fp
  /\ size_x self = num_ser_amps_det fp * numcols_amp fp
  /\ size_y self = num_par_amps_det fp * numrows_amp fp
  /\ 0 <= dst_amp_cols trim fp /\ 0 <= dst_amp_rows trim fp
  /\ asmsize_of trim self
     = (num_ser_amps_det fp * dst_amp_cols trim fp,
        num_par_amps_det fp * dst_amp_rows trim fp).
Proof.
  unfold valid_image. rewrite !andb_true_iff.
  rewrite !Z.leb_le, !Z.eqb_eq.
  intros H0. cbn zeta.
  destruct H0 as [[[[[[[[[[[[[[[[[[[[Hv ?] ?] ?] ?] ?] ?] ?] ?] ?] ?] ?] ?] _] _] _] _] _] _] _] _].
  pose proof (margin_bounds trim (numcols_underscan (focalplane self))).
  pose proof (margin_bounds trim (numcols_overscan (focalplane self))).
  pose proof (margin_bounds trim (numrows_underscan (focalplane self))).
  pose proof (margin_bounds trim (numrows_overscan (focalplane self))).
  unfold dst_amp_cols, dst_amp_rows.
  repeat (split; [first [assumption|lia]|]).
  unfold asmsize_of, margin. destruct (trim =? 1); f_equal; nia.
Qed.

(** The amplifier that a position of the grid names, in a valid
    image. *)
Lemma valid_amp self p j :
  valid_image self = true ->
  let fp := focalplane self in
  0 <= p < num_par_amps_det fp -> 0 <= j < num_ser_amps_det fp ->
  let amp := amp_at self p j in
  0 <= amp
  /\ py_getitem (jpg_ext fp) (p * num_ser_amps_det fp + j) = Ok (amp + 1)
  /\ py_getitem (amp_cfg fp) amp = Ok (flip_of self amp)
  /\ 0 <= flip_of self amp <= 3
  /\ (exists dt rows, data self = Arr2 dt rows
        /\ rows !! Z.to_nat amp = Some (raw_of self amp))
  /\ Z.of_nat (length (raw_of self amp)) = numcols_amp fp * numrows_amp fp
  /\ py_getitem (offsets self) amp = Ok (offset_of self amp)
  /\ py_getitem (scales self) amp = Ok (scale_of self amp).
Proof.
  intros H0 fp Hp Hj. unfold valid_image in H0. cbn zeta in H0.
  fold fp in H0. rewrite !andb_true_iff in H0.
  rewrite !Z.leb_le, !Z.eqb_eq, !forallb_forall in H0.
  destruct H0 as [[[[[[[[[[[[[[[[[[[[_ Hnx] Hny] _] _] _] _] _] _] _] _] _] _]
    Hlen] Hext] Hcfg] Hflip] Hdata] Hoff] Hsc] _].
  apply shape_is_spec in Hdata as (ddt & drows & Hd & Hdr & Hdc).
  rewrite Hd in *. cbn [nd_len] in *.
  set (k := p * num_ser_amps_det fp + j).
  assert (Hk : 0 <= k < Z.of_nat (length (jpg_ext fp))) by (subst k; nia).
  destruct (lookup_lt_is_Some_2 (jpg_ext fp) (Z.to_nat k)) as [e He]; [lia|].
  assert (Hamp : amp_at self p j = e - 1).
  { unfold amp_at. fold fp. fold k. rewrite He. reflexivity. }
  rewrite Hamp. cbn zeta.
  assert (He' : 1 <= e <= Z.of_nat (length drows)).
  { specialize (Hext e (proj1 (list_elem_of_In _ _) (list_elem_of_lookup_2 _ _ _ He))).
    apply andb_true_iff in Hext as [? ?]. lia. }
  destruct (lookup_lt_is_Some_2 (amp_cfg fp) (Z.to_nat (e - 1))) as [f Hf]; [lia|].
  destruct (lookup_lt_is_Some_2 drows (Z.to_nat (e - 1))) as [row Hrow]; [lia|].
  destruct (lookup_lt_is_Some_2 (offsets self) (Z.to_nat (e - 1))) as [off Ho]; [lia|].
  destruct (lookup_lt_is_Some_2 (scales self) (Z.to_nat (e - 1))) as [sc Hs]; [lia|].
  assert (Hfl : flip_of self (e - 1) = f) by (unfold flip_of; fold fp; rewrite Hf; reflexivity).
  assert (Hraw : raw_of self (e - 1) = row) by (unfold raw_of; rewrite Hd, Hrow; reflexivity).
  assert (Hof : offset_of self (e - 1) = off) by (unfold offset_of; rewrite Ho; reflexivity).
  assert (Hsf : scale_of self (e - 1) = sc) by (unfold scale_of; rewrite Hs; reflexivity).
  rewrite Hfl, Hraw, Hof, Hsf.
  split; [lia|].
  split; [replace (e - 1 + 1) with e by lia; apply py_getitem_lookup; [lia|exact He]|].
  split; [apply py_getitem_lookup; [lia|exact Hf]|].
  split.
  { specialize (Hflip f (proj1 (list_elem_of_In _ _) (list_elem_of_lookup_2 _ _ _ Hf))).
    apply andb_true_iff in Hflip as [? ?]. lia. }
  split; [exists ddt, drows; split; [reflexivity|exact Hrow]|].
  split.
  { rewrite Forall_forall in Hdc. apply Hdc. eapply list_elem_of_lookup_2, Hrow. }
  split; apply py_getitem_lookup; first [lia|assumption].
Qed.
End Valid.

(** ** The window of a raw row *)

Section SourceWindow.
Context {px : Type} `{!Pixel px}.
Implicit Types self : Image px.

(** The slice of one raw row of [X - pre - over] pixels at column
    [pre] of row [r], as Python cuts it: the whole window when the
    row index is not negative; the window of a row counted from the
    end, or nothing, when it is. *)
Lemma py_slice_window {A} (l : list A) (X Y pre over r : Z) :
  Z.of_nat (length l) = X * Y ->
  0 <= pre -> 0 <= over -> pre + over <= X -> - Y <= r < Y ->
  let s := r * X + pre in
  let w := X - pre - over in
  (0 <= r -> Z.of_nat (length (py_slice l s (s + w))) = w)
  /\ (Z.of_nat (length (py_slice l s (s + w))) = w
      \/ length (py_slice l s (s + w)) = 0%nat).
Proof.
  intros Hl Hpre Hover HX Hr s w.
  assert (Hpos : 0 <= r ->
                 Z.of_nat (length (py_slice l s (s + w))) = w).
  { intros Hr0. rewrite py_slice_in_length; subst s w; nia. }
  split; [exact Hpos|].
  destruct (Z.le_gt_cases 0 r) as [Hr0|Hr0]; [left; auto|].
  assert (r * X <= - X) by nia.
  assert (0 <= (r + Y) * X) by nia.
  unfold py_slice, slice_bound. rewrite length_take, length_drop.
  subst s w.
  destruct (r * X + pre <? 0) eqn:E1;
    destruct (r * X + pre + (X - pre - over) <? 0) eqn:E2; lia.
Qed.
End SourceWindow.

(** ** The copy loops on a valid image *)

Section CopyValid.
Context {px : Type} `{!Pixel px}.
Variables (trim : Z) (self : Image px).
Hypothesis Hvalid : valid_image self = true.

Local Abbreviation fp := (focalplane self).
Local Abbreviation nx := (num_ser_amps_det (focalplane self)).
Local Abbreviation ny := (num_par_amps_det (focalplane self)).
Local Abbreviation W := (dst_amp_cols trim (focalplane self)).
Local Abbreviation H := (dst_amp_rows trim (focalplane self)).
Local Abbreviation pre1 := (margin trim (numcols_underscan (focalplane self))).
Local Abbreviation pre2 := (margin trim (numrows_underscan (focalplane self))).
Local Abbreviation over2 := (margin trim (numrows_overscan (focalplane self))).
Local Abbreviation copy_ext' :=
  (copy_ext (jpg_ext fp) (amp_cfg fp) (data self) (offsets self)
     (scales self) pre1 pre2 over2 W (numcols_amp fp) (numrows_amp fp) W).

(** The extracted segment has the width of the destination, or is
    empty when flip code 3 reaches past the first raw row. *)
Lemma source_segment_length p i j :
  0 <= p < ny -> 0 <= j < nx -> 0 <= i < H ->
  (Z.of_nat (length (source_segment trim self p i j)) = W
   \/ length (source_segment trim self p i j) = 0%nat)
  /\ (flip_of self (amp_at self p j) <> 3 ->
      Z.of_nat (length (source_segment trim self p i j)) = W).
Proof.
  intros Hp Hj Hi.
  destruct (valid_geometry trim self Hvalid)
    as (_ & _ & _ & _ & _ & Huc & Hoc & Hur & Hor & Hc & Hr & _ & _ & HW & HH & _).
  destruct (valid_amp self p j Hvalid Hp Hj)
    as (_ & _ & _ & Hf & _ & Hlen & _ & _).
  pose proof (margin_bounds trim _ Huc). pose proof (margin_bounds trim _ Hoc).
  pose proof (margin_bounds trim _ Hur). pose proof (margin_bounds trim _ Hor).
  unfold source_segment.
  set (f := flip_of self (amp_at self p j)) in *.
  set (r := source_row _ _ _ f _).
  assert (Hr' : - numrows_amp fp <= r < numrows_amp fp /\ (f <> 3 -> 0 <= r)).
  { subst r. unfold source_row, dst_amp_rows in *.
    destruct (f =? 2) eqn:E2; [lia|]. destruct (f =? 3) eqn:E3; lia. }
  destruct Hr' as [Hr' Hr0].
  destruct (py_slice_window (raw_of self (amp_at self p j))
              (numcols_amp fp) (numrows_amp fp) pre1
              (margin trim (numcols_overscan fp)) r) as [Hin Hany];
    [assumption|lia|lia|lia|lia|].
  cbn zeta in Hin, Hany. fold W in Hin, Hany.
  assert (Hlenrev : forall l : list px,
             length (if mirrors_columns f then reverse l else l) = length l).
  { intros l. destruct (mirrors_columns f); [apply length_reverse|reflexivity]. }
  rewrite Hlenrev. split; [exact Hany|]. intros Hne. apply Hin. auto.
Qed.

(** The right-hand side computed for a position is the expected
    segment. *)
Lemma calibrated_valid p i j :
  0 <= p < ny -> 0 <= j < nx ->
  let amp := amp_at self p j in
  let f := flip_of self amp in
  calibrated (data self) (offsets self) (scales self) W amp
    (source_row (numrows_amp fp) pre2 over2 f (pre2 + i) * numcols_amp fp
     + pre1) (mirrors_columns f)
  = Ok (expected_segment trim self p i j).
Proof.
  intros Hp Hj amp f.
  destruct (valid_amp self p j Hvalid Hp Hj)
    as (Hamp & _ & _ & _ & (ddt & drows & Hd & Hrow) & _ & Hoff & Hsc).
  fold amp in Hamp, Hrow, Hoff, Hsc.
  unfold calibrated, np_row_slice. rewrite Hd.
  rewrite (py_getitem_lookup drows amp _ Hamp Hrow). cbn [rbind].
  rewrite Hoff, Hsc. cbn [rbind].
  reflexivity.
Qed.

(** One pass of the body at position [(p, i, j)] writes the expected
    segment into row [p * H + i] and nothing else. *)
Lemma copy_ext_valid p i j bdt rows brow ls' b' :
  0 <= p < ny -> 0 <= i < H -> 0 <= j < nx ->
  rows !! Z.to_nat (p * H + i) = Some brow ->
  Z.of_nat (length brow) = nx * W ->
  copy_ext' (p * H + i) (pre2 + i) (p * nx + j) (j * W) (Arr2 bdt rows)
  = (Ok ls', b') ->
  ls' = (j + 1) * W
  /\ Z.of_nat (length (source_segment trim self p i j)) = W
  /\ exists new,
      b' = Arr2 bdt (<[Z.to_nat (p * H + i) := new]> rows)
      /\ length new = length brow
      /\ take (Z.to_nat W) (drop (Z.to_nat (j * W)) new)
         = expected_segment trim self p i j
      /\ forall s : nat,
          (s + Z.to_nat W <= Z.to_nat (j * W))%nat ->
          take (Z.to_nat W) (drop s new) = take (Z.to_nat W) (drop s brow).
Proof.
  intros Hp Hi Hj Hrow Hlen Hrun.
  destruct (valid_geometry trim self Hvalid)
    as (_ & _ & _ & _ & _ & _ & _ & _ & _ & _ & _ & _ & _ & HW & HH & _).
  destruct (valid_amp self p j Hvalid Hp Hj)
    as (Hamp & He & Hf & Hfr & _).
  destruct (source_segment_length p i j Hp Hj Hi) as [Hsrc _].
  apply copy_ext_ok in Hrun as (e & f & He' & Hf' & Hcase).
  rewrite He in He'. injection He' as <-.
  replace (amp_at self p j + 1 - 1) with (amp_at self p j) in * by lia.
  rewrite Hf in Hf'. injection Hf' as <-.
  destruct Hcase as [(_ & rhs & Hrhs & Hset & ->)|(Hout & _)]; [|lia].
  rewrite (calibrated_valid p i j Hp Hj) in Hrhs. injection Hrhs as <-.
  unfold np_setrow_slice in Hset.
  assert (Hline : 0 <= p * H + i) by nia.
  rewrite (py_getitem_lookup rows _ _ Hline Hrow) in Hset. cbn [rbind] in Hset.
  destruct (np_setslice brow (j * W) (j * W + W)
              (expected_segment trim self p i j)) as [row'|] eqn:Hss;
    [|discriminate].
  cbn [rbind] in Hset.
  replace (p * H + i <? 0) with false in Hset by lia.
  injection Hset as <-.
  apply np_setslice_in in Hss as (seg & -> & Hseg & Hrhs); [|nia..].
  assert (Hexp : length (expected_segment trim self p i j)
                 = length (source_segment trim self p i j))
    by (unfold expected_segment; apply length_fmap).
  assert (Hseg' : seg = expected_segment trim self p i j
                  /\ Z.of_nat (length (source_segment trim self p i j)) = W).
  { destruct Hrhs as [->|(x & Hx & ->)].
    - split; [reflexivity|]. rewrite <- Hexp, Hseg. lia.
    - rewrite Hx in Hexp. cbn in Hexp.
      assert (W = 1) by lia.
      split; [|lia]. rewrite Hx. replace (Z.to_nat W) with 1%nat by lia.
      reflexivity. }
  destruct Hseg' as [-> HsrcW].
  split; [lia|]. split; [exact HsrcW|].
  eexists. split; [reflexivity|].
  assert (Hjw : (Z.to_nat (j * W) <= length brow)%nat) by nia.
  assert (Hjw' : (Z.to_nat (j * W + W) <= length brow)%nat) by nia.
  split; [|split].
  - rewrite !length_app, length_take, length_drop, Hseg. lia.
  - rewrite drop_app_length' by (rewrite length_take; lia).
    rewrite take_app_length' by lia. reflexivity.
  - intros s Hs.
    rewrite drop_app_le by (rewrite length_take; lia).
    rewrite take_app_le by (rewrite length_drop, length_take; lia).
    rewrite (take_drop_commute (take _ _)), (take_drop_commute brow).
    rewrite take_take. f_equal. f_equal. lia.
Qed.

Local Abbreviation copy_line' :=
  (copy_line (jpg_ext fp) (amp_cfg fp) (data self) (offsets self)
     (scales self) pre1 pre2 over2 W (numcols_amp fp) (numrows_amp fp) W nx).

(** The loop over the amplifiers of a group fills row [p * H + i]
    and touches no other row. *)
Lemma copy_line_valid p i bdt rows0 brow0 sl' b' :
  0 <= p < ny -> 0 <= i < H ->
  rows0 !! Z.to_nat (p * H + i) = Some brow0 ->
  Z.of_nat (length brow0) = nx * W ->
  copy_line' (p * nx) (p * H + i) (pre2 + i) (Arr2 bdt rows0) = (Ok sl', b') ->
  sl' = pre2 + i + 1
  /\ exists rows brow,
      b' = Arr2 bdt rows
      /\ length rows = length rows0
      /\ (forall n, n <> Z.to_nat (p * H + i) -> rows !! n = rows0 !! n)
      /\ rows !! Z.to_nat (p * H + i) = Some brow
      /\ Z.of_nat (length brow) = nx * W
      /\ forall j, 0 <= j < nx -> segment_done trim self b' p i j.
Proof.
  intros Hp Hi Hrow0 Hlen0 Hrun.
  destruct (valid_geometry trim self Hvalid)
    as (_ & Hnx & _ & _ & _ & _ & _ & _ & _ & _ & _ & _ & _ & HW & HH & _).
  unfold copy_line in Hrun.
  apply bind_ok in Hrun as (ls & b1 & Hloop & Hret).
  apply ret_ok in Hret as [-> ->]. split; [reflexivity|].
  apply (for_each_range
           (fun k ls s =>
              ls = (k - p * nx) * W
              /\ exists rows brow,
                  s = Arr2 bdt rows
                  /\ length rows = length rows0
                  /\ (forall n, n <> Z.to_nat (p * H + i) ->
                                rows !! n = rows0 !! n)
                  /\ rows !! Z.to_nat (p * H + i) = Some brow
                  /\ Z.of_nat (length brow) = nx * W
                  /\ forall j, 0 <= j < k - p * nx ->
                       take (Z.to_nat W) (drop (Z.to_nat (j * W)) brow)
                       = expected_segment trim self p i j
                       /\ Z.of_nat (length (source_segment trim self p i j))
                          = W)) in Hloop.
  - replace (Z.max (p * nx) (p * nx + nx)) with (p * nx + nx) in Hloop by lia.
    destruct Hloop as (_ & rows & brow & -> & Hl & Hfr & Hrow & Hlen & Hseg).
    exists rows, brow. repeat (split; [first [reflexivity|assumption]|]).
    intros j Hj. unfold segment_done, nd_segment. cbn zeta. rewrite Hrow.
    apply Hseg. lia.
  - split; [lia|]. exists rows0, brow0.
    repeat (split; [first [reflexivity|assumption]|]).
    intros j Hj. lia.
  - intros k ls0 s ls1 s1 Hk (-> & rows & brow & -> & Hl & Hfr & Hrow & Hlen & Hseg)
      Hstep.
    set (j := k - p * nx) in *.
    replace k with (p * nx + j) in Hstep by (subst j; lia).
    apply (copy_ext_valid p i j bdt rows brow) in Hstep
      as (-> & Hsrc & new & -> & Hnew & Hdone & Hold);
      [|first [assumption|lia]..].
    split; [subst j; lia|].
    exists (<[Z.to_nat (p * H + i) := new]> rows), new.
    split; [reflexivity|].
    split; [rewrite length_insert; exact Hl|].
    split; [intros n Hn; rewrite list_lookup_insert_ne by congruence;
            apply Hfr, Hn|].
    split; [apply list_lookup_insert_eq; eapply lookup_lt_Some, Hrow|].
    split; [lia|].
    intros j' Hj'.
    destruct (decide (j' = j)) as [->|Hne]; [auto|].
    destruct (Hseg j') as [Hs1 Hs2]; [lia|].
    split; [|exact Hs2].
    rewrite Hold by nia. exact Hs1.
Qed.

Lemma segment_done_frame d d' (rows rows' : list (list px)) p i j :
  rows' !! Z.to_nat (p * H + i) = rows !! Z.to_nat (p * H + i) ->
  segment_done trim self (Arr2 d rows) p i j ->
  segment_done trim self (Arr2 d' rows') p i j.
Proof.
  unfold segment_done, nd_segment. cbn zeta. intros ->. auto.
Qed.

Local Abbreviation copy_group' :=
  (copy_group (jpg_ext fp) (amp_cfg fp) (data self) (offsets self)
     (scales self) pre1 pre2 over2 W H (numcols_amp fp) (numrows_amp fp)
     W nx).

(** The loop over the rows of group [p] fills the rows of the group
    and touches no other row. *)
Lemma copy_group_valid p bdt rows0 u b' :
  0 <= p < ny ->
  Z.of_nat (length rows0) = ny * H ->
  (forall n row, rows0 !! n = Some row -> Z.of_nat (length row) = nx * W) ->
  copy_group' p tt (Arr2 bdt rows0) = (Ok u, b') ->
  exists rows,
    b' = Arr2 bdt rows
    /\ Z.of_nat (length rows) = ny * H
    /\ (forall n row, rows !! n = Some row ->
                      Z.of_nat (length row) = nx * W)
    /\ (forall n : nat, Z.of_nat n < p * H \/ p * H + H <= Z.of_nat n ->
                        rows !! n = rows0 !! n)
    /\ forall i j, 0 <= i < H -> 0 <= j < nx ->
                   segment_done trim self b' p i j.
Proof.
  intros Hp Hl0 Hc0 Hrun.
  destruct (valid_geometry trim self Hvalid)
    as (_ & Hnx & _ & _ & _ & _ & _ & _ & _ & _ & _ & _ & _ & HW & HH & _).
  unfold copy_group in Hrun.
  apply bind_ok in Hrun as (sl & b1 & Hloop & Hret).
  apply ret_ok in Hret as [-> ->].
  apply (for_each_range
           (fun line sl s =>
              sl = pre2 + (line - p * H)
              /\ exists rows,
                  s = Arr2 bdt rows
                  /\ Z.of_nat (length rows) = ny * H
                  /\ (forall n row, rows !! n = Some row ->
                                    Z.of_nat (length row) = nx * W)
                  /\ (forall n : nat,
                         Z.of_nat n < p * H \/ line <= Z.of_nat n ->
                         rows !! n = rows0 !! n)
                  /\ forall i j, 0 <= i < line - p * H -> 0 <= j < nx ->
                                 segment_done trim self s p i j)) in Hloop.
  - replace (Z.max (p * H) (p * H + H)) with (p * H + H) in Hloop by lia.
    destruct Hloop as (_ & rows & -> & Hl & Hc & Hfr & Hseg).
    exists rows. repeat (split; [first [reflexivity|assumption]|]).
    intros i j Hi Hj. apply Hseg; lia.
  - split; [lia|]. exists rows0.
    repeat (split; [first [reflexivity|assumption]|]).
    intros i j Hi. lia.
  - intros line sl0 s sl1 s1 Hline (-> & rows & -> & Hl & Hc & Hfr & Hseg) Hstep.
    set (i := line - p * H) in *.
    replace line with (p * H + i) in Hstep by (subst i; lia).
    assert (Hin : (Z.to_nat (p * H + i) < length rows)%nat) by nia.
    destruct (lookup_lt_is_Some_2 _ _ Hin) as [brow Hbrow].
    apply (copy_line_valid p i bdt rows brow) in Hstep
      as (-> & rows' & brow' & -> & Hl' & Hfr' & Hrow' & Hlen' & Hdone);
      [|first [assumption|lia|eapply Hc, Hbrow]..].
    split; [subst i; lia|].
    exists rows'. split; [reflexivity|].
    split; [lia|].
    split.
    { intros n row Hn.
      destruct (decide (n = Z.to_nat (p * H + i))) as [->|Hne].
      - rewrite Hrow' in Hn. injection Hn as <-. exact Hlen'.
      - rewrite Hfr' in Hn by exact Hne. eapply Hc, Hn. }
    split.
    { intros n Hn. rewrite Hfr' by (subst i; lia). apply Hfr. lia. }
    intros i' j Hi' Hj.
    destruct (decide (i' = i)) as [->|Hne]; [apply Hdone, Hj|].
    eapply segment_done_frame; [|apply Hseg; [lia|exact Hj]].
    apply Hfr'. nia.
Qed.

Local Abbreviation copy_amplifiers' :=
  (copy_amplifiers (jpg_ext fp) (amp_cfg fp) (data self) (offsets self)
     (scales self) pre1 pre2 over2 W H (numcols_amp fp) (numrows_amp fp)
     W nx ny).

(** The copy loops, run on a buffer of the assembled shape, keep the
    shape and fill every position. *)
Lemma copy_amplifiers_valid bdt rows0 b' :
  Z.of_nat (length rows0) = ny * H ->
  (forall n row, rows0 !! n = Some row -> Z.of_nat (length row) = nx * W) ->
  copy_amplifiers' (Arr2 bdt rows0) = (Ok tt, b') ->
  exists rows,
    b' = Arr2 bdt rows
    /\ Z.of_nat (length rows) = ny * H
    /\ (forall n row, rows !! n = Some row ->
                      Z.of_nat (length row) = nx * W)
    /\ forall p i j, 0 <= p < ny -> 0 <= i < H -> 0 <= j < nx ->
                     segment_done trim self b' p i j.
Proof.
  intros Hl0 Hc0 Hrun.
  destruct (valid_geometry trim self Hvalid)
    as (_ & Hnx & Hny & _ & _ & _ & _ & _ & _ & _ & _ & _ & _ & HW & HH & _).
  unfold copy_amplifiers in Hrun.
  apply (for_each_range
           (fun p (_ : unit) s =>
              exists rows,
                s = Arr2 bdt rows
                /\ Z.of_nat (length rows) = ny * H
                /\ (forall n row, rows !! n = Some row ->
                                  Z.of_nat (length row) = nx * W)
                /\ forall p' i j, 0 <= p' < p -> 0 <= i < H -> 0 <= j < nx ->
                                  segment_done trim self s p' i j)) in Hrun.
  - replace (Z.max 0 ny) with ny in Hrun by lia. exact Hrun.
  - exists rows0. repeat (split; [first [reflexivity|assumption]|]).
    intros p' i j Hp'. lia.
  - intros p [] s [] s1 Hp (rows & -> & Hl & Hc & Hseg) Hstep.
    apply (copy_group_valid p bdt rows) in Hstep
      as (rows' & -> & Hl' & Hc' & Hfr' & Hdone); [|assumption..].
    exists rows'. repeat (split; [first [reflexivity|assumption]|]).
    intros p' i j Hp' Hi Hj.
    destruct (decide (p' = p)) as [->|Hne]; [apply Hdone; assumption|].
    eapply segment_done_frame; [|apply Hseg; [lia|assumption..]].
    apply Hfr'. left. nia.
Qed.
End CopyValid.

(** ** Shapes of numpy arrays *)

Section Shapes.
Context {px : Type} `{!Pixel px}.

Lemma np_empty_shape dt r c (b : ndarray px) :
  np_empty dt r c = Ok b -> shape_is b r c = true /\ nd_dtype b = dt.
Proof.
  unfold np_empty. destruct ((r <? 0) || (c <? 0)) eqn:E; [discriminate|].
  apply orb_false_iff in E as [Hr Hc]. intros [= <-].
  split; [|reflexivity].
  apply shape_is_spec. eexists _, _. split; [reflexivity|].
  split; [rewrite length_fmap, length_seqZ; lia|].
  apply Forall_fmap, Forall_forall. intros i _. cbn.
  rewrite length_fmap, length_seqZ. lia.
Qed.

Lemma length_concat_replicate {A} (k : nat) (l : list A) :
  length (concat (replicate k l)) = (k * length l)%nat.
Proof.
  induction k as [|k IH]; [reflexivity|].
  cbn. rewrite length_app, IH. lia.
Qed.

(** [numpy.resize] gives an array of exactly the size asked for. *)
Lemma np_resize_size (a b : ndarray px) n :
  np_resize a n = Ok b ->
  0 <= n /\ nd_size b = n /\ nd_dtype b = nd_dtype a.
Proof.
  unfold np_resize. destruct (n <? 0) eqn:En; [discriminate|].
  destruct ((_ =? 0) || (n =? 0)) eqn:E; intros [= <-];
    (split; [lia|]); (split; [|reflexivity]); unfold nd_size; cbn.
  - rewrite length_replicate. lia.
  - apply orb_false_iff in E as [Hs Hn].
    rewrite length_take, length_concat_replicate.
    set (size := Z.of_nat (length (nd_cells a))) in *.
    assert (Hsize : 0 < size) by lia.
    pose proof (Z.div_mod (- n) size ltac:(lia)) as Hdm.
    pose proof (Z.mod_pos_bound (- n) size Hsize) as Hmod.
    assert (Hq : n <= size * - (- n / size)) by lia.
    assert (Hq0 : 0 <= - (- n / size)) by nia.
    nia.
Qed.

Lemma chunk_shape (cells : list px) r c :
  0 <= r -> 0 <= c -> Z.of_nat (length cells) = r * c ->
  Z.of_nat (length (chunk cells r c)) = r
  /\ Forall (fun row => Z.of_nat (length row) = c) (chunk cells r c).
Proof.
  intros Hr Hc Hl. unfold chunk. split.
  - rewrite length_fmap, length_seq. lia.
  - apply Forall_fmap, Forall_forall. intros i Hi. cbn.
    apply elem_of_seq in Hi. rewrite length_take, length_drop. nia.
Qed.

(** A reshape to dimensions that are not negative gives these
    dimensions, and needs an array of as many cells. *)
Lemma np_reshape_shape (a b : ndarray px) r c :
  0 <= r -> 0 <= c -> np_reshape a r c = Ok b ->
  shape_is b r c = true /\ nd_size a = r * c /\ nd_dtype b = nd_dtype a.
Proof.
  intros Hr Hc. unfold np_reshape.
  replace (r <? 0) with false by lia. replace (c <? 0) with false by lia.
  cbn [andb]. destruct (r * c =? _) eqn:E; [|discriminate].
  intros [= <-]. apply Z.eqb_eq in E.
  destruct (chunk_shape (nd_cells a) r c Hr Hc) as [H1 H2]; [lia|].
  split; [|split; [unfold nd_size; lia|reflexivity]].
  apply shape_is_spec. eauto.
Qed.

Lemma chunk_concat (rows : list (list px)) c :
  0 <= c ->
  Forall (fun row => Z.of_nat (length row) = c) rows ->
  chunk (concat rows) (Z.of_nat (length rows)) c = rows
  /\ Z.of_nat (length (concat rows)) = Z.of_nat (length rows) * c.
Proof.
  intros Hc. unfold chunk. rewrite Nat2Z.id.
  induction 1 as [|row rows Hrow Hrows [IH1 IH2]]; [split; reflexivity|].
  split.
  - cbn [length seq fmap list_fmap concat]. f_equal.
    + change (0 * Z.to_nat c)%nat with 0%nat. rewrite drop_0.
      rewrite take_app_length' by lia. reflexivity.
    + rewrite <- fmap_S_seq, <- list_fmap_compose.
      rewrite <- IH1 at 2. apply list_fmap_ext. intros _ i _. cbn.
      f_equal. rewrite drop_app_ge by lia. f_equal. lia.
  - cbn [concat length]. rewrite length_app. lia.
Qed.

(** A reshape to the shape the array has changes nothing. *)
Lemma np_reshape_id (a : ndarray px) r c :
  0 <= c -> shape_is a r c = true -> np_reshape a r c = Ok a.
Proof.
  intros Hc Ha. apply shape_is_spec in Ha as (dt & rows & -> & Hr & Hrows).
  destruct (chunk_concat rows c Hc Hrows) as [Hch Hl].
  unfold np_reshape. cbn [nd_cells nd_dtype].
  replace (r <? 0) with false by lia. replace (c <? 0) with false by lia.
  cbn [andb]. replace (r * c =? _) with true by lia.
  rewrite <- Hr, Hch. reflexivity.
Qed.
End Shapes.

(** ** A call on a valid image *)

Section AssembleValid.
Context {px : Type} `{!Pixel px}.
Implicit Types self : Image px.

Lemma valid_buffer self :
  valid_image self = true ->
  (from_file self =? 1) = true ->
  shape_is (buffer self) (size_y self) (size_x self) = true.
Proof.
  unfold valid_image. intros H0 Hf.
  apply andb_true_iff in H0 as [_ H0]. rewrite Hf in H0. exact H0.
Qed.

(** The copy loops start from a buffer of the assembled shape. *)
Lemma prepare_buffer_shape trim self b0 :
  valid_image self = true ->
  prepare_buffer trim self = Ok b0 ->
  let fp := focalplane self in
  shape_is b0 (num_par_amps_det fp * dst_amp_rows trim fp)
    (num_ser_amps_det fp * dst_amp_cols trim fp) = true.
Proof.
  intros Hvalid Hprep fp.
  destruct (valid_geometry trim self Hvalid)
    as (_ & Hnx & Hny & _ & _ & _ & _ & _ & _ & _ & _ & Hsx & Hsy & HW & HH & Hasz).
  fold fp in Hnx, Hny, Hsx, Hsy, HW, HH, Hasz.
  unfold prepare_buffer in Hprep. rewrite Hasz in Hprep. cbn [fst snd] in Hprep.
  assert (Hbf : exists bf,
             (if negb (from_file self =? 1)
              then np_empty (match nd_dtype (data self) with
                             | float64 => float64
                             | _ => float32
                             end) (size_y self) (size_x self)
              else Ok (buffer self)) = Ok bf
             /\ shape_is bf (size_y self) (size_x self) = true).
  { destruct (from_file self =? 1) eqn:Hf; cbn [negb] in *.
    - exists (buffer self). split; [reflexivity|].
      apply valid_buffer; assumption.
    - destruct (np_empty _ (size_y self) (size_x self)) as [bf|] eqn:He;
        [|discriminate].
      exists bf. split; [reflexivity|]. apply (np_empty_shape _ _ _ _ He). }
  destruct Hbf as (bf & Hbf & Hshape). rewrite Hbf in Hprep. cbn [rbind] in Hprep.
  destruct ((trim =? 1) || _) eqn:Hcase.
  - destruct (np_resize bf _) as [b|] eqn:Hr; [|discriminate].
    cbn [rbind] in Hprep.
    apply np_reshape_shape in Hprep as [Hs _]; [exact Hs|nia..].
  - injection Hprep as <-.
    apply orb_false_iff in Hcase as [Ht _].
    unfold dst_amp_rows, dst_amp_cols, margin in *. rewrite Ht in *.
    rewrite !Z.sub_0_r. fold fp in Hshape. rewrite <- Hsx, <- Hsy. exact Hshape.
Qed.

(** What a call that returns has done to a valid image not yet
    assembled: the flags, the size, a buffer of the assembled shape,
    and every position filled. *)
Lemma assemble_valid trim self self' :
  valid_image self = true ->
  truthy (assembled self) = false ->
  assemble trim self = (Ok tt, self') ->
  let fp := focalplane self in
  self' = assembled_state trim self (buffer self')
  /\ shape_is (buffer self') (num_par_amps_det fp * dst_amp_rows trim fp)
       (num_ser_amps_det fp * dst_amp_cols trim fp) = true
  /\ forall p i j,
      0 <= p < num_par_amps_det fp ->
      0 <= i < dst_amp_rows trim fp ->
      0 <= j < num_ser_amps_det fp ->
      segment_done trim self (buffer self') p i j.
Proof.
  intros Hvalid Ha Hrun fp.
  destruct (valid_geometry trim self Hvalid)
    as (Hv & Hnx & Hny & _ & _ & _ & _ & _ & _ & _ & _ & _ & _ & HW & HH & Hasz).
  fold fp in Hnx, Hny, HW, HH, Hasz.
  apply assemble_ok in Hrun as (b0 & b1 & b2 & Hprep & Hcopy & Hre & ->);
    [|assumption..].
  cbn [buffer assembled_state].
  apply prepare_buffer_shape in Hprep; [|assumption]. fold fp in Hprep.
  apply shape_is_spec in Hprep as (bdt & rows0 & -> & Hl0 & Hc0).
  apply (copy_amplifiers_valid trim self Hvalid bdt rows0) in Hcopy
    as (rows & -> & Hl & Hc & Hdone);
    [|exact Hl0|intros n row Hn; rewrite Forall_forall in Hc0;
                eapply Hc0, list_elem_of_lookup_2, Hn].
  assert (Hshape : shape_is (Arr2 bdt rows) (num_par_amps_det fp * dst_amp_rows trim fp)
                     (num_ser_amps_det fp * dst_amp_cols trim fp) = true).
  { apply shape_is_spec. exists bdt, rows. split; [reflexivity|].
    split; [exact Hl|]. apply Forall_forall. intros row Hrow.
    apply list_elem_of_lookup_1 in Hrow as [n Hn]. eapply Hc, Hn. }
  rewrite Hasz in Hre. cbn [fst snd] in Hre.
  rewrite np_reshape_id in Hre by (first [nia|exact Hshape]).
  injection Hre as <-.
  split; [reflexivity|]. split; [exact Hshape|exact Hdone].
Qed.
End AssembleValid.

(** ** Cells of a slice *)

Section SliceCells.
Context {A : Type}.

(** Cell [k] of a slice that has its full width is the element that
    Python indexing finds at [s + k], also when the slice starts at
    a negative index. *)
Lemma py_slice_lookup (l : list A) (s w k : Z) x :
  0 < w ->
  Z.of_nat (length (py_slice l s (s + w))) = w ->
  0 <= k < w ->
  py_slice l s (s + w) !! Z.to_nat k = Some x ->
  py_getitem l (s + k) = Ok x.
Proof.
  intros Hw Hlen Hk Hx. unfold py_slice in Hlen, Hx.
  rewrite length_take, length_drop in Hlen.
  apply lookup_take_Some in Hx as [Hx _]. rewrite lookup_drop in Hx.
  unfold py_getitem. unfold slice_bound in *.
  destruct (s <? 0) eqn:Es; destruct (s + w <? 0) eqn:Ee;
    destruct (s + k <? 0) eqn:Ek; try lia.
  - replace (s + k + Z.of_nat (length l) <? 0) with false by lia.
    replace (Z.to_nat (s + k + Z.of_nat (length l)))
      with (Z.to_nat (Z.max 0 (s + Z.of_nat (length l))) + Z.to_nat k)%nat
      by lia.
    rewrite Hx. reflexivity.
  - replace (s + k <? 0) with false by lia.
    replace (Z.to_nat (s + k))
      with (Z.to_nat (Z.min s (Z.of_nat (length l))) + Z.to_nat k)%nat by lia.
    rewrite Hx. reflexivity.
Qed.
End SliceCells.

(** ** Size, shape and contents of the assembled buffer *)

Section AssemblyClaims.
Context {px : Type} `{!Pixel px}.
Implicit Types self : Image px.

(** C4. After a call that returns on a valid image not yet assembled,
    the recorded size is [(ampGridX * dstAmpCols, ampGridY *
    dstAmpRows)], where the destination extent of an amplifier is its
    raw extent less both margins when trimming is requested and its
    raw extent otherwise, and the buffer has [asmsize[1]] rows of
    [asmsize[0]] cells. *)
Theorem assembled_size_and_shape trim self self' :
  valid_image self = true ->
  truthy (assembled self) = false ->
  assemble trim self = (Ok tt, self') ->
  let fp := focalplane self in
  let dstAmpCols :=
    if trim =? 1
    then numcols_amp fp - numcols_underscan fp - numcols_overscan fp
    else numcols_amp fp in
  let dstAmpRows :=
    if trim =? 1
    then numrows_amp fp - numrows_underscan fp - numrows_overscan fp
    else numrows_amp fp in
  asmsize self' = (numamps_x fp * dstAmpCols, numamps_y fp * dstAmpRows)
  /\ shape_is (buffer self') (asmsize self').2 (asmsize self').1 = true.
Proof.
  intros Hvalid Ha Hrun fp dstAmpCols dstAmpRows.
  destruct (assemble_valid trim self self' Hvalid Ha Hrun) as (Hs & Hshape & _).
  destruct (valid_geometry trim self Hvalid)
    as (_ & _ & _ & Hax & Hay & _ & _ & _ & _ & _ & _ & _ & _ & _ & _ & Hasz).
  fold fp in Hshape, Hax, Hay, Hasz.
  assert (Hc : dst_amp_cols trim fp = dstAmpCols).
  { unfold dst_amp_cols, margin. subst dstAmpCols. destruct (trim =? 1); lia. }
  assert (Hr : dst_amp_rows trim fp = dstAmpRows).
  { unfold dst_amp_rows, margin. subst dstAmpRows. destruct (trim =? 1); lia. }
  assert (Hsize : asmsize self' = asmsize_of trim self) by (rewrite Hs; reflexivity).
  rewrite Hsize, Hasz, Hax, Hay, <- Hc, <- Hr. cbn [fst snd].
  split; [reflexivity|exact Hshape].
Qed.

(** C2. For an amplifier with flip code 0, the destination segment of
    row [i] of its group is the calibrated segment of [dstAmpX] raw
    pixels at column [prescan1] of raw row [prescan2 + i], in the raw
    order; for flip code 1 it is the reverse of that segment. The
    source row starts at [prescan2] and advances with the destination
    row. The margins [prescan1] and [prescan2] are those the call
    works with: the underscan when trimming is requested, zero
    otherwise. *)
Theorem unflipped_rows_are_copied trim self self' p i j :
  valid_image self = true ->
  truthy (assembled self) = false ->
  assemble trim self = (Ok tt, self') ->
  let fp := focalplane self in
  let dstAmpX := dst_amp_cols trim fp in
  let dstAmpY := dst_amp_rows trim fp in
  let prescan1 := margin trim (numcols_underscan fp) in
  let prescan2 := margin trim (numrows_underscan fp) in
  0 <= p < num_par_amps_det fp ->
  0 <= i < dstAmpY ->
  0 <= j < num_ser_amps_det fp ->
  let amp := amp_at self p j in
  let srcLine := prescan2 + i in
  let raw_segment :=
    take (Z.to_nat dstAmpX)
      (drop (Z.to_nat (srcLine * numcols_amp fp + prescan1))
         (raw_of self amp)) in
  Z.of_nat (length raw_segment) = dstAmpX
  /\ (flip_of self amp = 0 ->
      nd_segment (buffer self') (p * dstAmpY + i) (j * dstAmpX) dstAmpX
      = calibrate self amp <$> raw_segment)
  /\ (flip_of self amp = 1 ->
      nd_segment (buffer self') (p * dstAmpY + i) (j * dstAmpX) dstAmpX
      = calibrate self amp <$> reverse raw_segment).
Proof.
  intros Hvalid Ha Hrun fp dstAmpX dstAmpY prescan1 prescan2 Hp Hi Hj
    amp srcLine raw_segment.
  destruct (assemble_valid trim self self' Hvalid Ha Hrun) as (_ & _ & Hdone).
  destruct (Hdone p i j Hp Hi Hj) as [Hseg _].
  destruct (valid_geometry trim self Hvalid)
    as (_ & _ & _ & _ & _ & Huc & Hoc & Hur & Hor & Hc & Hr & _ & _ & HW & HH & _).
  destruct (valid_amp self p j Hvalid Hp Hj)
    as (_ & _ & _ & _ & _ & Hlen & _ & _).
  pose proof (margin_bounds trim _ Huc). pose proof (margin_bounds trim _ Hoc).
  pose proof (margin_bounds trim _ Hur). pose proof (margin_bounds trim _ Hor).
  assert (Hs0 : 0 <= srcLine /\ srcLine + 1 <= numrows_amp fp).
  { subst srcLine prescan2 dstAmpY fp. unfold dst_amp_rows in Hi. lia. }
  assert (HsX : 0 <= srcLine * numcols_amp fp
                /\ (srcLine + 1) * numcols_amp fp
                   <= numcols_amp fp * numrows_amp fp).
  { subst fp. nia. }
  assert (Hin : 0 <= srcLine * numcols_amp fp + prescan1
                /\ 0 <= dstAmpX
                /\ srcLine * numcols_amp fp + prescan1 + dstAmpX
                   <= Z.of_nat (length (raw_of self amp))).
  { subst prescan1 dstAmpX amp fp. unfold dst_amp_cols in *. lia. }
  assert (Hslice : py_slice (raw_of self amp)
                     (srcLine * numcols_amp fp + prescan1)
                     (srcLine * numcols_amp fp + prescan1 + dstAmpX)
                   = raw_segment).
  { apply py_slice_in; lia. }
  assert (Hsrc : forall f, f = 0 \/ f = 1 ->
             flip_of self amp = f ->
             source_segment trim self p i j
             = if mirrors_columns f then reverse raw_segment else raw_segment).
  { intros f Hf Hfl. unfold source_segment. fold fp amp. rewrite Hfl.
    replace (source_row _ _ _ f _) with srcLine
      by (unfold source_row; destruct Hf as [->| ->]; reflexivity).
    fold prescan1 dstAmpX. rewrite Hslice. reflexivity. }
  split.
  { subst raw_segment. rewrite length_take, length_drop. lia. }
  split; intros Hfl;
    (transitivity (expected_segment trim self p i j); [exact Hseg|]);
    unfold expected_segment; fold amp.
  - rewrite (Hsrc 0 (or_introl eq_refl) Hfl). reflexivity.
  - rewrite (Hsrc 1 (or_intror eq_refl) Hfl). reflexivity.
Qed.

(** C3. The two vertical-mirror codes locate the source row with
    different margins: for flip code 2 the segment is read at raw row
    [srcAmpY - srcLine - overscan2 - 1], for flip code 3 at raw row
    [srcAmpY - srcLine - prescan2 - 1], and reversed; [srcLine] starts
    at [prescan2] and advances with the destination row. The segment
    is the Python slice of the raw pixels at that row, so the row
    of code 3, which may be negative, counts from the end. The
    margins are those the call works with. *)
Theorem mirrored_rows_use_two_margins trim self self' p i j :
  valid_image self = true ->
  truthy (assembled self) = false ->
  assemble trim self = (Ok tt, self') ->
  let fp := focalplane self in
  let dstAmpX := dst_amp_cols trim fp in
  let dstAmpY := dst_amp_rows trim fp in
  let prescan1 := margin trim (numcols_underscan fp) in
  let prescan2 := margin trim (numrows_underscan fp) in
  let overscan2 := margin trim (numrows_overscan fp) in
  0 <= p < num_par_amps_det fp ->
  0 <= i < dstAmpY ->
  0 <= j < num_ser_amps_det fp ->
  let amp := amp_at self p j in
  let srcLine := prescan2 + i in
  let row2 := numrows_amp fp - srcLine - overscan2 - 1 in
  let row3 := numrows_amp fp - srcLine - prescan2 - 1 in
  let window r :=
    py_slice (raw_of self amp) (r * numcols_amp fp + prescan1)
      (r * numcols_amp fp + prescan1 + dstAmpX) in
  (flip_of self amp = 2 ->
   nd_segment (buffer self') (p * dstAmpY + i) (j * dstAmpX) dstAmpX
   = calibrate self amp <$> window row2)
  /\ (flip_of self amp = 3 ->
      nd_segment (buffer self') (p * dstAmpY + i) (j * dstAmpX) dstAmpX
      = calibrate self amp <$> reverse (window row3))
  /\ row2 - row3 = prescan2 - overscan2
  /\ 0 <= row2 < numrows_amp fp.
Proof.
  intros Hvalid Ha Hrun fp dstAmpX dstAmpY prescan1 prescan2 overscan2
    Hp Hi Hj amp srcLine row2 row3 window.
  destruct (assemble_valid trim self self' Hvalid Ha Hrun) as (_ & _ & Hdone).
  destruct (Hdone p i j Hp Hi Hj) as [Hseg _].
  destruct (valid_geometry trim self Hvalid)
    as (_ & _ & _ & _ & _ & _ & _ & Hur & Hor & _ & _ & _ & _ & _ & _ & _).
  pose proof (margin_bounds trim _ Hur). pose proof (margin_bounds trim _ Hor).
  split; [|split; [|split]].
  - intros Hfl.
    transitivity (expected_segment trim self p i j); [exact Hseg|].
    unfold expected_segment, source_segment. fold fp amp. rewrite Hfl.
    reflexivity.
  - intros Hfl.
    transitivity (expected_segment trim self p i j); [exact Hseg|].
    unfold expected_segment, source_segment. fold fp amp. rewrite Hfl.
    reflexivity.
  - subst row2 row3. lia.
  - subst row2 srcLine overscan2 prescan2 dstAmpY fp.
    unfold dst_amp_rows in Hi. lia.
Qed.

(** C1. After a call that returns on a valid image not yet assembled,
    every pixel [(line, col)] of the assembled buffer holds
    [(raw - offset[amp]) * scale[amp]], where [amp = Ext[p * nx + j] - 1]
    is the physical amplifier that supplies the position, [p] being
    the parallel group of [line] and [j] the amplifier position of
    [col], and [raw] is the one raw pixel of that amplifier that the
    flip code of [amp] selects for the position: with [i] and [c] the
    row and column inside the amplifier and [srcLine = prescan2 + i],
    the Python element [data[amp][row * srcAmpX + prescan1 + k]],
    where [row] is [srcLine] for flip codes 0 and 1,
    [srcAmpY - srcLine - overscan2 - 1] for code 2 and
    [srcAmpY - srcLine - prescan2 - 1] for code 3, and [k] is [c] for
    codes 0 and 2 and [dstAmpX - 1 - c] for codes 1 and 3. The margins
    are those the call works with. *)
Theorem every_pixel_is_calibrated trim self self' line col :
  valid_image self = true ->
  truthy (assembled self) = false ->
  assemble trim self = (Ok tt, self') ->
  let fp := focalplane self in
  let dstAmpX := dst_amp_cols trim fp in
  let dstAmpY := dst_amp_rows trim fp in
  let prescan1 := margin trim (numcols_underscan fp) in
  let prescan2 := margin trim (numrows_underscan fp) in
  let overscan2 := margin trim (numrows_overscan fp) in
  0 <= line < num_par_amps_det fp * dstAmpY ->
  0 <= col < num_ser_amps_det fp * dstAmpX ->
  let p := line / dstAmpY in
  let i := line mod dstAmpY in
  let j := col / dstAmpX in
  let c := col mod dstAmpX in
  exists e flip dt rows raws off sc raw,
    let amp := e - 1 in
    let srcLine := prescan2 + i in
    let row :=
      if flip =? 2 then numrows_amp fp - srcLine - overscan2 - 1
      else if flip =? 3 then numrows_amp fp - srcLine - prescan2 - 1
      else srcLine in
    let k := if (flip =? 1) || (flip =? 3) then dstAmpX - 1 - c else c in
    py_getitem (jpg_ext fp) (p * num_ser_amps_det fp + j) = Ok e
    /\ 0 <= amp
    /\ py_getitem (amp_cfg fp) amp = Ok flip
    /\ 0 <= flip <= 3
    /\ data self = Arr2 dt rows
    /\ rows !! Z.to_nat amp = Some raws
    /\ py_getitem (offsets self) amp = Ok off
    /\ py_getitem (scales self) amp = Ok sc
    /\ py_getitem raws (row * numcols_amp fp + prescan1 + k) = Ok raw
    /\ nd_pixel (buffer self') line col = Some (pmul (psub raw off) sc).
Proof.
  intros Hvalid Ha Hrun fp dstAmpX dstAmpY prescan1 prescan2 overscan2
    Hline Hcol p i j c.
  destruct (assemble_valid trim self self' Hvalid Ha Hrun)
    as (_ & Hshape & Hdone).
  destruct (valid_geometry trim self Hvalid)
    as (_ & Hnx & Hny & _ & _ & _ & _ & _ & _ & _ & _ & _ & _ & HW & HH & _).
  fold fp in Hshape, Hdone, Hnx, Hny, HW, HH.
  fold dstAmpX dstAmpY in Hshape, Hdone, HW, HH.
  assert (HH0 : 0 < dstAmpY) by nia.
  assert (HW0 : 0 < dstAmpX) by nia.
  assert (Hli : line = p * dstAmpY + i)
    by (subst p i; rewrite (Z.div_mod line dstAmpY) at 1 by lia; lia).
  assert (Hcj : col = j * dstAmpX + c)
    by (subst j c; rewrite (Z.div_mod col dstAmpX) at 1 by lia; lia).
  assert (Hi : 0 <= i < dstAmpY) by (apply Z.mod_pos_bound; lia).
  assert (Hc : 0 <= c < dstAmpX) by (apply Z.mod_pos_bound; lia).
  assert (Hp : 0 <= p < num_par_amps_det fp).
  { subst p. split; [apply Z.div_pos; lia|].
    apply Z.div_lt_upper_bound; lia. }
  assert (Hj : 0 <= j < num_ser_amps_det fp).
  { subst j. split; [apply Z.div_pos; lia|].
    apply Z.div_lt_upper_bound; lia. }
  destruct (Hdone p i j Hp Hi Hj) as [Hseg Hsrc].
  change (Z.of_nat (length (source_segment trim self p i j)) = dstAmpX) in Hsrc.
  change (nd_segment (buffer self') (p * dstAmpY + i) (j * dstAmpX) dstAmpX
          = expected_segment trim self p i j) in Hseg.
  destruct (valid_amp self p j Hvalid Hp Hj)
    as (Hamp & He & Hcfg & Hf & (ddt & drows & Hd & Hrow) & _ & Hoff & Hsc).
  fold fp in He, Hcfg.
  set (amp := amp_at self p j) in *.
  destruct (lookup_lt_is_Some_2 (source_segment trim self p i j) (Z.to_nat c))
    as [raw Hraw]; [lia|].
  exists (amp + 1), (flip_of self amp), ddt, drows, (raw_of self amp),
    (offset_of self amp), (scale_of self amp), raw.
  cbv zeta. replace (amp + 1 - 1) with amp by lia.
  do 8 (split; [first [assumption|lia]|]).
  split.
  - unfold source_segment in Hraw, Hsrc. cbv zeta in Hraw, Hsrc.
    fold fp amp prescan1 prescan2 overscan2 dstAmpX in Hraw, Hsrc.
    unfold source_row in Hraw, Hsrc.
    set (row := if flip_of self amp =? 2
                then numrows_amp fp - (prescan2 + i) - overscan2 - 1
                else if flip_of self amp =? 3
                     then numrows_amp fp - (prescan2 + i) - prescan2 - 1
                     else prescan2 + i) in *.
    unfold mirrors_columns in Hraw, Hsrc.
    destruct ((flip_of self amp =? 1) || (flip_of self amp =? 3)).
    + rewrite length_reverse in Hsrc.
      rewrite reverse_lookup in Hraw by lia.
      replace (length _ - S (Z.to_nat c))%nat
        with (Z.to_nat (dstAmpX - 1 - c)) in Hraw by lia.
      apply (py_slice_lookup _ _ dstAmpX); [lia|exact Hsrc|lia|exact Hraw].
    + apply (py_slice_lookup _ _ dstAmpX); [lia|exact Hsrc|lia|exact Hraw].
  - apply shape_is_spec in Hshape as (bdt & rows & Hb & Hl & _).
    rewrite Hb in *. unfold nd_pixel.
    destruct (lookup_lt_is_Some_2 rows (Z.to_nat line)) as [brow Hr]; [lia|].
    rewrite Hr.
    unfold nd_segment in Hseg. rewrite <- Hli, Hr in Hseg.
    assert (Hpix : take (Z.to_nat dstAmpX) (drop (Z.to_nat (j * dstAmpX)) brow)
                   !! Z.to_nat c = brow !! Z.to_nat col).
    { rewrite lookup_take_lt by lia. rewrite lookup_drop. f_equal. nia. }
    rewrite <- Hpix, Hseg. unfold expected_segment.
    rewrite list_lookup_fmap, Hraw. reflexivity.
Qed.
End AssemblyClaims.

(** ** The loop of set_scaling *)

Section ForEachFacts.
Context {S A : Type}.

Lemma for_each_app (xs ys : list Z) (body : Z -> A -> M S A) acc s :
  for_each (xs ++ ys) body acc s
  = bind (for_each xs body acc) (for_each ys body) s.
Proof.
  revert acc s. induction xs as [|x xs IH]; intros acc s; [reflexivity|].
  cbn [for_each app]. unfold bind.
  destruct (body x acc s) as [[acc1|e] s1]; [|reflexivity].
  rewrite IH. reflexivity.
Qed.
End ForEachFacts.

Section SetScalingFacts.
Context {px : Type} `{!Pixel px}.
Implicit Types self s : Image px.

Lemma np_setitem_in (a : list px) (i : Z) v :
  0 <= i < Z.of_nat (length a) ->
  np_setitem a i v = Ok (<[Z.to_nat i := to_f32 v]> a).
Proof.
  intros Hi. unfold np_setitem.
  replace (i <? 0) with false by lia.
  replace ((i <? 0) || (Z.of_nat (length a) <=? i)) with false by lia.
  reflexivity.
Qed.

(** One pass of the loop over [chan], within the four sequences. *)
Lemma set_chan_run gains offs chan s g o :
  0 <= chan ->
  gains !! Z.to_nat chan = Some g ->
  offs !! Z.to_nat chan = Some o ->
  chan < Z.of_nat (length (scales s)) ->
  chan < Z.of_nat (length (offsets s)) ->
  set_chan gains offs chan tt s
  = (Ok tt,
     set_offsets (<[Z.to_nat chan := to_f32 o]> (offsets s))
       (set_scales (<[Z.to_nat chan := to_f32 g]> (scales s)) s)).
Proof.
  intros Hc Hg Ho Hs Hof.
  unfold set_chan, bind, lift, get, modify.
  rewrite (py_getitem_lookup gains chan g Hc Hg).
  rewrite np_setitem_in by lia.
  rewrite (py_getitem_lookup offs chan o Hc Ho).
  cbn [offsets set_scales]. rewrite np_setitem_in by lia.
  reflexivity.
Qed.

(** The first [n] entries after [n] passes. *)
Lemma set_chan_loop gains offs (n : nat) s :
  (n <= length gains)%nat -> (n <= length offs)%nat ->
  (n <= length (scales s))%nat -> (n <= length (offsets s))%nat ->
  for_each (seqZ 0 (Z.of_nat n)) (set_chan gains offs) tt s
  = (Ok tt,
     set_offsets ((to_f32 <$> take n offs) ++ drop n (offsets s))
       (set_scales ((to_f32 <$> take n gains) ++ drop n (scales s)) s)).
Proof.
  induction n as [|n IH]; intros Hg Ho Hs Hof.
  - cbn. unfold ret. destruct s; reflexivity.
  - rewrite seqZ_S, for_each_app. unfold bind at 1.
    rewrite IH by lia. cbn [for_each]. unfold bind at 1.
    destruct (lookup_lt_is_Some_2 gains n) as [g Hgn]; [lia|].
    destruct (lookup_lt_is_Some_2 offs n) as [o Hon]; [lia|].
    destruct (lookup_lt_is_Some_2 (scales s) n) as [x Hx]; [lia|].
    destruct (lookup_lt_is_Some_2 (offsets s) n) as [y Hy]; [lia|].
    assert (Hlen : forall (l vals : list px),
               (n <= length vals)%nat ->
               length ((to_f32 <$> take n vals) ++ drop n l)
               = (n + (length l - n))%nat).
    { intros l vals Hv. rewrite length_app, length_fmap, length_take, length_drop. lia. }
    assert (Hupd : forall (l vals : list px) v w,
               vals !! n = Some v -> l !! n = Some w ->
               <[n := to_f32 v]> ((to_f32 <$> take n vals) ++ drop n l)
               = (to_f32 <$> take (Datatypes.S n) vals) ++ drop (Datatypes.S n) l).
    { intros l vals v w Hv Hw.
      assert (n < length vals)%nat by (eapply lookup_lt_Some, Hv).
      rewrite insert_app_r_alt by (rewrite length_fmap, length_take; lia).
      rewrite length_fmap, length_take.
      replace (n - n `min` length vals)%nat with 0%nat by lia.
      rewrite (drop_S l w n Hw). cbn [insert list_insert].
      rewrite (take_S_r vals n v Hv), fmap_app, <- app_assoc. reflexivity. }
    pose proof (set_chan_run gains offs (0 + Z.of_nat n)
                  (set_offsets ((to_f32 <$> take n offs) ++ drop n (offsets s))
                     (set_scales ((to_f32 <$> take n gains)
                                  ++ drop n (scales s)) s)) g o) as Hrun.
    cbn [scales offsets set_scales set_offsets] in Hrun.
    rewrite !Hlen in Hrun by lia.
    replace (Z.to_nat (0 + Z.of_nat n)) with n in Hrun by lia.
    rewrite Hrun by (first [assumption|lia]).
    unfold ret.
    rewrite (Hupd _ _ _ _ Hgn Hx), (Hupd _ _ _ _ Hon Hy). reflexivity.
Qed.

(** [set_scaling] when the amplifier count covers the raw data and
    both sequences cover the raw data: the first [len(self.data)]
    entries are the given values, the others the defaults. *)
Lemma set_scaling_run (og oo : option (list px)) self :
  let k := Z.to_nat (nd_len (data self)) in
  let n := Z.to_nat (numamps_image (focalplane self)) in
  let gains := default (replicate k pone) og in
  let offs := default (replicate k pzero) oo in
  0 <= numamps_image (focalplane self) ->
  (k <= n)%nat -> (k <= length gains)%nat -> (k <= length offs)%nat ->
  set_scaling og oo self
  = (Ok tt,
     set_offsets ((to_f32 <$> take k offs) ++ replicate (n - k) pzero)
       (set_scales ((to_f32 <$> take k gains) ++ replicate (n - k) pone)
          (set_num_extensions (numamps_image (focalplane self)) self))).
Proof.
  intros k n gains offs Hn Hk Hg Ho.
  unfold set_scaling, bind, get, modify, lift, np_filled.
  cbn [num_extensions set_num_extensions].
  replace (numamps_image (focalplane self) <? 0) with false by lia.
  cbn [data set_offsets set_scales set_num_extensions focalplane].
  fold k n.
  replace (match og with Some g => g | None => replicate k pone end)
    with gains by (subst gains; destruct og; reflexivity).
  replace (match oo with Some o => o | None => replicate k pzero end)
    with offs by (subst offs; destruct oo; reflexivity).
  unfold range.
  assert (Hlen : 0 <= nd_len (data self)).
  { unfold nd_len. destruct (data self); lia. }
  replace (nd_len (data self) - 0) with (Z.of_nat k) by lia.
  rewrite set_chan_loop;
    cbn [scales offsets set_scales set_offsets];
    rewrite ?length_replicate; try lia.
  rewrite !drop_replicate. reflexivity.
Qed.
End SetScalingFacts.

(** ** The assembly of two amplifiers *)

Lemma assembled_size_and_shape_witness :
  let self := Scenario.two_amps [0; 1] in
  exists self',
    valid_image self = true
    /\ truthy (assembled self) = false
    /\ assemble 1 self = (Ok tt, self')
    /\ asmsize self' = (6, 2)
    /\ shape_is (buffer self') 2 6 = true.
Proof.
  intros self. eexists.
  assert (Hv : valid_image self = true) by (vm_compute; reflexivity).
  assert (Hrun : assemble 1 self = (Ok tt, ?[s'])) by (vm_compute; reflexivity).
  destruct (assembled_size_and_shape 1 self _ Hv eq_refl Hrun) as [Hs Hb].
  split; [exact Hv|]. split; [reflexivity|]. split; [exact Hrun|].
  split; [exact Hs|exact Hb].
Defined.

Ltac pin H := vm_compute in H; injection H; clear H; intros <-.

Lemma every_pixel_is_calibrated_witness :
  let self := Scenario.four_amps in
  exists self',
    valid_image self = true
    /\ truthy (assembled self) = false
    /\ assemble 1 self = (Ok tt, self')
    /\ (py_getitem (Scenario.raw 3 5 3) 6 = Ok 311
        /\ nd_pixel (buffer self') 0 0 = Some ((311 - 30) * 4))
    /\ (py_getitem (Scenario.raw 1 5 3) 12 = Ok 122
        /\ nd_pixel (buffer self') 1 4 = Some ((122 - 10) * 2))
    /\ (py_getitem (Scenario.raw 2 5 3) 6 = Ok 211
        /\ nd_pixel (buffer self') 2 5 = Some ((211 - 20) * 3))
    /\ (py_getitem (Scenario.raw 4 5 3) (-2) = Ok 423
        /\ nd_pixel (buffer self') 3 0 = Some ((423 - 40) * 5)).
Proof.
  intros self. eexists.
  assert (Hv : valid_image self = true) by (vm_compute; reflexivity).
  assert (Hrun : assemble 1 self = (Ok tt, ?[s'])) by (vm_compute; reflexivity).
  split; [exact Hv|]. split; [reflexivity|]. split; [exact Hrun|].
  split; [|split; [|split]].
  - destruct (every_pixel_is_calibrated 1 self _ 0 0 Hv eq_refl Hrun)
      as (e & flip & dt & rows & raws & off & sc & raw
          & He & _ & Hcfg & _ & Hd & Hr & Hoff & Hsc & Hraw & Hpix);
      [vm_compute; split; congruence..|].
    pin He. pin Hcfg. vm_compute in Hd. injection Hd as <- <-.
    pin Hr. pin Hoff. pin Hsc. pin Hraw.
    split; [reflexivity|exact Hpix].
  - destruct (every_pixel_is_calibrated 1 self _ 1 4 Hv eq_refl Hrun)
      as (e & flip & dt & rows & raws & off & sc & raw
          & He & _ & Hcfg & _ & Hd & Hr & Hoff & Hsc & Hraw & Hpix);
      [vm_compute; split; congruence..|].
    pin He. pin Hcfg. vm_compute in Hd. injection Hd as <- <-.
    pin Hr. pin Hoff. pin Hsc. pin Hraw.
    split; [reflexivity|exact Hpix].
  - destruct (every_pixel_is_calibrated 1 self _ 2 5 Hv eq_refl Hrun)
      as (e & flip & dt & rows & raws & off & sc & raw
          & He & _ & Hcfg & _ & Hd & Hr & Hoff & Hsc & Hraw & Hpix);
      [vm_compute; split; congruence..|].
    pin He. pin Hcfg. vm_compute in Hd. injection Hd as <- <-.
    pin Hr. pin Hoff. pin Hsc. pin Hraw.
    split; [reflexivity|exact Hpix].
  - destruct (every_pixel_is_calibrated 1 self _ 3 0 Hv eq_refl Hrun)
      as (e & flip & dt & rows & raws & off & sc & raw
          & He & _ & Hcfg & _ & Hd & Hr & Hoff & Hsc & Hraw & Hpix);
      [vm_compute; split; congruence..|].
    pin He. pin Hcfg. vm_compute in Hd. injection Hd as <- <-.
    pin Hr. pin Hoff. pin Hsc. pin Hraw.
    split; [reflexivity|exact Hpix].
Defined.

Lemma unflipped_rows_are_copied_witness :
  let self := Scenario.two_amps [0; 1] in
  exists self',
    valid_image self = true
    /\ truthy (assembled self) = false
    /\ assemble 1 self = (Ok tt, self')
    /\ nd_segment (buffer self') 1 0 3 = [121; 122; 123]
    /\ nd_segment (buffer self') 1 3 3 = [223; 222; 221].
Proof.
  intros self. eexists.
  assert (Hv : valid_image self = true) by (vm_compute; reflexivity).
  assert (Hrun : assemble 1 self = (Ok tt, ?[s'])) by (vm_compute; reflexivity).
  assert (Hb : forall a b, a <= b -> b < a + 1 -> a <= b < a + 1) by (intros; lia).
  destruct (unflipped_rows_are_copied 1 self _ 0 1 0 Hv eq_refl Hrun)
    as (_ & H0 & _); [vm_compute; split; congruence..|].
  destruct (unflipped_rows_are_copied 1 self _ 0 1 1 Hv eq_refl Hrun)
    as (_ & _ & H1); [vm_compute; split; congruence..|].
  split; [exact Hv|]. split; [reflexivity|]. split; [exact Hrun|].
  split; [exact (H0 eq_refl)|exact (H1 eq_refl)].
Defined.

Lemma mirrored_rows_use_two_margins_witness :
  let self := Scenario.two_amps [2; 3] in
  exists self',
    valid_image self = true
    /\ truthy (assembled self) = false
    /\ assemble 1 self = (Ok tt, self')
    /\ nd_segment (buffer self') 1 0 3 = [101; 102; 103]
    /\ nd_segment (buffer self') 1 3 3 = [223; 222; 221].
Proof.
  intros self. eexists.
  assert (Hv : valid_image self = true) by (vm_compute; reflexivity).
  assert (Hrun : assemble 1 self = (Ok tt, ?[s'])) by (vm_compute; reflexivity).
  destruct (mirrored_rows_use_two_margins 1 self _ 0 1 0 Hv eq_refl Hrun)
    as (H2 & _ & _ & _); [vm_compute; split; congruence..|].
  destruct (mirrored_rows_use_two_margins 1 self _ 0 1 1 Hv eq_refl Hrun)
    as (_ & H3 & _ & _); [vm_compute; split; congruence..|].
  split; [exact Hv|]. split; [reflexivity|]. split; [exact Hrun|].
  split; [exact (H2 eq_refl)|exact (H3 eq_refl)].
Defined.

(** ** Flip codes out of range and set_scaling *)

Section FlipCodeClaim.
Context {px : Type} `{!Pixel px}.

(** C7, amended. A flip code outside 0..3 raises nothing: the pass of
    the copy loop for such an amplifier writes nothing into the
    buffer and leaves [lineStart] where it was, and the loop goes on
    with the next amplifier. *)
Theorem invalid_flip_code_is_skipped
    (Ext AmpFlip : list Z) (Data : ndarray px) (Offsets Scales : list px)
    (prescan1 prescan2 overscan2 dstAmpX srcAmpX srcAmpY lineLen : Z)
    (line srcLine currExt lineStart : Z) (buf : ndarray px) (e flip : Z) :
  py_getitem Ext currExt = Ok e ->
  py_getitem AmpFlip (e - 1) = Ok flip ->
  ~ 0 <= flip <= 3 ->
  copy_ext Ext AmpFlip Data Offsets Scales prescan1 prescan2 overscan2
    dstAmpX srcAmpX srcAmpY lineLen line srcLine currExt lineStart buf
  = (Ok lineStart, buf).
Proof. apply copy_ext_skip. Qed.
End FlipCodeClaim.

Lemma invalid_flip_code_is_skipped_witness :
  let fp := focalplane Scenario.bad_flip in
  py_getitem (jpg_ext fp) 0 = Ok 1
  /\ py_getitem (amp_cfg fp) (1 - 1) = Ok 7
  /\ ~ 0 <= 7 <= 3
  /\ copy_ext (jpg_ext fp) (amp_cfg fp) (data Scenario.bad_flip) [0; 0] [1; 1]
       1 1 0 3 5 3 3 0 1 0 0 (Arr2 float32 [[0; 0; 0; 0; 0; 0]])
     = (Ok 0, Arr2 float32 [[0; 0; 0; 0; 0; 0]]).
Proof.
  intros fp.
  assert (H1 : py_getitem (jpg_ext fp) 0 = Ok 1) by reflexivity.
  assert (H2 : py_getitem (amp_cfg fp) (1 - 1) = Ok 7) by reflexivity.
  assert (H3 : ~ 0 <= 7 <= 3) by lia.
  split; [exact H1|]. split; [exact H2|]. split; [exact H3|].
  exact (invalid_flip_code_is_skipped _ _ _ _ _ _ _ _ _ _ _ _ _ _ _ _ _ _ _
           H1 H2 H3).
Defined.

(** C8 fails at gains of three entries and offsets of two, on an image
    of two amplifiers: [set_scaling] returns, with the first two gains
    and the two offsets stored. *)
Lemma set_scaling_accepts_length_mismatch :
  let r := set_scaling (Some [2; 3; 4]) (Some [10; 20])
             (Scenario.two_amps [0; 1]) in
  r.1 = Ok tt /\ scales r.2 = [2; 3] /\ offsets r.2 = [10; 20].
Proof. vm_compute. repeat split; reflexivity. Qed.

Section ScalingClaim.
Context {px : Type} `{!Pixel px}.

(** C8, amended. [set_scaling] compares no lengths. When the gains
    and the offsets each have at least [len(self.data)] entries, and
    the amplifier count is at least [len(self.data)], the call
    returns whatever the two lengths are: the first [len(self.data)]
    entries of each are stored, rounded to float32, the entries
    beyond are ignored, and the scales and offsets of the other
    amplifiers are [1.0] and [0.0]. *)
Theorem set_scaling_takes_prefixes (gains offs : list px) (self : Image px) :
  let k := Z.to_nat (nd_len (data self)) in
  let n := Z.to_nat (numamps_image (focalplane self)) in
  0 <= numamps_image (focalplane self) ->
  (k <= n)%nat -> (k <= length gains)%nat -> (k <= length offs)%nat ->
  exists self',
    set_scaling (Some gains) (Some offs) self = (Ok tt, self')
    /\ scales self' = (to_f32 <$> take k gains) ++ replicate (n - k) pone
    /\ offsets self' = (to_f32 <$> take k offs) ++ replicate (n - k) pzero.
Proof.
  intros k n Hn Hk Hg Ho. eexists. split; [|split].
  - apply (set_scaling_run (Some gains) (Some offs) self Hn Hk Hg Ho).
  - reflexivity.
  - reflexivity.
Qed.
End ScalingClaim.

Lemma set_scaling_takes_prefixes_witness :
  let self := Scenario.two_amps [0; 1] in
  0 <= numamps_image (focalplane self)
  /\ (2 <= 2)%nat /\ (2 <= 3)%nat /\ (2 <= 2)%nat
  /\ exists self',
      set_scaling (Some [2; 3; 4]) (Some [10; 20]) self = (Ok tt, self')
      /\ scales self' = [2; 3]
      /\ offsets self' = [10; 20].
Proof.
  intros self.
  assert (H0 : 0 <= numamps_image (focalplane self)) by (vm_compute; congruence).
  split; [exact H0|]. split; [lia|]. split; [lia|]. split; [lia|].
  exact (set_scaling_takes_prefixes [2; 3; 4] [10; 20] self H0
           (le_n 2) (le_S 2 2 (le_n 2)) (le_n 2)).
Defined.

(** ** Relations a method keeps *)

Section KeptFacts.
Context {px : Type} `{!Pixel px}.
Implicit Types s : Image px.

Lemma inputs_kept_refl s : inputs_kept s s.
Proof. unfold inputs_kept. tauto. Qed.

Lemma inputs_kept_trans s1 s2 s3 :
  inputs_kept s1 s2 -> inputs_kept s2 s3 -> inputs_kept s1 s3.
Proof. unfold inputs_kept. intuition congruence. Qed.

Lemma flags_kept_refl s : flags_kept s s.
Proof. unfold flags_kept. split; [apply inputs_kept_refl|tauto]. Qed.

Lemma flags_kept_trans s1 s2 s3 :
  flags_kept s1 s2 -> flags_kept s2 s3 -> flags_kept s1 s3.
Proof.
  unfold flags_kept. intros (H1 & ? & ?) (H2 & ? & ?).
  split; [eapply inputs_kept_trans; eassumption|]. split; congruence.
Qed.

Lemma assembly_kept_refl s : assembly_kept s s.
Proof. unfold assembly_kept. tauto. Qed.

Lemma assembly_kept_trans s1 s2 s3 :
  assembly_kept s1 s2 -> assembly_kept s2 s3 -> assembly_kept s1 s3.
Proof. unfold assembly_kept. intuition congruence. Qed.

Section Keeps.
Variable R : Image px -> Image px -> Prop.
Hypothesis R_refl : forall s, R s s.
Hypothesis R_trans : forall s1 s2 s3, R s1 s2 -> R s2 s3 -> R s1 s3.

Lemma keeps_bind {A B} (m : M (Image px) A) (k : A -> M (Image px) B) :
  keeps R m -> (forall a, keeps R (k a)) -> keeps R (bind m k).
Proof.
  intros Hm Hk s. unfold bind. specialize (Hm s).
  destruct (m s) as [[a|e] s1]; cbn in *; [|exact Hm].
  eapply R_trans; [exact Hm|apply Hk].
Qed.

Lemma keeps_get {B} (k : Image px -> M (Image px) B) :
  (forall s0, keeps R (k s0)) -> keeps R (bind get k).
Proof. intros Hk s. unfold bind, get. apply Hk. Qed.

Lemma keeps_ret {A} (a : A) : keeps R (ret a : M (Image px) A).
Proof. intros s. apply R_refl. Qed.

Lemma keeps_raise {A} e : keeps R (raise e : M (Image px) A).
Proof. intros s. apply R_refl. Qed.

Lemma keeps_lift {A} (r : result A) : keeps R (lift r : M (Image px) A).
Proof. intros s. apply R_refl. Qed.

Lemma keeps_modify (f : Image px -> Image px) :
  (forall s, R s (f s)) -> keeps R (modify f).
Proof. intros Hf s. apply Hf. Qed.

Lemma keeps_for_each {A} (xs : list Z) (body : Z -> A -> M (Image px) A) :
  (forall x acc, keeps R (body x acc)) ->
  forall acc, keeps R (for_each xs body acc).
Proof.
  intros Hb. induction xs as [|x xs IH]; intros acc; cbn [for_each].
  - apply keeps_ret.
  - apply keeps_bind; [apply Hb|exact IH].
Qed.
End Keeps.
End KeptFacts.

(** ** What assemble leaves alone *)

Section AssembleFrame.
Context {px : Type} `{!Pixel px}.
Implicit Types s : Image px.

Ltac kept := intros; unfold flags_kept, inputs_kept; cbn; tauto.

Local Abbreviation fk_bind := (keeps_bind flags_kept flags_kept_trans).
Local Abbreviation fk_ret := (keeps_ret flags_kept flags_kept_refl).
Local Abbreviation fk_lift := (keeps_lift flags_kept flags_kept_refl).

Lemma fk_on_buffer {A} (m : M (ndarray px) A) : keeps flags_kept (on_buffer m).
Proof.
  intros s. unfold on_buffer. destruct (m (buffer s)) as [r b]. kept.
Qed.

Lemma fk_resize n : keeps flags_kept (@resize_buffer px _ n).
Proof.
  unfold resize_buffer. apply keeps_get; intros s0.
  apply fk_bind; [apply fk_lift|intros b].
  apply fk_bind; [apply keeps_modify; kept|intros _].
  apply fk_bind; [apply fk_lift|intros b2]. apply keeps_modify; kept.
Qed.

Lemma fk_reshape : keeps flags_kept (@reshape_buffer px).
Proof.
  unfold reshape_buffer. apply keeps_get; intros s0.
  apply fk_bind; [apply fk_lift|intros b]. apply keeps_modify; kept.
Qed.

Lemma fk_fresh : keeps flags_kept (@fresh_buffer px _).
Proof.
  unfold fresh_buffer. apply keeps_get; intros s0.
  apply fk_bind; [apply keeps_modify; kept|intros _].
  destruct (negb _); [|apply fk_ret].
  apply fk_bind; [apply fk_lift|intros b]. apply keeps_modify; kept.
Qed.

Lemma fk_margins t : keeps flags_kept (@trim_margins px _ t).
Proof.
  unfold trim_margins. apply keeps_get; intros s0.
  destruct (t =? 1).
  - apply fk_bind; [apply keeps_modify; kept|intros _].
    apply fk_bind; [apply fk_resize|intros _]. apply fk_ret.
  - apply fk_bind; [apply keeps_modify; kept|intros _].
    apply fk_bind; [|intros _; apply fk_ret].
    destruct (negb _); [apply fk_resize|apply fk_ret].
Qed.

Lemma rc_bind {A B} (m : M (Image px) A) (k : A -> M (Image px) B) :
  keeps flags_kept m -> (forall a, raises_cleanly (k a)) ->
  raises_cleanly (bind m k).
Proof.
  intros Hm Hk s. unfold bind. specialize (Hm s).
  destruct (m s) as [[a|e] s1]; cbn [fst snd] in *.
  - destruct (Hk a s1) as [Hi He]. split.
    + eapply inputs_kept_trans; [apply Hm|exact Hi].
    + intros e' Hr. eapply flags_kept_trans; [exact Hm|apply (He e' Hr)].
  - split; [apply Hm|]. intros _ _. exact Hm.
Qed.

Lemma rc_get {B} (k : Image px -> M (Image px) B) :
  (forall s0, raises_cleanly (k s0)) -> raises_cleanly (bind get k).
Proof. intros Hk s. unfold bind, get. apply Hk. Qed.

Lemma rc_never_raises {A} (m : M (Image px) A) :
  (forall s, inputs_kept s (m s).2) ->
  (forall s e, (m s).1 <> Raise e) ->
  raises_cleanly m.
Proof.
  intros Hi Hn s. split; [apply Hi|]. intros e He. destruct (Hn s e He).
Qed.

Lemma rc_keeps {A} (m : M (Image px) A) :
  keeps flags_kept m -> raises_cleanly m.
Proof. intros Hm s. split; [apply Hm|]. intros _ _. apply Hm. Qed.

Lemma assemble_raises_cleanly trim : raises_cleanly (@assemble px _ trim).
Proof.
  unfold assemble. apply rc_get. intros s0.
  destruct (negb (truthy (is_valid s0)));
    [apply rc_keeps, keeps_raise, flags_kept_refl|].
  destruct (truthy (assembled s0));
    [apply rc_keeps, keeps_ret, flags_kept_refl|].
  apply rc_bind; [apply fk_fresh|intros _].
  apply rc_bind; [apply fk_margins|intros [[[p1 o1] p2] o2]].
  apply rc_bind; [apply keeps_modify; kept|intros _].
  apply rc_bind; [apply keeps_modify; kept|intros _].
  apply rc_bind; [apply keeps_modify; kept|intros _].
  apply rc_bind; [apply fk_on_buffer|intros _].
  apply rc_bind; [apply fk_reshape|intros _].
  apply rc_never_raises.
  - intros s. unfold bind, modify, ret.
    destruct (trim =? 1); unfold inputs_kept; cbn; tauto.
  - intros s e. unfold bind, modify, ret.
    destruct (trim =? 1); cbn; discriminate.
Qed.
End AssembleFrame.

(** ** Loops that return *)

Section Totality.
Context {S A : Type}.

(** A loop over [range(a, b)] returns when its body returns from
    every state that an invariant describes, and maintains it. *)
Lemma for_each_range_total (I : Z -> A -> S -> Prop)
    (body : Z -> A -> M S A) (n : nat) :
  forall (a : Z) acc s,
    I a acc s ->
    (forall k acc s,
        a <= k < a + Z.of_nat n -> I k acc s ->
        exists acc' s', body k acc s = (Ok acc', s') /\ I (k + 1) acc' s') ->
    exists r s',
      for_each (range a (a + Z.of_nat n)) body acc s = (Ok r, s')
      /\ I (a + Z.of_nat n) r s'.
Proof.
  unfold range.
  induction n as [|n IH]; intros a acc s Hi Hstep.
  - exists acc, s. replace (a + Z.of_nat 0 - a) with 0 by lia.
    replace (a + Z.of_nat 0) with a by lia. split; [reflexivity|exact Hi].
  - destruct (Hstep a acc s ltac:(lia) Hi) as (acc1 & s1 & Hb & Hi1).
    destruct (IH (a + 1) acc1 s1 Hi1) as (r & s' & Hrun & Hr).
    { intros k acc2 s2 Hk. apply Hstep. lia. }
    exists r, s'.
    replace (a + Z.of_nat (Datatypes.S n)) with (a + 1 + Z.of_nat n) by lia.
    split; [|exact Hr].
    rewrite seqZ_cons by lia. cbn [for_each]. unfold bind. rewrite Hb.
    replace (Z.succ a) with (a + 1) by lia.
    replace (Z.pred (a + 1 + Z.of_nat n - a)) with (a + 1 + Z.of_nat n - (a + 1))
      by lia.
    exact Hrun.
Qed.
End Totality.

Section CopyRuns.
Context {px : Type} `{!Pixel px}.
Variables (trim : Z) (self : Image px).
Hypothesis Hvalid : valid_image self = true.

Local Abbreviation fp := (focalplane self).
Local Abbreviation nx := (num_ser_amps_det (focalplane self)).
Local Abbreviation ny := (num_par_amps_det (focalplane self)).
Local Abbreviation W := (dst_amp_cols trim (focalplane self)).
Local Abbreviation H := (dst_amp_rows trim (focalplane self)).
Local Abbreviation pre1 := (margin trim (numcols_underscan (focalplane self))).
Local Abbreviation pre2 := (margin trim (numrows_underscan (focalplane self))).
Local Abbreviation over2 := (margin trim (numrows_overscan (focalplane self))).
Local Abbreviation copy_ext' :=
  (copy_ext (jpg_ext fp) (amp_cfg fp) (data self) (offsets self)
     (scales self) pre1 pre2 over2 W (numcols_amp fp) (numrows_amp fp) W).

(** Flip code 3 stays within the raw rows when the underscan rows the
    call works with are no more than the overscan rows. *)
Lemma source_segment_full p i j :
  0 <= p < ny -> 0 <= j < nx -> 0 <= i < H ->
  pre2 <= over2 \/ flip_of self (amp_at self p j) <> 3 ->
  Z.of_nat (length (source_segment trim self p i j)) = W.
Proof.
  intros Hp Hj Hi Hcond.
  destruct (source_segment_length trim self Hvalid p i j Hp Hj Hi) as [_ Hne].
  destruct Hcond as [Hle|Hf]; [|auto].
  destruct (decide (flip_of self (amp_at self p j) = 3)) as [Hf3|Hf3]; [|auto].
  destruct (valid_geometry trim self Hvalid)
    as (_ & _ & _ & _ & _ & Huc & Hoc & Hur & Hor & Hc & Hr & _ & _ & HW & HH & _).
  destruct (valid_amp self p j Hvalid Hp Hj)
    as (_ & _ & _ & _ & _ & Hlen & _ & _).
  pose proof (margin_bounds trim _ Huc). pose proof (margin_bounds trim _ Hoc).
  pose proof (margin_bounds trim _ Hur). pose proof (margin_bounds trim _ Hor).
  unfold source_segment. rewrite Hf3.
  change (mirrors_columns 3) with true. cbv iota. rewrite length_reverse.
  set (r := source_row _ _ _ 3 _).
  assert (Hr0 : 0 <= r < numrows_amp fp).
  { subst r. unfold source_row. cbn [Z.eqb Pos.eqb].
    unfold dst_amp_rows in Hi. lia. }
  destruct (py_slice_window (raw_of self (amp_at self p j))
              (numcols_amp fp) (numrows_amp fp) pre1
              (margin trim (numcols_overscan fp)) r) as [Hin _];
    [assumption|lia|lia|lia|lia|].
  apply Hin. lia.
Qed.

Lemma np_setrow_slice_run bdt (rows : list (list px)) brow line s w rhs :
  0 <= line -> rows !! Z.to_nat line = Some brow ->
  0 <= s -> 0 <= w -> s + w <= Z.of_nat (length brow) ->
  Z.of_nat (length rhs) = w ->
  np_setrow_slice (Arr2 bdt rows) line s (s + w) rhs
  = Ok (Arr2 bdt (<[Z.to_nat line :=
                     take (Z.to_nat s) brow ++ rhs
                       ++ drop (Z.to_nat (s + w)) brow]> rows)).
Proof.
  intros Hl Hrow Hs Hw Hin Hrhs. unfold np_setrow_slice.
  rewrite (py_getitem_lookup rows line brow Hl Hrow). cbn [rbind].
  unfold np_setslice. rewrite !slice_bound_in by lia.
  replace (Z.to_nat (s + w - s)) with (Z.to_nat w) by lia.
  destruct (decide (length rhs = Z.to_nat w)) as [_|Hne]; [|lia].
  cbn [rbind]. replace (line <? 0) with false by lia.
  replace (Z.to_nat s + Z.to_nat w)%nat with (Z.to_nat (s + w)) by lia.
  reflexivity.
Qed.

Lemma copy_if_run indx pos rv line ls (b b' : ndarray px) rhs :
  calibrated (data self) (offsets self) (scales self) W indx pos rv = Ok rhs ->
  np_setrow_slice b line ls (ls + W) rhs = Ok b' ->
  copy_if (data self) (offsets self) (scales self) W W true indx pos rv
    line ls b
  = (Ok (ls + W), b').
Proof.
  intros Hc Hs. unfold copy_if, bind, lift, store_line, ret.
  rewrite Hc, Hs. reflexivity.
Qed.

(** One pass of the body at a position whose source segment is whole
    returns. *)
Lemma copy_ext_run p i j bdt rows brow :
  0 <= p < ny -> 0 <= i < H -> 0 <= j < nx ->
  rows !! Z.to_nat (p * H + i) = Some brow ->
  Z.of_nat (length brow) = nx * W ->
  Z.of_nat (length (source_segment trim self p i j)) = W ->
  exists b',
    copy_ext' (p * H + i) (pre2 + i) (p * nx + j) (j * W) (Arr2 bdt rows)
    = (Ok ((j + 1) * W), b').
Proof.
  intros Hp Hi Hj Hrow Hlen Hsrc.
  destruct (valid_geometry trim self Hvalid)
    as (_ & _ & _ & _ & _ & _ & _ & _ & _ & _ & _ & _ & _ & HW & HH & _).
  destruct (valid_amp self p j Hvalid Hp Hj) as (Hamp & He & Hf & Hfr & _).
  pose proof (calibrated_valid trim self Hvalid p i j Hp Hj) as Hcal.
  cbn zeta in Hcal.
  assert (Hset : np_setrow_slice (Arr2 bdt rows) (p * H + i) (j * W) (j * W + W)
                   (expected_segment trim self p i j)
                 = Ok (Arr2 bdt
                         (<[Z.to_nat (p * H + i) :=
                             take (Z.to_nat (j * W)) brow
                               ++ expected_segment trim self p i j
                               ++ drop (Z.to_nat (j * W + W)) brow]> rows))).
  { apply np_setrow_slice_run; try assumption; try nia.
    unfold expected_segment. rewrite length_fmap. exact Hsrc. }
  eexists. unfold copy_ext, bind, lift. rewrite He.
  replace (amp_at self p j + 1 - 1) with (amp_at self p j) by lia.
  rewrite Hf.
  set (f := flip_of self (amp_at self p j)) in *.
  unfold source_row, mirrors_columns in Hcal.
  assert (f = 0 \/ f = 1 \/ f = 2 \/ f = 3) as [Hf0|[Hf0|[Hf0|Hf0]]] by lia;
    rewrite Hf0 in *; cbn [Z.eqb Pos.eqb orb] in *;
    rewrite ?copy_if_false;
    rewrite (copy_if_run _ _ _ _ _ _ _ _ Hcal Hset);
    rewrite ?copy_if_false; unfold ret;
    (replace (j * W + W) with ((j + 1) * W) by lia); reflexivity.
Qed.

Local Abbreviation copy_line' :=
  (copy_line (jpg_ext fp) (amp_cfg fp) (data self) (offsets self)
     (scales self) pre1 pre2 over2 W (numcols_amp fp) (numrows_amp fp) W nx).
Local Abbreviation copy_group' :=
  (copy_group (jpg_ext fp) (amp_cfg fp) (data self) (offsets self)
     (scales self) pre1 pre2 over2 W H (numcols_amp fp) (numrows_amp fp)
     W nx).
Local Abbreviation copy_amplifiers' :=
  (copy_amplifiers (jpg_ext fp) (amp_cfg fp) (data self) (offsets self)
     (scales self) pre1 pre2 over2 W H (numcols_amp fp) (numrows_amp fp)
     W nx ny).

Hypothesis Hfull :
  forall p i j, 0 <= p < ny -> 0 <= i < H -> 0 <= j < nx ->
                Z.of_nat (length (source_segment trim self p i j)) = W.

Lemma copy_line_total p i bdt rows brow :
  0 <= p < ny -> 0 <= i < H ->
  rows !! Z.to_nat (p * H + i) = Some brow ->
  Z.of_nat (length brow) = nx * W ->
  exists b',
    copy_line' (p * nx) (p * H + i) (pre2 + i) (Arr2 bdt rows)
    = (Ok (pre2 + i + 1), b').
Proof.
  intros Hp Hi Hrow Hlen.
  destruct (valid_geometry trim self Hvalid)
    as (_ & Hnx & _ & _ & _ & _ & _ & _ & _ & _ & _ & _ & _ & HW & HH & _).
  destruct (for_each_range_total
              (fun k ls s =>
                 ls = (k - p * nx) * W
                 /\ exists rows' brow',
                     s = Arr2 bdt rows'
                     /\ rows' !! Z.to_nat (p * H + i) = Some brow'
                     /\ Z.of_nat (length brow') = nx * W)
              (copy_ext' (p * H + i) (pre2 + i)) (Z.to_nat nx)
              (p * nx) 0 (Arr2 bdt rows)) as (ls & b' & Hrun & _).
  - split; [lia|]. exists rows, brow. auto.
  - intros k ls s Hk (-> & rows' & brow' & -> & Hrow' & Hlen').
    set (j := k - p * nx).
    replace k with (p * nx + j) by (subst j; lia).
    destruct (copy_ext_run p i j bdt rows' brow') as (b1 & Hb1);
      [first [assumption|lia|apply Hfull; lia]..|].
    exists ((j + 1) * W), b1. split; [exact Hb1|].
    split; [lia|].
    apply (copy_ext_valid trim self Hvalid p i j bdt rows' brow') in Hb1
      as (_ & _ & new & -> & Hnew & _); [|first [assumption|lia]..].
    exists (<[Z.to_nat (p * H + i) := new]> rows'), new.
    split; [reflexivity|].
    split; [apply list_lookup_insert_eq; eapply lookup_lt_Some, Hrow'|lia].
  - exists b'. unfold copy_line, bind.
    replace (p * nx + Z.of_nat (Z.to_nat nx)) with (p * nx + nx) in Hrun by lia.
    rewrite Hrun. reflexivity.
Qed.

Lemma copy_group_total p bdt rows :
  0 <= p < ny ->
  Z.of_nat (length rows) = ny * H ->
  (forall n row, rows !! n = Some row -> Z.of_nat (length row) = nx * W) ->
  exists b', copy_group' p tt (Arr2 bdt rows) = (Ok tt, b').
Proof.
  intros Hp Hl Hc.
  destruct (valid_geometry trim self Hvalid)
    as (_ & Hnx & _ & _ & _ & _ & _ & _ & _ & _ & _ & _ & _ & HW & HH & _).
  destruct (for_each_range_total
              (fun line sl s =>
                 sl = pre2 + (line - p * H)
                 /\ exists rows',
                     s = Arr2 bdt rows'
                     /\ Z.of_nat (length rows') = ny * H
                     /\ (forall n row, rows' !! n = Some row ->
                                       Z.of_nat (length row) = nx * W))
              (copy_line' (p * nx)) (Z.to_nat H)
              (p * H) pre2 (Arr2 bdt rows)) as (sl & b' & Hrun & _).
  - split; [lia|]. exists rows. auto.
  - intros line sl s Hline (-> & rows' & -> & Hl' & Hc').
    set (i := line - p * H).
    replace line with (p * H + i) by (subst i; lia).
    assert (Hin : (Z.to_nat (p * H + i) < length rows')%nat) by nia.
    destruct (lookup_lt_is_Some_2 _ _ Hin) as [brow Hbrow].
    destruct (copy_line_total p i bdt rows' brow) as (b1 & Hb1);
      [first [assumption|lia|eapply Hc', Hbrow]..|].
    exists (pre2 + i + 1), b1. split; [exact Hb1|].
    split; [lia|].
    apply (copy_line_valid trim self Hvalid p i bdt rows' brow) in Hb1
      as (_ & rows2 & brow2 & -> & Hl2 & Hfr2 & Hrow2 & Hlen2 & _);
      [|first [assumption|lia|eapply Hc', Hbrow]..].
    exists rows2. split; [reflexivity|]. split; [lia|].
    intros n row Hn.
    destruct (decide (n = Z.to_nat (p * H + i))) as [->|Hne].
    + rewrite Hrow2 in Hn. injection Hn as <-. exact Hlen2.
    + rewrite Hfr2 in Hn by exact Hne. eapply Hc', Hn.
  - exists b'. unfold copy_group, bind.
    replace (p * H + Z.of_nat (Z.to_nat H)) with (p * H + H) in Hrun by lia.
    rewrite Hrun. reflexivity.
Qed.

(** The copy loops return from a buffer of the assembled shape. *)
Lemma copy_amplifiers_total bdt rows :
  Z.of_nat (length rows) = ny * H ->
  (forall n row, rows !! n = Some row -> Z.of_nat (length row) = nx * W) ->
  exists b', copy_amplifiers' (Arr2 bdt rows) = (Ok tt, b').
Proof.
  intros Hl Hc.
  destruct (valid_geometry trim self Hvalid)
    as (_ & Hnx & Hny & _ & _ & _ & _ & _ & _ & _ & _ & _ & _ & HW & HH & _).
  destruct (for_each_range_total
              (fun p (_ : unit) s =>
                 exists rows',
                   s = Arr2 bdt rows'
                   /\ Z.of_nat (length rows') = ny * H
                   /\ (forall n row, rows' !! n = Some row ->
                                     Z.of_nat (length row) = nx * W))
              copy_group' (Z.to_nat ny) 0 tt (Arr2 bdt rows))
    as ([] & b' & Hrun & _).
  - exists rows. auto.
  - intros p [] s Hp (rows' & -> & Hl' & Hc').
    destruct (copy_group_total p bdt rows') as (b1 & Hb1);
      [first [assumption|lia]..|].
    exists tt, b1. split; [exact Hb1|].
    apply (copy_group_valid trim self Hvalid p bdt rows') in Hb1
      as (rows2 & -> & Hl2 & Hc2 & _); [|first [assumption|lia]..].
    exists rows2. auto.
  - exists b'. unfold copy_amplifiers.
    replace (0 + Z.of_nat (Z.to_nat ny)) with ny in Hrun by lia.
    exact Hrun.
Qed.
End CopyRuns.

(** ** Phases that return *)

Section AssembleRuns.
Context {px : Type} `{!Pixel px}.
Implicit Types self s : Image px.

Lemma np_empty_total dt r c :
  0 <= r -> 0 <= c -> exists b : ndarray px, np_empty dt r c = Ok b.
Proof.
  intros Hr Hc. unfold np_empty.
  replace ((r <? 0) || (c <? 0)) with false by lia. eauto.
Qed.

Lemma np_resize_total (a : ndarray px) n :
  0 <= n -> exists b, np_resize a n = Ok b.
Proof.
  intros Hn. unfold np_resize. replace (n <? 0) with false by lia.
  destruct (_ || _); eauto.
Qed.

Lemma np_reshape_total (a : ndarray px) r c :
  0 <= r -> 0 <= c -> nd_size a = r * c ->
  exists b, np_reshape a r c = Ok b.
Proof.
  intros Hr Hc Hs. unfold np_reshape, nd_size in *.
  replace (r <? 0) with false by lia. replace (c <? 0) with false by lia.
  cbn [andb]. replace (r * c =? _) with true by lia. eauto.
Qed.

Lemma fresh_buffer_run self bf :
  (if negb (from_file self =? 1)
   then np_empty (match nd_dtype (data self) with
                  | float64 => float64
                  | _ => float32
                  end) (size_y self) (size_x self)
   else Ok (buffer self)) = Ok bf ->
  fresh_buffer self
  = (Ok tt,
     set_buffer bf
       (set_asmsize (numcols_image (focalplane self),
                     numrows_image (focalplane self)) self)).
Proof.
  intros Hbf. unfold fresh_buffer, bind, get, modify, lift, ret.
  destruct (negb (from_file self =? 1)).
  - rewrite Hbf. reflexivity.
  - injection Hbf as <-. reflexivity.
Qed.

Lemma resize_buffer_run n s b1 b2 :
  np_resize (buffer s) n = Ok b1 ->
  np_reshape b1 (asmsize s).2 (asmsize s).1 = Ok b2 ->
  resize_buffer n s = (Ok tt, set_buffer b2 s).
Proof.
  intros H1 H2. unfold resize_buffer, bind, get, modify, lift.
  rewrite H1, H2. reflexivity.
Qed.

Lemma trim_margins_run trim s b :
  (let asz := asmsize_of trim s in
   if (trim =? 1) || negb (nd_size (data s) =? nd_size (buffer s))
   then let? b1 := np_resize (buffer s) (asz.1 * asz.2) in
        np_reshape b1 asz.2 asz.1
   else Ok (buffer s)) = Ok b ->
  let fp := focalplane s in
  trim_margins trim s
  = (Ok (margin trim (numcols_underscan fp), margin trim (numcols_overscan fp),
         margin trim (numrows_underscan fp), margin trim (numrows_overscan fp)),
     set_buffer b (set_asmsize (asmsize_of trim s) s)).
Proof.
  intros Hb fp. cbn zeta in Hb.
  unfold trim_margins, asmsize_of, margin in *.
  unfold bind at 1, get. fold fp.
  destruct (trim =? 1); cbn [orb fst snd] in Hb.
  - destruct (np_resize (buffer s) _) as [b1|] eqn:Hr; [|discriminate].
    cbn [rbind] in Hb.
    unfold bind at 1, modify. unfold bind at 1.
    erewrite resize_buffer_run; [reflexivity|exact Hr|exact Hb].
  - unfold bind at 1, modify. unfold bind at 1.
    destruct (negb (nd_size (data s) =? nd_size (buffer s))).
    + destruct (np_resize (buffer s) _) as [b1|] eqn:Hr; [|discriminate].
      cbn [rbind] in Hb.
      erewrite resize_buffer_run; [reflexivity|exact Hr|exact Hb].
    + injection Hb as <-. reflexivity.
Qed.

(** A call whose three phases return, returns. *)
Lemma assemble_run trim self b0 b1 b2 :
  truthy (is_valid self) = true ->
  truthy (assembled self) = false ->
  prepare_buffer trim self = Ok b0 ->
  copy_of trim self b0 = (Ok tt, b1) ->
  np_reshape b1 (asmsize_of trim self).2 (asmsize_of trim self).1 = Ok b2 ->
  assemble trim self = (Ok tt, assembled_state trim self b2).
Proof.
  intros Hv Ha Hprep Hcopy Hre.
  unfold prepare_buffer in Hprep.
  destruct (if negb (from_file self =? 1) then _ else _) as [bf|] eqn:Hbf;
    [|discriminate].
  cbn [rbind] in Hprep.
  unfold assemble. unfold bind at 1, get. rewrite Hv, Ha. cbn [negb].
  rewrite (bind_run _ _ _ _ _ (fresh_buffer_run self bf Hbf)).
  rewrite (bind_run _ _ _ _ _
             (trim_margins_run trim
                (set_buffer bf (set_asmsize _ self)) b0 Hprep)).
  cbn [focalplane set_buffer set_asmsize].
  unfold bind at 1, modify. unfold bind at 1. unfold bind at 1.
  unfold bind at 1. unfold on_buffer.
  cbn [buffer set_buffer set_lineLen set_startLine set_stopLine set_asmsize
         data offsets scales focalplane].
  unfold copy_of, dst_amp_cols, dst_amp_rows in Hcopy. rewrite Hcopy.
  unfold bind at 1. unfold reshape_buffer, bind at 1, get.
  unfold bind at 1, lift.
  cbn [buffer asmsize set_buffer set_lineLen set_startLine set_stopLine
         set_asmsize].
  change (asmsize_of trim (set_buffer bf (set_asmsize _ self)))
    with (asmsize_of trim self).
  rewrite Hre. unfold modify, bind.
  unfold assembled_state, asmsize_of, dst_amp_cols, dst_amp_rows, margin.
  destruct (trim =? 1); reflexivity.
Qed.
End AssembleRuns.

(** ** When assemble returns and when it cannot *)

Section AssembleTotal.
Context {px : Type} `{!Pixel px}.
Implicit Types self s : Image px.

Lemma prepare_buffer_total trim self :
  valid_image self = true ->
  exists b0, prepare_buffer trim self = Ok b0.
Proof.
  intros Hvalid.
  destruct (valid_geometry trim self Hvalid)
    as (_ & Hnx & Hny & _ & _ & Huc & Hoc & Hur & Hor & Hc & Hr & Hsx & Hsy
        & HW & HH & Hasz).
  unfold prepare_buffer. rewrite Hasz. cbn [fst snd].
  assert (Hbf : exists bf,
             (if negb (from_file self =? 1)
              then np_empty (match nd_dtype (data self) with
                             | float64 => float64
                             | _ => float32
                             end) (size_y self) (size_x self)
              else Ok (buffer self)) = Ok bf).
  { destruct (negb _); [|eauto]. apply np_empty_total; nia. }
  destruct Hbf as [bf ->]. cbn [rbind].
  destruct (_ || _); [|eauto].
  destruct (np_resize_total bf
              (num_ser_amps_det (focalplane self)
               * dst_amp_cols trim (focalplane self)
               * (num_par_amps_det (focalplane self)
                  * dst_amp_rows trim (focalplane self))))
    as [b Hb]; [nia|].
  rewrite Hb. cbn [rbind].
  apply np_resize_size in Hb as (_ & Hsize & _).
  apply np_reshape_total; nia.
Qed.

Lemma assemble_total_full trim self :
  valid_image self = true ->
  truthy (assembled self) = false ->
  (let fp := focalplane self in
   forall p i j,
     0 <= p < num_par_amps_det fp -> 0 <= i < dst_amp_rows trim fp ->
     0 <= j < num_ser_amps_det fp ->
     Z.of_nat (length (source_segment trim self p i j))
     = dst_amp_cols trim fp) ->
  exists self', assemble trim self = (Ok tt, self').
Proof.
  intros Hvalid Ha Hfull.
  destruct (valid_geometry trim self Hvalid)
    as (Hv & Hnx & Hny & _ & _ & _ & _ & _ & _ & _ & _ & _ & _ & HW & HH & Hasz).
  destruct (prepare_buffer_total trim self Hvalid) as [b0 Hprep].
  pose proof (prepare_buffer_shape trim self b0 Hvalid Hprep) as Hshape.
  cbn zeta in Hshape.
  apply shape_is_spec in Hshape as (bdt & rows0 & -> & Hl0 & Hc0).
  assert (Hc0' : forall n row, rows0 !! n = Some row ->
                   Z.of_nat (length row)
                   = num_ser_amps_det (focalplane self)
                     * dst_amp_cols trim (focalplane self)).
  { intros n row Hn. rewrite Forall_forall in Hc0.
    eapply Hc0, list_elem_of_lookup_2, Hn. }
  destruct (copy_amplifiers_total trim self Hvalid Hfull bdt rows0 Hl0 Hc0')
    as [b1 Hcopy].
  pose proof Hcopy as Hcopy'.
  apply (copy_amplifiers_valid trim self Hvalid bdt rows0 b1 Hl0 Hc0') in Hcopy'
    as (rows & -> & Hl & Hc & _).
  assert (Hshape : shape_is (Arr2 bdt rows)
                     (num_par_amps_det (focalplane self)
                      * dst_amp_rows trim (focalplane self))
                     (num_ser_amps_det (focalplane self)
                      * dst_amp_cols trim (focalplane self)) = true).
  { apply shape_is_spec. exists bdt, rows. split; [reflexivity|].
    split; [exact Hl|]. apply Forall_forall. intros row Hrow.
    apply list_elem_of_lookup_1 in Hrow as [n Hn]. eapply Hc, Hn. }
  eexists. eapply (assemble_run trim self _ _ _ Hv Ha Hprep Hcopy).
  rewrite Hasz. cbn [fst snd]. apply np_reshape_id; [nia|exact Hshape].
Qed.

(** X1. On a valid image not yet assembled, [assemble] returns
    whenever it is called without trimming, or the underscan rows are
    no more than the overscan rows, or no amplifier has flip code
    3. *)
Theorem assemble_returns_on_valid trim self :
  valid_image self = true ->
  truthy (assembled self) = false ->
  (trim <> 1
   \/ numrows_underscan (focalplane self) <= numrows_overscan (focalplane self)
   \/ Forall (fun f => f <> 3) (amp_cfg (focalplane self))) ->
  exists self', assemble trim self = (Ok tt, self').
Proof.
  intros Hvalid Ha Hcond.
  apply assemble_total_full; [assumption..|].
  intros fp p i j Hp Hi Hj.
  apply (source_segment_full trim self Hvalid p i j Hp Hj Hi).
  destruct Hcond as [Ht|[Hle|Hno]].
  - left. unfold margin. replace (trim =? 1) with false by lia. lia.
  - left. unfold margin. destruct (trim =? 1); [exact Hle|lia].
  - right. unfold flip_of.
    destruct (amp_cfg (focalplane self) !! Z.to_nat (amp_at self p j))
      as [f|] eqn:Hf; cbn; [|lia].
    rewrite Forall_forall in Hno. eapply Hno, list_elem_of_lookup_2, Hf.
Qed.

(** X2. With trimming, an amplifier of flip code 3 and no overscan
    columns cannot be assembled when the underscan rows exceed the
    overscan rows and are at most half the raw rows: the row that
    flip code 3 mirrors to falls one before the first raw row, where
    Python cuts an empty slice, and [assemble] raises. *)
Theorem assemble_raises_on_flip3 self p j :
  let fp := focalplane self in
  valid_image self = true ->
  truthy (assembled self) = false ->
  0 <= p < num_par_amps_det fp -> 0 <= j < num_ser_amps_det fp ->
  flip_of self (amp_at self p j) = 3 ->
  numcols_overscan fp = 0 ->
  numcols_underscan fp < numcols_amp fp ->
  numrows_overscan fp < numrows_underscan fp ->
  2 * numrows_underscan fp <= numrows_amp fp ->
  exists e, (assemble 1 self).1 = Raise e.
Proof.
  intros fp Hvalid Ha Hp Hj Hf Hoc Huc Hrows Hhalf.
  destruct (assemble 1 self) as [[[]|e] self'] eqn:Hrun; [|eauto].
  exfalso.
  destruct (assemble_valid 1 self self' Hvalid Ha Hrun) as (_ & _ & Hdone).
  destruct (valid_geometry 1 self Hvalid)
    as (_ & _ & _ & _ & _ & Huc0 & _ & Hur0 & Hor0 & _ & _ & _ & _ & _ & _ & _).
  destruct (valid_amp self p j Hvalid Hp Hj)
    as (_ & _ & _ & _ & _ & Hlen & _ & _).
  fold fp in Hdone, Huc0, Hur0, Hor0, Hlen.
  set (i := numrows_amp fp - 2 * numrows_underscan fp).
  assert (Hi : 0 <= i < dst_amp_rows 1 fp).
  { subst i. unfold dst_amp_rows, margin. cbn [Z.eqb Pos.eqb]. lia. }
  destruct (Hdone p i j Hp Hi Hj) as [_ Hsrc].
  unfold source_segment in Hsrc. fold fp in Hsrc. rewrite Hf in Hsrc.
  change (mirrors_columns 3) with true in Hsrc. cbv iota in Hsrc.
  rewrite length_reverse in Hsrc.
  unfold source_row, dst_amp_cols, margin in Hsrc.
  cbn [Z.eqb Pos.eqb] in Hsrc. rewrite Hoc in Hsrc.
  unfold py_slice, slice_bound in Hsrc.
  rewrite length_take, length_drop in Hsrc.
  set (X := numcols_amp fp) in *. set (Y := numrows_amp fp) in *.
  set (u := numrows_underscan fp) in *. set (c := numcols_underscan fp) in *.
  replace ((Y - (u + i) - u - 1) * X + c) with (c - X) in Hsrc
    by (subst i; nia).
  replace (c - X + (X - c - 0)) with 0 in Hsrc by lia.
  assert (HL : X <= X * Y) by nia.
  replace (c - X <? 0) with true in Hsrc by lia.
  replace (0 <? 0) with false in Hsrc by lia.
  lia.
Qed.
End AssembleTotal.

Lemma assemble_returns_on_valid_witness :
  let self := Scenario.two_amps [0; 1] in
  valid_image self = true
  /\ truthy (assembled self) = false
  /\ Forall (fun f => f <> 3) (amp_cfg (focalplane self))
  /\ exists self', assemble 1 self = (Ok tt, self').
Proof.
  intros self.
  assert (Hv : valid_image self = true) by (vm_compute; reflexivity).
  assert (Hf : Forall (fun f => f <> 3) (amp_cfg (focalplane self)))
    by (repeat constructor; discriminate).
  split; [exact Hv|]. split; [reflexivity|]. split; [exact Hf|].
  exact (assemble_returns_on_valid 1 self Hv eq_refl (or_intror (or_intror Hf))).
Defined.

Lemma assemble_raises_on_flip3_witness :
  let self := Scenario.flip3 in
  valid_image self = true
  /\ truthy (assembled self) = false
  /\ flip_of self (amp_at self 0 0) = 3
  /\ exists e, (assemble 1 self).1 = Raise e.
Proof.
  intros self.
  assert (Hv : valid_image self = true) by (vm_compute; reflexivity).
  split; [exact Hv|]. split; [reflexivity|]. split; [reflexivity|].
  apply (assemble_raises_on_flip3 self 0 0 Hv eq_refl);
    vm_compute; try split; congruence.
Defined.

(** ** What the two methods leave alone *)

Section FrameExtras.
Context {px : Type} `{!Pixel px}.
Implicit Types self s : Image px.

(** X3. Whether it returns or raises, [assemble] leaves the raw
    data, the scales and offsets, the focal plane, the sizes, the
    validity mark, [from_file] and the stored trim preference as it
    found them. *)
Theorem assemble_keeps_inputs trim self :
  inputs_kept self (assemble trim self).2.
Proof. apply (assemble_raises_cleanly trim self). Qed.

(** X4. When [assemble] raises, at whatever point, the flags
    [assembled] and [trimmed] are what they were before the call. *)
Theorem failed_assemble_keeps_flags trim self e :
  (assemble trim self).1 = Raise e ->
  assembled (assemble trim self).2 = assembled self
  /\ trimmed (assemble trim self).2 = trimmed self.
Proof.
  intros He. destruct (assemble_raises_cleanly trim self) as [_ Hf].
  destruct (Hf e He) as (_ & H1 & H2). auto.
Qed.

Ltac kept := intros; unfold assembly_kept; cbn; tauto.

Local Abbreviation ak_bind := (keeps_bind assembly_kept assembly_kept_trans).
Local Abbreviation ak_ret := (keeps_ret assembly_kept assembly_kept_refl).
Local Abbreviation ak_lift := (keeps_lift assembly_kept assembly_kept_refl).

Lemma ak_set_chan gains offs chan u :
  keeps assembly_kept (@set_chan px _ gains offs chan u).
Proof.
  unfold set_chan.
  apply ak_bind; [apply ak_lift|intros g].
  apply keeps_get; intros s0.
  apply ak_bind; [apply ak_lift|intros s1].
  apply ak_bind; [apply keeps_modify; kept|intros _].
  apply ak_bind; [apply ak_lift|intros o].
  apply keeps_get; intros s2.
  apply ak_bind; [apply ak_lift|intros s3].
  apply keeps_modify; kept.
Qed.

Lemma ak_set_scaling og oo : keeps assembly_kept (@set_scaling px _ og oo).
Proof.
  unfold set_scaling. apply keeps_get; intros s0.
  apply ak_bind; [apply keeps_modify; kept|intros _].
  apply keeps_get; intros s1.
  apply ak_bind; [apply ak_lift|intros sc].
  apply ak_bind; [apply keeps_modify; kept|intros _].
  apply ak_bind; [apply ak_lift|intros o0].
  apply ak_bind; [apply keeps_modify; kept|intros _].
  apply keeps_for_each;
    [apply assembly_kept_refl|apply assembly_kept_trans|].
  intros x acc. apply ak_set_chan.
Qed.

(** X5. Whether it returns or raises, [set_scaling] leaves the
    buffer, the assembled size, the flags [assembled] and [trimmed],
    the raw data and the geometry as it found them. *)
Theorem set_scaling_keeps_assembly og oo self :
  assembly_kept self (set_scaling og oo self).2.
Proof. apply ak_set_scaling. Qed.

(** X6. New scales and offsets do not reach an image that is already
    assembled: after [assemble] has returned, a [set_scaling],
    whatever its outcome, followed by [assemble] leaves the buffer of
    the first assembly. *)
Theorem recalibration_is_not_applied trim trim' og oo self self1 :
  assemble trim self = (Ok tt, self1) ->
  let self2 := (set_scaling og oo self1).2 in
  assemble trim' self2 = (Ok tt, self2)
  /\ buffer self2 = buffer self1
  /\ asmsize self2 = asmsize self1.
Proof.
  intros Hrun self2.
  apply assemble_ok_flags in Hrun as [Hv Ha].
  destruct (ak_set_scaling og oo self1)
    as (Hv' & _ & _ & Hb & _ & _ & _ & Ha' & _ & Hz & _).
  fold self2 in Hv', Hb, Ha', Hz.
  split; [|split; assumption].
  apply assemble_noop; [rewrite Hv'|rewrite Ha']; assumption.
Qed.
End FrameExtras.

Lemma failed_assemble_keeps_flags_witness :
  (assemble 1 Scenario.flip3).1 = Raise ValueError
  /\ assembled (assemble 1 Scenario.flip3).2 = assembled Scenario.flip3
  /\ trimmed (assemble 1 Scenario.flip3).2 = trimmed Scenario.flip3.
Proof.
  assert (He : (assemble 1 Scenario.flip3).1 = Raise ValueError)
    by (vm_compute; reflexivity).
  split; [exact He|].
  exact (failed_assemble_keeps_flags 1 Scenario.flip3 ValueError He).
Defined.

Lemma recalibration_is_not_applied_witness :
  let self := Scenario.two_amps [0; 1] in
  exists self1,
    assemble 1 self = (Ok tt, self1)
    /\ let self2 := (set_scaling (Some [2; 2]) (Some [5; 5]) self1).2 in
       assemble 1 self2 = (Ok tt, self2)
       /\ buffer self2 = buffer self1
       /\ asmsize self2 = asmsize self1.
Proof.
  intros self. eexists.
  assert (Hrun : assemble 1 self = (Ok tt, ?[s1])) by (vm_compute; reflexivity).
  split; [exact Hrun|].
  exact (recalibration_is_not_applied 1 1 (Some [2; 2]) (Some [5; 5]) self _ Hrun).
Defined.

(** ** The outcome of set_scaling *)

Section ScalingOutcome.
Context {px : Type} `{!Pixel px}.
Implicit Types self s : Image px.

Lemma np_setitem_out (a : list px) (i : Z) v :
  Z.of_nat (length a) <= i -> np_setitem a i v = Raise IndexError.
Proof.
  intros Hi. unfold np_setitem.
  replace (i <? 0) with false by lia.
  replace ((i <? 0) || (Z.of_nat (length a) <=? i)) with true by lia.
  reflexivity.
Qed.

(** A pass of the loop over [chan] at an index beyond one of the four
    sequences raises [IndexError]. *)
Lemma set_chan_raises gains offs chan s :
  0 <= chan ->
  Z.of_nat (length gains) <= chan \/ Z.of_nat (length (scales s)) <= chan
  \/ Z.of_nat (length offs) <= chan \/ Z.of_nat (length (offsets s)) <= chan ->
  (set_chan gains offs chan tt s).1 = Raise IndexError.
Proof.
  intros Hc Hout. unfold set_chan, bind, lift, get, modify.
  rewrite !py_getitem_nonneg by lia.
  destruct (gains !! Z.to_nat chan) as [g|] eqn:Hg; [|reflexivity].
  apply lookup_lt_Some in Hg.
  destruct (Z.le_gt_cases (Z.of_nat (length (scales s))) chan) as [Hs|Hs];
    [rewrite np_setitem_out by lia; reflexivity|].
  rewrite np_setitem_in by lia.
  destruct (offs !! Z.to_nat chan) as [o|] eqn:Ho; [|reflexivity].
  apply lookup_lt_Some in Ho. cbn [offsets set_scales].
  destruct (Z.le_gt_cases (Z.of_nat (length (offsets s))) chan) as [Hf|Hf];
    [rewrite np_setitem_out by lia; reflexivity|].
  lia.
Qed.

Lemma set_scaling_index_error (og oo : option (list px)) self :
  let k := Z.to_nat (nd_len (data self)) in
  let n := Z.to_nat (numamps_image (focalplane self)) in
  let gains := default (replicate k pone) og in
  let offs := default (replicate k pzero) oo in
  0 <= numamps_image (focalplane self) ->
  (n < k \/ length gains < k \/ length offs < k)%nat ->
  (set_scaling og oo self).1 = Raise IndexError.
Proof.
  intros k n gains offs Hn Hshort.
  unfold set_scaling, bind, get, modify, lift, np_filled.
  cbn [num_extensions set_num_extensions].
  replace (numamps_image (focalplane self) <? 0) with false by lia.
  cbn [data set_offsets set_scales set_num_extensions focalplane].
  fold k n.
  replace (match og with Some g => g | None => replicate k pone end)
    with gains by (subst gains; destruct og; reflexivity).
  replace (match oo with Some o => o | None => replicate k pzero end)
    with offs by (subst offs; destruct oo; reflexivity).
  assert (Hlen : 0 <= nd_len (data self)).
  { unfold nd_len. destruct (data self); lia. }
  set (m := (n `min` (length gains `min` length offs))%nat).
  unfold range.
  replace (nd_len (data self) - 0)
    with (Z.of_nat m + Z.of_nat (k - m)) by lia.
  rewrite seqZ_app, for_each_app by lia. unfold bind at 1.
  rewrite set_chan_loop;
    cbn [scales offsets set_scales set_offsets];
    rewrite ?length_replicate; try lia.
  rewrite seqZ_cons by lia. cbn [for_each]. unfold bind at 1.
  match goal with
  | |- (let (_, _) := set_chan ?g ?o ?c tt ?s in _).1 = _ =>
      pose proof (set_chan_raises g o c s) as Hr;
      destruct (set_chan g o c tt s) as [[[]|e] s']
  end.
  - cbn [fst scales offsets set_scales set_offsets] in Hr.
    rewrite !length_app, !length_fmap, !length_take, !length_drop,
      !length_replicate in Hr.
    discriminate Hr; lia.
  - cbn [fst scales offsets set_scales set_offsets] in Hr.
    rewrite !length_app, !length_fmap, !length_take, !length_drop,
      !length_replicate in Hr.
    cbn [fst]. apply Hr; lia.
Qed.

(** X7. The outcome of [set_scaling] depends on three lengths only:
    it raises [ValueError] when the amplifier count is negative;
    otherwise it returns when the amplifier count, the gains and the
    offsets (those given, or the defaults of [len(self.data)]
    entries) all cover the [len(self.data)] channels of the raw
    data, and raises [IndexError] when one of them falls short. *)
Theorem set_scaling_outcome (og oo : option (list px)) self :
  let k := nd_len (data self) in
  let n := numamps_image (focalplane self) in
  let gains := default (replicate (Z.to_nat k) pone) og in
  let offs := default (replicate (Z.to_nat k) pzero) oo in
  (set_scaling og oo self).1
  = if n <? 0 then Raise ValueError
    else if (k <=? n) && (k <=? Z.of_nat (length gains))
            && (k <=? Z.of_nat (length offs))
         then Ok tt
         else Raise IndexError.
Proof.
  intros k n gains offs.
  assert (Hk : 0 <= k) by (subst k; unfold nd_len; destruct (data self); lia).
  destruct (n <? 0) eqn:Hn.
  - unfold set_scaling, bind, get, modify, lift, np_filled.
    cbn [num_extensions set_num_extensions]. fold n. rewrite Hn. reflexivity.
  - destruct ((k <=? n) && _ && _) eqn:Hc.
    + apply andb_true_iff in Hc as [Hc H3].
      apply andb_true_iff in Hc as [H1 H2].
      rewrite (set_scaling_run og oo self);
        [reflexivity|subst k n gains offs; lia..].
    + apply (set_scaling_index_error og oo self); [subst n; lia|].
      subst k n gains offs.
      destruct (_ <=? numamps_image _) eqn:H1; [|lia].
      destruct (_ <=? Z.of_nat (length (default _ og))) eqn:H2; [|lia].
      destruct (_ <=? Z.of_nat (length (default _ oo))) eqn:H3;
        [discriminate|lia].
Qed.

(** X8. [set_scaling()] without arguments, when the amplifier count
    is the number of raw amplifiers: every scale is [1.0] and every
    offset [0.0], as float32 holds them. *)
Theorem set_scaling_without_arguments self :
  numamps_image (focalplane self) = nd_len (data self) ->
  exists self',
    set_scaling None None self = (Ok tt, self')
    /\ scales self'
       = replicate (Z.to_nat (nd_len (data self))) (to_f32 pone)
    /\ offsets self'
       = replicate (Z.to_nat (nd_len (data self))) (to_f32 pzero).
Proof.
  intros Hn.
  assert (Hk : 0 <= nd_len (data self))
    by (unfold nd_len; destruct (data self); lia).
  eexists. split; [|split].
  - apply (set_scaling_run None None self);
      cbn [default from_option]; rewrite ?length_replicate; lia.
  - cbn [scales set_scales set_offsets default from_option id].
    rewrite Hn, Nat.sub_diag, take_replicate, Nat.min_id, fmap_replicate.
    apply app_nil_r.
  - cbn [offsets set_scales set_offsets default from_option id].
    rewrite Hn, Nat.sub_diag, take_replicate, Nat.min_id, fmap_replicate.
    apply app_nil_r.
Qed.
End ScalingOutcome.

Lemma set_scaling_without_arguments_witness :
  let self := Scenario.two_amps [0; 1] in
  numamps_image (focalplane self) = nd_len (data self)
  /\ exists self',
      set_scaling None None self = (Ok tt, self')
      /\ scales self' = [1; 1] /\ offsets self' = [0; 0].
Proof.
  intros self. split; [reflexivity|].
  exact (set_scaling_without_arguments self eq_refl).
Defined.

(** ** Default calibration *)

Section DefaultCalibration.
Context {px : Type} `{!Pixel px}.
Implicit Types self s : Image px.

(** Validity looks at the lengths of the scales and offsets only. *)
Lemma valid_image_recalibrated self (sc off : list px) ne :
  valid_image self = true ->
  length sc = length (scales self) ->
  length off = length (offsets self) ->
  valid_image (set_offsets off (set_scales sc (set_num_extensions ne self)))
  = true.
Proof.
  intros Hvalid Hsc Hoff. unfold valid_image in *.
  cbn [focalplane data is_valid size_x size_y from_file buffer scales offsets
         set_offsets set_scales set_num_extensions].
  rewrite Hsc, Hoff. exact Hvalid.
Qed.

(** X9. With arithmetic in which subtracting [0.0] and multiplying
    by [1.0] change nothing, [set_scaling()] without arguments
    followed by [assemble] copies the raw pixels unchanged: every
    destination segment is the extracted raw segment itself. *)
Theorem default_calibration_copies_raw trim self self' p i j :
  (forall v : px, pmul (psub v (to_f32 pzero)) (to_f32 pone) = v) ->
  valid_image self = true ->
  truthy (assembled self) = false ->
  numamps_image (focalplane self) = nd_len (data self) ->
  assemble trim (set_scaling None None self).2 = (Ok tt, self') ->
  let fp := focalplane self in
  0 <= p < num_par_amps_det fp ->
  0 <= i < dst_amp_rows trim fp ->
  0 <= j < num_ser_amps_det fp ->
  nd_segment (buffer self') (p * dst_amp_rows trim fp + i)
    (j * dst_amp_cols trim fp) (dst_amp_cols trim fp)
  = source_segment trim self p i j.
Proof.
  intros Harith Hvalid Ha Hn Hrun fp Hp Hi Hj.
  assert (Hk : 0 <= nd_len (data self))
    by (unfold nd_len; destruct (data self); lia).
  assert (Hlens : Z.of_nat (length (scales self)) = nd_len (data self)
                  /\ Z.of_nat (length (offsets self)) = nd_len (data self)).
  { unfold valid_image in Hvalid. rewrite !andb_true_iff in Hvalid.
    destruct Hvalid as [[[_ H1] H2] _]. lia. }
  rewrite (set_scaling_run None None self) in Hrun;
    cbn [default from_option]; rewrite ?length_replicate; try lia.
  cbn [snd default from_option] in Hrun.
  rewrite Hn, Nat.sub_diag, !take_replicate, !Nat.min_id, !fmap_replicate,
    !app_nil_r in Hrun.
  set (k := Z.to_nat (nd_len (data self))) in *.
  set (s1 := set_offsets _ _) in Hrun.
  assert (Hv1 : valid_image s1 = true).
  { apply valid_image_recalibrated; [exact Hvalid|..];
      rewrite length_replicate; lia. }
  destruct (assemble_valid trim s1 self' Hv1 Ha Hrun) as (_ & _ & Hdone).
  destruct (Hdone p i j Hp Hi Hj) as [Hseg _].
  change (focalplane s1) with fp in Hseg. rewrite Hseg.
  unfold expected_segment.
  change (source_segment trim s1 p i j) with (source_segment trim self p i j).
  destruct (valid_amp self p j Hvalid Hp Hj) as (Hamp & _ & _ & _ & _ & _ & Ho & _).
  apply py_getitem_ok_nonneg in Ho; [|lia]. apply lookup_lt_Some in Ho.
  change (amp_at s1 p j) with (amp_at self p j).
  assert (Hcal : forall v, calibrate s1 (amp_at self p j) v = v).
  { intros v. unfold calibrate, offset_of, scale_of. subst s1.
    cbn [offsets scales set_offsets set_scales].
    rewrite !lookup_replicate_2 by lia. cbn [default from_option id].
    apply Harith. }
  rewrite <- (list_fmap_id (source_segment trim self p i j)) at 2.
  apply list_fmap_ext. intros _ v _. apply Hcal.
Qed.
End DefaultCalibration.

Lemma default_calibration_copies_raw_witness :
  let self := Scenario.two_amps [0; 1] in
  exists self',
    (forall v : Z, pmul (psub v (to_f32 pzero)) (to_f32 pone) = v)
    /\ valid_image self = true
    /\ truthy (assembled self) = false
    /\ numamps_image (focalplane self) = nd_len (data self)
    /\ assemble 1 (set_scaling None None self).2 = (Ok tt, self')
    /\ nd_segment (buffer self') 1 3 3 = [223; 222; 221].
Proof.
  intros self. eexists.
  assert (Har : forall v : Z, pmul (psub v (to_f32 pzero)) (to_f32 pone) = v)
    by (intros v; cbn; lia).
  assert (Hv : valid_image self = true) by (vm_compute; reflexivity).
  assert (Hrun : assemble 1 (set_scaling None None self).2 = (Ok tt, ?[s']))
    by (vm_compute; reflexivity).
  split; [exact Har|]. split; [exact Hv|]. split; [reflexivity|].
  split; [reflexivity|]. split; [exact Hrun|].
  apply (default_calibration_copies_raw 1 self _ 0 1 1 Har Hv eq_refl eq_refl Hrun);
    vm_compute; split; congruence.
Defined.

(** ** Writing an image to disk *)

Section ReplaceFacts.

Lemma replace_absent old new s :
occurs old s = false -> py_replace old new s = s.
Proof.
unfold py_replace. induction s as [|c rest IH]; [reflexivity|].
intros Hocc. cbn [occurs] in Hocc.
apply orb_false_iff in Hocc as [Hp Hrest].
cbn [replace_from]. rewrite Hp, (IH Hrest). reflexivity.
Qed.

Lemma prefix_bin_app b :
String.prefix ".bin" (String.append b ".bin") = true ->
b = EmptyString \/ String.prefix ".bin" b = true.
Proof.
intros Hp.
destruct b as [|c1 [|c2 [|c3 [|c4 b]]]]; cbv [String.append] in Hp;
  cbn -[Ascii.ascii_dec] in *; auto;
  repeat match type of Hp with
         | context [Ascii.ascii_dec ?a ?b] =>
             destruct (Ascii.ascii_dec a b); [subst|discriminate Hp]
         end;
  try discriminate; auto.
right. destruct b; reflexivity.
Qed.

Lemma replace_bin_suffix base :
occurs ".bin" base = false ->
py_replace ".bin" ".OK" (String.append base ".bin")
= String.append base ".OK".
Proof.
unfold py_replace. induction base as [|c b IH]; [reflexivity|].
intros Hocc. cbn [occurs] in Hocc.
apply orb_false_iff in Hocc as [Hp Hrest].
change (String.append (String c b) ".bin")
  with (String c (String.append b ".bin")).
cbn [replace_from].
destruct (String.prefix ".bin" (String c (String.append b ".bin"))) eqn:Hq.
- apply (prefix_bin_app (String c b)) in Hq as [Hq|Hq]; congruence.
- rewrite (IH Hrest). reflexivity.
Qed.
End ReplaceFacts.

Section WorldFacts.
Context {px : Type}.
Implicit Types w : World px.

Lemma set_remove_faults_same w : set_remove_faults (remove_faults w) w = w.
Proof. destruct w; reflexivity. Qed.

Lemma path_exists_file path w c :
entries w !! path = Some (File c) -> path_exists path w = true.
Proof.
intros Hf. unfold path_exists. apply bool_decide_eq_true. eauto.
Qed.

Lemma path_exists_deleted path w v :
path_exists path (set_entries (delete path (entries w)) v) = false.
Proof.
unfold path_exists. apply bool_decide_eq_false. cbn.
rewrite lookup_delete_eq. intros [? ?]. discriminate.
Qed.

Lemma path_exists_faults path w l :
path_exists path (set_remove_faults l w) = path_exists path w.
Proof. reflexivity. Qed.
End WorldFacts.

Section RetryFacts.
Context {px : Type} `{!Pixel px} `{!Outside px}.
Implicit Types w : World px.

(** The loop is left with [loop] at most ten. *)
Lemma remove_previous_bound left fn loop s w loop' s' w' :
loop <= 10 ->
remove_previous left fn loop s w = (Returned (loop', s'), w') ->
loop' <= 10.
Proof.
revert loop s w. induction left as [|left IH]; intros loop s w Hle Hrun.
- cbn in Hrun. injection Hrun as <- _ _. exact Hle.
- cbn [remove_previous] in Hrun.
  destruct (loop <? 10) eqn:Hlt.
  + unfold io_try, io_bind, io_ret in Hrun.
    destruct (os_remove fn w) as [[[]|e] w1].
    * injection Hrun as <- _ _. exact Hle.
    * eapply IH; [|exact Hrun]. lia.
  + injection Hrun as <- _ _. exact Hle.
Qed.

(** [write_as] returns [None]. *)
Lemma write_as_returns fn ft w r w' :
write_as fn ft w = (Returned r, w') -> r = RNone.
Proof.
unfold write_as, io_bind, io_get, io_ret. intros Hrun.
repeat match type of Hrun with
       | context [match ?m ?x with _ => _ end] =>
           destruct (m x) as [[?|?] ?]; try discriminate
       | context [if ?b then _ else _] => destruct b
       end;
  try (injection Hrun as <- _; reflexivity).
Qed.

(** As many refused deletions as the loop has turns left. *)
Lemma remove_previous_refused n fn loop s w c :
entries w !! fn = Some (File c) ->
take n (remove_faults w) = replicate n true ->
loop + Z.of_nat n <= 10 ->
exists s',
  remove_previous n fn loop s w
  = (Returned (loop + Z.of_nat n, s'),
     set_remove_faults (drop n (remove_faults w)) w).
Proof.
revert loop s w. induction n as [|n IH]; intros loop s w Hf Hfaults Hle.
- exists s. cbn [remove_previous Z.of_nat]. unfold io_ret.
  change (drop 0 (remove_faults w)) with (remove_faults w).
  rewrite Z.add_0_r, set_remove_faults_same. reflexivity.
- destruct (remove_faults w) as [|[] rest] eqn:Hr; try discriminate.
  cbn [take replicate] in Hfaults. injection Hfaults as Hfaults.
  cbn [remove_previous].
  replace (loop <? 10) with true by lia.
  unfold io_try, io_bind. unfold os_remove at 1. rewrite Hf, Hr.
  destruct (IH (loop + 1)
              (Some (String.append "ERROR deleting previous image file: "
                       (repr OSError)))
              (set_remove_faults rest w) Hf Hfaults ltac:(lia))
    as [s' Hrun].
  exists s'. rewrite Hrun. cbn [remove_faults set_remove_faults skipn].
  replace (loop + 1 + Z.of_nat n) with (loop + Z.of_nat (S n)) by lia.
  destruct w; reflexivity.
Qed.

(** [k] refused deletions, then one that is carried out. *)
Lemma remove_previous_succeeds n k fn loop s w c :
entries w !! fn = Some (File c) ->
take k (remove_faults w) = replicate k true ->
remove_faults w !! k <> Some true ->
(k < n)%nat -> loop + Z.of_nat k < 10 ->
exists s',
  remove_previous n fn loop s w
  = (Returned (loop + Z.of_nat k, s'),
     set_entries (delete fn (entries w))
       (set_remove_faults (drop (S k) (remove_faults w)) w)).
Proof.
revert n loop s w.
induction k as [|k IH]; intros n loop s w Hf Hfaults Hk Hn Hle.
- destruct n as [|n]; [lia|]. cbn [remove_previous].
  replace (loop <? 10) with true by lia.
  exists s. unfold io_try, io_bind, os_remove, io_ret. rewrite Hf.
  rewrite Z.add_0_r.
  destruct (remove_faults w) as [|[] rest] eqn:Hr; cbn in Hk;
    [|congruence|].
  + cbn. rewrite <- Hr, set_remove_faults_same. reflexivity.
  + reflexivity.
- destruct n as [|n]; [lia|].
  destruct (remove_faults w) as [|[] rest] eqn:Hr; try discriminate.
  cbn [take replicate] in Hfaults. injection Hfaults as Hfaults.
  cbn [remove_previous].
  replace (loop <? 10) with true by lia.
  unfold io_try, io_bind. unfold os_remove at 1. rewrite Hf, Hr.
  destruct (IH n (loop + 1)
              (Some (String.append "ERROR deleting previous image file: "
                       (repr OSError)))
              (set_remove_faults rest w) Hf Hfaults Hk ltac:(lia)
              ltac:(lia))
    as [s' Hrun].
  exists s'. rewrite Hrun. cbn [remove_faults set_remove_faults skipn].
  replace (loop + 1 + Z.of_nat k) with (loop + Z.of_nat (S k)) by lia.
  destruct w; reflexivity.
Qed.
End RetryFacts.

Section IOFacts.
Context {px : Type}.
Implicit Types w : World px.

Lemma io_bind_returned {A B} (m : IO px A) (k : A -> IO px B) w b w' :
io_bind m k w = (Returned b, w') ->
exists a w1, m w = (Returned a, w1) /\ k a w1 = (Returned b, w').
Proof.
unfold io_bind. destruct (m w) as [[a|e] w1]; [eauto|discriminate].
Qed.

Lemma io_bind_run {A B} (m : IO px A) (k : A -> IO px B) w a w1 :
m w = (Returned a, w1) -> io_bind m k w = k a w1.
Proof. unfold io_bind. intros ->. reflexivity. Qed.

Lemma io_bind_raised {A B} (m : IO px A) (k : A -> IO px B) w e w1 :
m w = (Raised e, w1) -> io_bind m k w = (Raised e, w1).
Proof. unfold io_bind. intros ->. reflexivity. Qed.

Lemma py_or_false a b :
truthy (py_or a b) = false -> truthy a = false /\ truthy b = false.
Proof.
unfold py_or. destruct (truthy a) eqn:Ha; [congruence|auto].
Qed.
End IOFacts.

Section FitsFile.
Context {px : Type} `{!Pixel px} `{!Outside px}.
Implicit Types w : World px.

(** X10. [_write_fits_file] returns an error list in one case only:
  the file exists and neither [overwrite] nor [test_image] is set;
  nothing is changed then. The error of the deletion loop is never
  returned: the loop is left with [loop] at most ten, and the test
  is [loop > 10]. *)
Theorem fits_error_is_the_overwrite_flag fn ft w s w' :
_write_fits_file fn ft w = (Returned (RError s), w') ->
truthy (overwrite w) = false /\ truthy (test_image w) = false
/\ path_exists fn w = true
/\ s = String.append "ERROR "
         (String.append fn " exists but Overwrite flag is not set")
/\ w' = w.
Proof.
unfold _write_fits_file, io_bind at 1, io_get. intros Hrun.
destruct (negb (String.eqb (normpath (dirname fn)) EmptyString)
          && negb (path_exists (normpath (dirname fn)) w));
  [discriminate|].
destruct (path_exists fn w) eqn:Hex.
- destruct (truthy (py_or (overwrite w) (test_image w))) eqn:Hov.
  + exfalso.
    apply io_bind_returned in Hrun as ([loop so] & w1 & Hloop & Hrun).
    apply remove_previous_bound in Hloop; [|lia].
    replace (10 <? loop) with false in Hrun by lia.
    apply write_as_returns in Hrun. discriminate.
  + apply py_or_false in Hov as [Ho Ht].
    unfold io_ret in Hrun. injection Hrun as <- <-. auto.
- apply write_as_returns in Hrun. discriminate.
Qed.

(** X11. When the file exists, overwriting is allowed and the system
  refuses the deletion ten times, [_write_fits_file] reports
  nothing: it goes on and writes with the previous file still in
  place. *)
Theorem ten_refusals_are_not_reported fn ft w c :
entries w !! fn = Some (File c) ->
truthy (py_or (overwrite w) (test_image w)) = true ->
normpath (dirname fn) = EmptyString
\/ path_exists (normpath (dirname fn)) w = true ->
take 10 (remove_faults w) = replicate 10 true ->
_write_fits_file fn ft w
= write_as fn ft (set_remove_faults (drop 10 (remove_faults w)) w).
Proof.
intros Hf Hov Hfld Hfaults.
unfold _write_fits_file, io_bind at 1, io_get.
replace (negb (String.eqb (normpath (dirname fn)) EmptyString)
         && negb (path_exists (normpath (dirname fn)) w)) with false
  by (destruct Hfld as [-> | ->]; [reflexivity|];
      rewrite andb_false_r; reflexivity).
rewrite (path_exists_file fn w c Hf), Hov.
destruct (remove_previous_refused 10 fn 0 None w c Hf Hfaults ltac:(lia))
  as [s' Hloop].
rewrite (io_bind_run _ _ _ _ _ Hloop). reflexivity.
Qed.

(** X12. A deletion that is refused [k] times, fewer than ten, and
  then carried out: [_write_fits_file] writes in place of the
  deleted file. *)
Theorem refused_deletion_is_retried fn ft w c (k : nat) :
entries w !! fn = Some (File c) ->
truthy (py_or (overwrite w) (test_image w)) = true ->
normpath (dirname fn) = EmptyString
\/ path_exists (normpath (dirname fn)) w = true ->
(k < 10)%nat ->
take k (remove_faults w) = replicate k true ->
remove_faults w !! k <> Some true ->
_write_fits_file fn ft w
= write_as fn ft
    (set_entries (delete fn (entries w))
       (set_remove_faults (drop (S k) (remove_faults w)) w)).
Proof.
intros Hf Hov Hfld Hk Hfaults Hok.
unfold _write_fits_file, io_bind at 1, io_get.
replace (negb (String.eqb (normpath (dirname fn)) EmptyString)
         && negb (path_exists (normpath (dirname fn)) w)) with false
  by (destruct Hfld as [-> | ->]; [reflexivity|];
      rewrite andb_false_r; reflexivity).
rewrite (path_exists_file fn w c Hf), Hov.
destruct (remove_previous_succeeds 10 k fn 0 None w c Hf Hfaults Hok Hk
            ltac:(lia)) as [s' Hloop].
rewrite (io_bind_run _ _ _ _ _ Hloop).
replace (10 <? 0 + Z.of_nat k) with false by lia. reflexivity.
Qed.
End FitsFile.

Section IOSteps.
Context {px : Type}.
Implicit Types w : World px.

Lemma io_get_bind {B} (k : World px -> IO px B) w :
io_bind io_get k w = k w w.
Proof. reflexivity. Qed.

Lemma io_modify_bind {B} f (k : unit -> IO px B) w :
io_bind (io_modify f) k w = k tt (f w).
Proof. reflexivity. Qed.

Lemma io_ret_bind {A B} (a : A) (k : A -> IO px B) w :
io_bind (io_ret a) k w = k a w.
Proof. reflexivity. Qed.

Lemma io_raise_bind {A B} e (k : A -> IO px B) w :
io_bind (io_raise e) k w = (Raised e, w).
Proof. reflexivity. Qed.

Lemma path_exists_filename path v w :
path_exists path (set_filename v w) = path_exists path w.
Proof. reflexivity. Qed.
End IOSteps.

Ltac wsimpl :=
  cbn [img filename overwrite test_image make_lockfile filetype
       assemble_image entries remove_faults
       set_filename set_img set_entries set_remove_faults].

Ltac io_step :=
  first [ rewrite io_get_bind | rewrite io_modify_bind
        | rewrite io_ret_bind | rewrite io_raise_bind ];
  cbv beta; wsimpl.

Section WriteFile.
Context {px : Type} `{!Pixel px} `{!Outside px}.
Implicit Types w : World px.

(** The file exists and may not be overwritten. *)
Lemma write_fits_refuses fn ft w :
truthy (overwrite w) = false ->
truthy (test_image w) = false ->
path_exists fn w = true ->
normpath (dirname fn) = EmptyString
\/ path_exists (normpath (dirname fn)) w = true ->
_write_fits_file fn ft w
= (Returned
     (RError (String.append "ERROR "
                (String.append fn
                   " exists but Overwrite flag is not set"))), w).
Proof.
intros Ho Ht Hex Hfld. unfold _write_fits_file. io_step.
replace (negb (String.eqb (normpath (dirname fn)) EmptyString)
         && negb (path_exists (normpath (dirname fn)) w)) with false
  by (destruct Hfld as [-> | ->]; [reflexivity|];
      rewrite andb_false_r; reflexivity).
rewrite Hex. unfold py_or. rewrite Ho, Ht. reflexivity.
Qed.

(** X13. [write_file] drops what [_write_fits_file] returns: when the
  file exists and may not be overwritten, the call returns as after
  a successful write, with nothing written. *)
Theorem write_file_hides_existing_file name ft w :
let fn := make_image_filename name in
(if ft =? -1 then filetype w else ft) = 0 ->
truthy (overwrite w) = false ->
truthy (test_image w) = false ->
truthy (make_lockfile w) = false ->
path_exists fn w = true ->
normpath (dirname fn) = EmptyString
\/ path_exists (normpath (dirname fn)) w = true ->
write_file name ft w = (Returned tt, set_filename fn w).
Proof.
intros fn Hft Ho Ht Hl Hex Hfld.
unfold write_file. fold fn.
io_step. io_step. rewrite Ho. cbn [andb].
io_step. io_step. rewrite Ht. cbn [andb].
io_step. io_step. rewrite Hft. cbn [Z.eqb].
rewrite (io_bind_run _ _ _ _ _
           (io_bind_run _ _ _ _ _
              (write_fits_refuses fn 0 (set_filename fn w) Ho Ht Hex Hfld))).
io_step. rewrite Hl. reflexivity.
Qed.

(** The first deletion of [write_file], when it is carried out. *)
Lemma os_remove_file fn w c :
entries w !! fn = Some (File c) ->
remove_faults w !! 0%nat <> Some true ->
os_remove fn w
= (Returned tt,
   set_entries (delete fn (entries w))
     (set_remove_faults (drop 1 (remove_faults w)) w)).
Proof.
intros Hf Hok. unfold os_remove. rewrite Hf.
destruct (remove_faults w) as [|[] rest] eqn:Hr; cbn in Hok;
  [|congruence|reflexivity].
cbn. rewrite <- Hr, set_remove_faults_same. reflexivity.
Qed.

Lemma os_remove_refused fn w c rest :
entries w !! fn = Some (File c) ->
remove_faults w = true :: rest ->
os_remove fn w = (Raised OSError, set_remove_faults rest w).
Proof. intros Hf Hr. unfold os_remove. rewrite Hf, Hr. reflexivity. Qed.

(** X14. A file type that [write_file] does not know is found out
  only after the previous file has been deleted: the call raises,
  and the file is gone. *)
Theorem invalid_filetype_is_found_after_deleting name ft w c :
let fn := make_image_filename name in
let ft' := if ft =? -1 then filetype w else ft in
ft' <> 0 -> ft' <> 1 -> ft' <> 2 -> ft' <> 6 ->
truthy (overwrite w) = true ->
entries w !! fn = Some (File c) ->
remove_faults w !! 0%nat <> Some true ->
write_file name ft w
= (Raised (Py (AzcamError "Invalid filetype for Image")),
   set_entries (delete fn (entries w))
     (set_remove_faults (drop 1 (remove_faults w))
        (set_filename fn w))).
Proof.
intros fn ft' H0 H1 H2 H6 Ho Hf Hok.
unfold write_file. fold fn.
io_step. io_step. rewrite Ho, path_exists_filename.
rewrite (path_exists_file fn w c Hf). cbn [andb].
rewrite (io_bind_run _ _ _ _ _
           (os_remove_file fn (set_filename fn w) c Hf Hok)).
wsimpl. io_step. rewrite path_exists_deleted, andb_false_r.
io_step. io_step. fold ft'.
replace (ft' =? 0) with false by lia.
replace (ft' =? 1) with false by lia.
replace (ft' =? 2) with false by lia.
replace (ft' =? 6) with false by lia.
reflexivity.
Qed.

(** X15. A deletion that the system refuses leaves [write_file] as an
  exception, whatever the file type: the loop of
  [_write_fits_file] that would try again is not reached. *)
Theorem refused_deletion_leaves_write_file name ft w c rest :
let fn := make_image_filename name in
truthy (overwrite w) = true \/ truthy (test_image w) = true ->
entries w !! fn = Some (File c) ->
remove_faults w = true :: rest ->
write_file name ft w
= (Raised OSError, set_remove_faults rest (set_filename fn w)).
Proof.
intros fn Hov Hf Hr.
unfold write_file. fold fn.
io_step. io_step. rewrite path_exists_filename.
rewrite (path_exists_file fn w c Hf), andb_true_r.
destruct (truthy (overwrite w)) eqn:Ho.
- rewrite (io_bind_raised _ _ _ _ _
             (os_remove_refused fn (set_filename fn w) c rest Hf Hr)).
  reflexivity.
- destruct Hov as [Hov|Ht]; [discriminate|].
  io_step. io_step. rewrite Ht, path_exists_filename.
  rewrite (path_exists_file fn w c Hf). cbn [andb].
  rewrite (io_bind_raised _ _ _ _ _
             (os_remove_refused fn (set_filename fn w) c rest Hf Hr)).
  reflexivity.
Qed.

Lemma open_w_returned path content w w' :
open_w path content w = (Returned tt, w') ->
w' = set_entries (<[path := File content]> (entries w)) w.
Proof.
unfold open_w.
destruct (entries w !! path) as [[|c]|]; [discriminate| |].
- intros [= <-]. reflexivity.
- destruct (bool_decide (dirname path = EmptyString)
            || is_folder (dirname path) w); [|discriminate].
  intros [= <-]. reflexivity.
Qed.

(** X16. The lock file is named after the image file with [.bin]
  replaced by [.OK]. A name without [.bin] is its own lock file
  name: whenever [write_file] returns with [make_lockfile] set,
  what was written under such a name has been emptied. *)
Theorem lock_file_empties_the_image name ft w w' :
let fn := make_image_filename name in
write_file name ft w = (Returned tt, w') ->
truthy (make_lockfile w') = true ->
occurs ".bin" fn = false ->
entries w' !! fn = Some (File []).
Proof.
intros fn Hrun Hl Hocc. unfold write_file in Hrun. fold fn in Hrun.
repeat (apply io_bind_returned in Hrun as (? & ? & Hm & Hrun);
        match type of Hm with
        | io_get _ = _ => unfold io_get in Hm; inversion Hm; subst; clear Hm
        | _ => clear Hm
        end).
rewrite (replace_absent _ _ _ Hocc) in Hrun.
match type of Hrun with
| (if truthy (make_lockfile ?v) then _ else _) _ = _ =>
    destruct (truthy (make_lockfile v)) eqn:Hlv
end.
- apply open_w_returned in Hrun as ->. cbn. apply lookup_insert_eq.
- unfold io_ret in Hrun. inversion Hrun; subst. congruence.
Qed.
End WriteFile.

Section BinFile.
Context {px : Type} `{!Pixel px} `{!Outside px}.
Implicit Types w : World px.

(** Trimmed assembly returns when no mirrored row is cut short. *)
Lemma assemble_trimmed_returns (self : Image px) :
valid_image self = true ->
truthy (assembled self) = false ->
numrows_underscan (focalplane self) <= numrows_overscan (focalplane self)
\/ Forall (fun f => f <> 3) (amp_cfg (focalplane self)) ->
exists self', assemble 1 self = (Ok tt, self').
Proof.
intros Hvalid Ha Hcond.
apply assemble_total_full; [assumption..|].
intros fp p i j Hp Hi Hj.
apply (source_segment_full 1 self Hvalid p i j Hp Hj Hi).
destruct Hcond as [Hle|Hno].
- left. unfold margin. cbn [Z.eqb]. exact Hle.
- right. unfold flip_of.
  destruct (amp_cfg (focalplane self) !! Z.to_nat (amp_at self p j))
    as [f|] eqn:Hf; cbn; [|lia].
  rewrite Forall_forall in Hno. eapply Hno, list_elem_of_lookup_2, Hf.
Qed.

Lemma append_suffix_differs base :
String.append base ".OK" <> String.append base ".bin".
Proof.
induction base as [|c b IH]; [discriminate|].
cbv [String.append]. fold String.append. intros [= Heq]. exact (IH Heq).
Qed.

Lemma open_w_new path content w :
entries w !! path = None ->
dirname path = EmptyString \/ is_folder (dirname path) w = true ->
open_w path content w
= (Returned tt, set_entries (<[path := File content]> (entries w)) w).
Proof.
intros Hnone Hdir. unfold open_w. rewrite Hnone.
destruct Hdir as [-> | ->]; [reflexivity|].
rewrite orb_true_r. reflexivity.
Qed.

Lemma is_folder_insert_file path other content w v :
is_folder path w = true ->
entries w !! other = None ->
is_folder path (set_entries (<[other := File content]> (entries w)) v)
= true.
Proof.
unfold is_folder. cbn [entries set_entries]. intros Hfold Hnone.
destruct (decide (other = path)) as [->|Hne].
- rewrite Hnone in Hfold. discriminate.
- rewrite lookup_insert_ne by exact Hne. exact Hfold.
Qed.

(** The body of [_write_bin_file] on an image that [assemble]
  accepts. *)
Lemma write_bin_run fn w self' :
let fp := focalplane (img w) in
let self := set_size_y (numrows_image fp)
              (set_size_x (numcols_image fp) (img w)) in
truthy (assembled (img w)) = false ->
assemble 1 self = (Ok tt, self') ->
_write_bin_file fn w
= open_w fn (astype_uint16 <$> nd_cells (buffer self')) (set_img self' w).
Proof.
intros fp self Ha Hasm. unfold _write_bin_file.
unfold io_bind at 1. unfold on_image at 1. cbn [bind get modify].
unfold io_bind at 1. unfold on_image at 1. wsimpl. cbn [bind get modify].
cbn [focalplane set_size_x]. fold fp. fold self.
io_step. change (assembled self) with (assembled (img w)).
rewrite Ha. cbn [negb].
unfold io_bind at 1. unfold on_image at 1. wsimpl. rewrite Hasm.
io_step. reflexivity.
Qed.

(** X17. A binary image [base.bin] and its lock file: on a valid
  image not yet assembled, [write_file] with file type 2 sets the
  image size from the focal plane, assembles with trimming, writes
  the pixels of the buffer cast to [uint16] row after row, and
  creates the empty lock file [base.OK]. *)
Theorem bin_file_and_its_lock name ft w base :
let fn := make_image_filename name in
let lock := String.append base ".OK" in
let fp := focalplane (img w) in
let self := set_size_y (numrows_image fp)
              (set_size_x (numcols_image fp) (img w)) in
(if ft =? -1 then filetype w else ft) = 2 ->
fn = String.append base ".bin" ->
occurs ".bin" base = false ->
entries w !! fn = None ->
entries w !! lock = None ->
dirname fn = EmptyString \/ is_folder (dirname fn) w = true ->
dirname lock = EmptyString \/ is_folder (dirname lock) w = true ->
truthy (make_lockfile w) = true ->
valid_image self = true ->
truthy (assembled (img w)) = false ->
numrows_underscan fp <= numrows_overscan fp
\/ Forall (fun f => f <> 3) (amp_cfg fp) ->
exists self',
  assemble 1 self = (Ok tt, self')
  /\ write_file name ft w
     = (Returned tt,
        set_entries
          (<[lock := File []]>
             (<[fn := File (astype_uint16 <$> nd_cells (buffer self'))]>
                (entries w)))
          (set_img self' (set_filename fn w))).
Proof.
intros fn lock fp self Hft Hfn Hocc Hnew Hlock Hdir Hldir Hl Hvalid Ha
  Hcond.
destruct (assemble_trimmed_returns self Hvalid Ha Hcond) as [self' Hasm].
exists self'. split; [exact Hasm|].
unfold write_file. fold fn.
assert (Hex : path_exists fn w = false).
{ unfold path_exists. apply bool_decide_eq_false. rewrite Hnew.
  intros [? ?]. discriminate. }
io_step. io_step. rewrite path_exists_filename, Hex, andb_false_r.
io_step. io_step. rewrite path_exists_filename, Hex, andb_false_r.
io_step. io_step. rewrite Hft. cbn [Z.eqb].
rewrite (io_bind_run _ _ _ _ _
           (eq_trans
              (write_bin_run fn (set_filename fn w) self' Ha Hasm)
              (open_w_new fn _ (set_img self' (set_filename fn w))
                 Hnew Hdir))).
io_step. rewrite Hl.
rewrite Hfn at 1. rewrite (replace_bin_suffix base Hocc). fold lock.
rewrite open_w_new.
- reflexivity.
- cbn [entries set_entries]. rewrite lookup_insert_ne; [exact Hlock|].
  rewrite Hfn. intros Heq. symmetry in Heq.
  exact (append_suffix_differs base Heq).
- destruct Hldir as [Hd|Hd]; [left; exact Hd|right].
  apply is_folder_insert_file; [exact Hd|exact Hnew].
Qed.

(** X18. [_write_bin_file] on an image that is not valid and not
  assembled raises the error of [assemble]: no file is created,
  but [size_x] and [size_y] have already been overwritten. *)
Theorem bin_file_of_invalid_image fn w :
let fp := focalplane (img w) in
truthy (is_valid (img w)) = false ->
truthy (assembled (img w)) = false ->
_write_bin_file fn w
= (Raised (Py (AzcamError "image is not valid")),
   set_img (set_size_y (numrows_image fp)
              (set_size_x (numcols_image fp) (img w))) w).
Proof.
intros fp Hv Ha. unfold _write_bin_file.
unfold io_bind at 1. unfold on_image at 1. cbn [bind get modify].
unfold io_bind at 1. unfold on_image at 1. wsimpl. cbn [bind get modify].
cbn [focalplane set_size_x]. fold fp.
io_step. cbn [assembled set_size_y set_size_x]. rewrite Ha. cbn [negb].
unfold io_bind at 1. unfold on_image at 1. wsimpl.
rewrite assemble_invalid by exact Hv. reflexivity.
Qed.
End BinFile.

Section DiskRuns.
Local Open Scope string_scope.

Lemma fits_error_is_the_overwrite_flag_witness :
let w := Disk.kept in
exists s,
  _write_fits_file "data/img.fits" 0 w = (Returned (RError s), w)
  /\ truthy (overwrite w) = false /\ truthy (test_image w) = false
  /\ path_exists "data/img.fits" w = true
  /\ s = "ERROR data/img.fits exists but Overwrite flag is not set".
Proof.
intros w.
assert (Hrun : _write_fits_file "data/img.fits" 0 w
               = (Returned (RError ?[s]), w))
  by (vm_compute; reflexivity).
eexists. split; [exact Hrun|].
destruct (fits_error_is_the_overwrite_flag _ _ _ _ _ Hrun)
  as (Ho & Ht & Hex & Hs & _).
auto.
Defined.

Lemma ten_refusals_are_not_reported_witness :
let w := Disk.refusing 10 in
entries w !! "data/img.fits" = Some (File [7; 8]%Z)
/\ take 10 (remove_faults w) = replicate 10 true
/\ _write_fits_file "data/img.fits" 0 w
   = write_as "data/img.fits" 0 (set_remove_faults [] w).
Proof.
intros w.
assert (Hf : entries w !! "data/img.fits" = Some (File [7; 8]%Z))
  by (vm_compute; reflexivity).
split; [exact Hf|]. split; [reflexivity|].
apply (ten_refusals_are_not_reported "data/img.fits" 0%Z w _ Hf).
- reflexivity.
- right. vm_compute. reflexivity.
- reflexivity.
Defined.

Lemma refused_deletion_is_retried_witness :
let w := Disk.refusing 2 in
entries w !! "data/img.fits" = Some (File [7; 8]%Z)
/\ _write_fits_file "data/img.fits" 0 w
   = write_as "data/img.fits" 0
       (set_entries (delete "data/img.fits" (entries w))
          (set_remove_faults [] w)).
Proof.
intros w.
assert (Hf : entries w !! "data/img.fits" = Some (File [7; 8]%Z))
  by (vm_compute; reflexivity).
split; [exact Hf|].
apply (refused_deletion_is_retried "data/img.fits" 0%Z w _ 2 Hf).
- reflexivity.
- right. vm_compute. reflexivity.
- lia.
- reflexivity.
- discriminate.
Defined.

Lemma write_file_hides_existing_file_witness :
let w := Disk.kept in
path_exists "data/img.fits" w = true
/\ write_file "data/img.fits" (-1) w
   = (Returned tt, set_filename "data/img.fits" w).
Proof.
intros w.
assert (Hex : path_exists "data/img.fits" w = true)
  by (vm_compute; reflexivity).
split; [exact Hex|].
assert (Hfld : normpath (dirname "data/img.fits") = EmptyString
               \/ path_exists (normpath (dirname "data/img.fits")) w = true)
  by (right; vm_compute; reflexivity).
exact (write_file_hides_existing_file "data/img.fits" (-1)%Z w
         eq_refl eq_refl eq_refl eq_refl Hex Hfld).
Defined.

Lemma invalid_filetype_is_found_after_deleting_witness :
let w := Disk.mistyped in
filetype w = 5%Z
/\ entries w !! "data/img.fits" = Some (File [7; 8]%Z)
/\ exists w',
    write_file "data/img.fits" (-1) w
    = (Raised (Py (AzcamError "Invalid filetype for Image")), w')
    /\ entries w' !! "data/img.fits" = None.
Proof.
intros w.
assert (Hf : entries w !! "data/img.fits" = Some (File [7; 8]%Z))
  by (vm_compute; reflexivity).
split; [reflexivity|]. split; [exact Hf|].
assert (Hok : remove_faults w !! 0%nat <> Some true) by discriminate.
assert (Hft : forall n : Z, n <> 5%Z -> filetype w <> n)
  by (intros n Hn Heq; apply Hn; symmetry; exact Heq).
eexists. split.
- exact (invalid_filetype_is_found_after_deleting
           "data/img.fits" (-1)%Z w _
           (Hft 0%Z ltac:(lia)) (Hft 1%Z ltac:(lia))
           (Hft 2%Z ltac:(lia)) (Hft 6%Z ltac:(lia)) eq_refl Hf Hok).
- vm_compute. reflexivity.
Defined.

Lemma refused_deletion_leaves_write_file_witness :
let w := Disk.refusing 1 in
entries w !! "data/img.fits" = Some (File [7; 8]%Z)
/\ write_file "data/img.fits" 0 w
   = (Raised OSError, set_remove_faults [] (set_filename "data/img.fits" w)).
Proof.
intros w.
assert (Hf : entries w !! "data/img.fits" = Some (File [7; 8]%Z))
  by (vm_compute; reflexivity).
split; [exact Hf|].
exact (refused_deletion_leaves_write_file "data/img.fits" 0%Z w _ []
         (or_introl eq_refl) Hf eq_refl).
Defined.

Lemma lock_file_empties_the_image_witness :
let w := Disk.binary (Scenario.two_amps [0; 1]%Z) in
exists w',
  write_file "data/img.raw" 2 w = (Returned tt, w')
  /\ truthy (make_lockfile w') = true
  /\ occurs ".bin" "data/img.raw" = false
  /\ entries w' !! "data/img.raw" = Some (File []).
Proof.
intros w.
assert (Hrun : write_file "data/img.raw" 2 w = (Returned tt, ?[w']))
  by (vm_compute; reflexivity).
eexists. split; [exact Hrun|].
assert (Hl : truthy (make_lockfile
                       (write_file "data/img.raw" 2 w).2) = true)
  by (vm_compute; reflexivity).
rewrite Hrun in Hl. cbn [snd] in Hl.
split; [exact Hl|]. split; [reflexivity|].
exact (lock_file_empties_the_image "data/img.raw" 2%Z w _ Hrun Hl eq_refl).
Defined.

Lemma bin_file_and_its_lock_witness :
let w := Disk.binary (Scenario.two_amps [0; 1]%Z) in
exists w',
  write_file "data/img.bin" (-1) w = (Returned tt, w')
  /\ entries w' !! "data/img.bin"
     = Some (File [111; 112; 113; 213; 212; 211;
                   121; 122; 123; 223; 222; 221]%Z)
  /\ entries w' !! "data/img.OK" = Some (File []).
Proof.
intros w.
destruct (bin_file_and_its_lock "data/img.bin" (-1)%Z w "data/img")
  as (self' & Hasm & Hrun).
- reflexivity.
- reflexivity.
- reflexivity.
- vm_compute. reflexivity.
- vm_compute. reflexivity.
- right. vm_compute. reflexivity.
- right. vm_compute. reflexivity.
- reflexivity.
- vm_compute. reflexivity.
- reflexivity.
- right. repeat constructor; discriminate.
- eexists. split; [exact Hrun|].
  assert (Hs : self' = (assemble 1 (Scenario.two_amps [0; 1]%Z)).2).
  { change (set_size_y _ _) with (Scenario.two_amps [0; 1]%Z) in Hasm.
    rewrite Hasm. reflexivity. }
  rewrite Hs. split; vm_compute; reflexivity.
Defined.

Lemma bin_file_of_invalid_image_witness :
let w := Disk.binary Scenario.invalid in
truthy (is_valid (img w)) = false
/\ (_write_bin_file "data/img.bin" w).1
   = Raised (Py (AzcamError "image is not valid"))
/\ entries (_write_bin_file "data/img.bin" w).2 !! "data/img.bin" = None.
Proof.
intros w. split; [reflexivity|].
rewrite (bin_file_of_invalid_image "data/img.bin" w eq_refl eq_refl).
split; [reflexivity|]. vm_compute. reflexivity.
Defined.
End DiskRuns.

Section AssembleBeforeWriting.
Context {px : Type} `{!Pixel px} `{!Outside px}.
Implicit Types w : World px.

(** X19. [_write_fits_file] deletes the previous file before it
  assembles: when the image is to be assembled and is not valid,
  the call raises the error of [assemble], nothing is written, and
  the previous file is gone. *)
Theorem previous_file_is_lost_on_invalid_image fn ft w c :
entries w !! fn = Some (File c) ->
truthy (py_or (overwrite w) (test_image w)) = true ->
normpath (dirname fn) = EmptyString
\/ path_exists (normpath (dirname fn)) w = true ->
remove_faults w !! 0%nat <> Some true ->
truthy (assemble_image w) = true ->
truthy (is_valid (img w)) = false ->
_write_fits_file fn ft w
= (Raised (Py (AzcamError "image is not valid")),
   set_entries (delete fn (entries w))
     (set_remove_faults (drop 1 (remove_faults w)) w)).
Proof.
intros Hf Hov Hfld Hok Hasm Hv.
unfold _write_fits_file. io_step.
replace (negb (String.eqb (normpath (dirname fn)) EmptyString)
         && negb (path_exists (normpath (dirname fn)) w)) with false
  by (destruct Hfld as [-> | ->]; [reflexivity|];
      rewrite andb_false_r; reflexivity).
rewrite (path_exists_file fn w c Hf), Hov.
destruct (remove_previous_succeeds 10 0 fn 0 None w c Hf eq_refl Hok
            ltac:(lia) ltac:(lia)) as [s' Hloop].
rewrite (io_bind_run _ _ _ _ _ Hloop). 
replace (10 <? 0 + Z.of_nat 0) with false by reflexivity.
unfold write_as. io_step. rewrite Hasm.
unfold io_bind at 1. unfold on_image. wsimpl.
rewrite assemble_invalid by exact Hv. destruct w; reflexivity.
Qed.

End AssembleBeforeWriting.

Section UnreadyRun.
Local Open Scope string_scope.

Lemma previous_file_is_lost_on_invalid_image_witness :
let w := Disk.unready in
entries w !! "data/img.fits" = Some (File [7; 8]%Z)
/\ exists w',
    _write_fits_file "data/img.fits" 0 w
    = (Raised (Py (AzcamError "image is not valid")), w')
    /\ entries w' !! "data/img.fits" = None.
Proof.
intros w.
assert (Hf : entries w !! "data/img.fits" = Some (File [7; 8]%Z))
  by (vm_compute; reflexivity).
assert (Hfld : normpath (dirname "data/img.fits") = EmptyString
               \/ path_exists (normpath (dirname "data/img.fits")) w = true)
  by (right; vm_compute; reflexivity).
assert (Hok : remove_faults w !! 0%nat <> Some true) by discriminate.
split; [exact Hf|]. eexists. split.
- exact (previous_file_is_lost_on_invalid_image "data/img.fits" 0%Z w _
           Hf eq_refl Hfld Hok eq_refl eq_refl).
- vm_compute. reflexivity.
Defined.
End UnreadyRun.
